(** * ilmaotsija: location lookup and weather proxy (prjc/app.py)

    A shallow embedding of the request pipeline of [app.py]: location
    validation and normalisation, the geocoding de-duplicator with its
    sort and pagination, the two TTL caches, the current-weather validator
    and the per-day forecast aggregation, followed by the properties the
    specification states about them.

    Modelling conventions.
    - A Python [str] is the list of its Unicode code points.  The white
      space of [str.strip] and [\s], the classes [[A-Z]] and [[^,]] and
      the letters that match under [re.IGNORECASE] are defined here; the
      case mappings and [str.isalnum] are defined for the code points below
      128 and taken from the interpreter's Unicode database above.
    - Python [int] is [Z]; Python [float] is the binary64 primitive type, so
      quotients and [round] compute as in the interpreter.  The integer
      part of [sum] is exact; its float additions are the interpreter's.
    - The interpreter (Unicode database, [int], [sum]), the country
      reference (pycountry), the server's local time zone, the iteration
      order of a hash set and the decisions of the rate limiter are not part
      of [app.py]; they are parameters of the development.
    - The two upstream providers are an oracle indexed by the number of
      outbound calls made so far; every outbound call is logged. *)

From Stdlib Require Import ZArith NArith List Lia Bool Ascii String.
From Stdlib Require Import Sorting.Sorted Sorting.Permutation.
From Stdlib Require Import Floats.PrimFloat Floats.SpecFloat Floats.FloatOps.
From Stdlib Require Import Numbers.DecimalString.
Import ListNotations.

Set Implicit Arguments.
Open Scope Z_scope.

(** ** Python strings *)

Module PyStr.

(** A character is its Unicode code point, a string is the list of its
    characters. *)
Definition char : Type := N.
Definition str : Type := list char.

(** A character and a string literal of the source. *)
Definition ch (a : ascii) : char := N_of_ascii a.
Definition lit (s : string) : str := map ch (list_ascii_of_string s).

Definition is_ascii (c : char) : bool := (c <? 128)%N.

(** [str.isspace], the characters that [str.strip] removes and the regex
    class [\s]: TAB, LF, VT, FF, CR, the separators FS, GS, RS, US, the
    space, NEL, the no-break space, the Ogham space mark, the spaces U+2000
    to U+200A, the line and the paragraph separator, the narrow no-break
    space, the medium mathematical space and the ideographic space. *)
Definition isspace (c : char) : bool :=
  (((9 <=? c) && (c <=? 13)) || ((28 <=? c) && (c <=? 32))
   || (c =? 133) || (c =? 160) || (c =? 5760)
   || ((8192 <=? c) && (c <=? 8202))
   || (c =? 8232) || (c =? 8233) || (c =? 8239) || (c =? 8287) || (c =? 12288))%N.

(** The regex classes [[A-Z]], [[a-z]] and [[0-9]]. *)
Definition isupper (c : char) : bool := ((65 <=? c) && (c <=? 90))%N.

Definition islower (c : char) : bool := ((97 <=? c) && (c <=? 122))%N.

Definition isdigit (c : char) : bool := ((48 <=? c) && (c <=? 57))%N.

(** [str.isalnum], [str.upper] and [str.lower] on the code points below
    128. *)
Definition ascii_isalnum (c : char) : bool := isupper c || islower c || isdigit c.

Definition ascii_to_upper (c : char) : char :=
  if islower c then (c - 32)%N else c.

Definition ascii_to_lower (c : char) : char :=
  if isupper c then (c + 32)%N else c.

Definition ascii_upper (s : str) : str := map ascii_to_upper s.
Definition ascii_lower (s : str) : str := map ascii_to_lower s.

Fixpoint eqb (a b : str) : bool :=
  match a, b with
  | [], [] => true
  | x :: a', y :: b' => (x =? y)%N && eqb a' b'
  | _, _ => false
  end.

(** [a < b] on strings: lexicographic on code points. *)
Fixpoint ltb (a b : str) : bool :=
  match a, b with
  | _, [] => false
  | [], _ :: _ => true
  | x :: a', y :: b' =>
      if (x <? y)%N then true
      else if (y <? x)%N then false
      else ltb a' b'
  end.

(** Truthiness of a string: [if s]. *)
Definition truthy (s : str) : bool :=
  match s with [] => false | _ :: _ => true end.

Fixpoint lstrip_by (p : char -> bool) (s : str) : str :=
  match s with
  | [] => []
  | c :: s' => if p c then lstrip_by p s' else s
  end.

Definition rstrip_by (p : char -> bool) (s : str) : str :=
  rev (lstrip_by p (rev s)).

Definition strip_by (p : char -> bool) (s : str) : str :=
  rstrip_by p (lstrip_by p s).

(** [s.strip()] *)
Definition strip (s : str) : str := strip_by isspace s.

(** [s.strip(c)] for a one-character argument. *)
Definition strip_char (c : char) (s : str) : str := strip_by (N.eqb c) s.

(** [s.split(sep)] for a one-character separator. *)
Fixpoint split (sep : char) (s : str) : list str :=
  match s with
  | [] => [[]]
  | c :: s' =>
      if (c =? sep)%N then [] :: split sep s'
      else match split sep s' with
           | [] => [[c]]
           | p :: ps => (c :: p) :: ps
           end
  end.

(** [s.replace(a, b)] for one-character [a] and [b]. *)
Definition replace_char (a b : char) (s : str) : str :=
  map (fun c => if (c =? a)%N then b else c) s.

Fixpoint startswith (p s : str) : bool :=
  match p, s with
  | [], _ => true
  | x :: p', y :: s' => (x =? y)%N && startswith p' s'
  | _ :: _, [] => false
  end.

(** [needle in hay] *)
Fixpoint contains (needle hay : str) : bool :=
  startswith needle hay
  || match hay with
     | [] => false
     | _ :: hay' => contains needle hay'
     end.

(** [re.sub(r'C+', r, s)] for a character class [C] and a one-character
    replacement [r]: every maximal run of class characters becomes one
    [r].  [in_run] says that the previous character was in the class. *)
Fixpoint sub_runs (p : char -> bool) (r : char) (in_run : bool) (s : str) : str :=
  match s with
  | [] => []
  | c :: s' =>
      if p c then
        if in_run then sub_runs p r true s' else r :: sub_runs p r true s'
      else c :: sub_runs p r false s'
  end.

(** The characters that the letters [l], [i] and [n] of a pattern match
    under [re.IGNORECASE]: the letter in both cases and, for [i], also the
    dotted capital I (U+0130) and the dotless small i (U+0131). *)
Definition is_l (c : char) : bool := ((c =? ch "l") || (c =? ch "L"))%N.
Definition is_i (c : char) : bool :=
  ((c =? ch "i") || (c =? ch "I") || (c =? 304) || (c =? 305))%N.
Definition is_n (c : char) : bool := ((c =? ch "n") || (c =? ch "N"))%N.

Definition is_linn (c1 c2 c3 c4 : char) : bool :=
  is_l c1 && is_i c2 && is_n c3 && is_n c4.

Section Words.

(** The regex class [\w]. *)
Variable isword : char -> bool.

(** The suffix starts with a word character. *)
Definition starts_word (s : str) : bool :=
  match s with [] => false | c :: _ => isword c end.

(** [re.sub(r'\blinn\b', '', s, flags=re.IGNORECASE)]: a left-to-right
    scan for non-overlapping matches; [prev_word] says that the character
    before the current position is a word character.  There is a [\b]
    between two positions when exactly one of them holds a word
    character. *)
Fixpoint sub_linn (prev_word : bool) (s : str) : str :=
  match s with
  | [] => []
  | c1 :: s1 =>
      match s1 with
      | c2 :: c3 :: c4 :: rest =>
          if xorb prev_word (isword c1) && is_linn c1 c2 c3 c4
             && xorb (isword c4) (starts_word rest)
          then sub_linn (isword c4) rest
          else c1 :: sub_linn (isword c1) s1
      | _ => c1 :: sub_linn (isword c1) s1
      end
  end.

End Words.

(** [re.match(r'^[^,]+,[A-Z]{2}$', s)]: a non-empty comma-free prefix, a
    comma, two capital letters, and then the end of the string or one
    final newline (which [$] allows). *)
Fixpoint match_city_code (seen_one : bool) (s : str) : bool :=
  match s with
  | [] => false
  | c :: s' =>
      if (c =? ch ",")%N then
        seen_one &&
        match s' with
        | [u1; u2] => isupper u1 && isupper u2
        | [u1; u2; nl] => isupper u1 && isupper u2 && (nl =? 10)%N
        | _ => false
        end
      else match_city_code true s'
  end.

(** [str(n)] for an integer. *)
Definition of_Z (n : Z) : str := lit (NilZero.string_of_int (Z.to_int n)).

(** [s] cut at its first [sep]: the text before it and the text after
    it. *)
Fixpoint cut_at (sep : char) (s : str) : option (str * str) :=
  match s with
  | [] => None
  | c :: s' =>
      if (c =? sep)%N then Some ([], s')
      else match cut_at sep s' with
           | Some (a, b) => Some (c :: a, b)
           | None => None
           end
  end.

End PyStr.

Export PyStr.

(** ** Exceptions *)

(** The exception classes that the handlers tell apart: [HTTPError] is a
    [RequestException]; everything else is only an [Exception]. *)
Inductive exn : Type :=
| HTTPError (status_code : Z)
| RequestException
| KeyError
| IndexError
| TypeError
| AttributeError
| LookupError
| OverflowError
| ZeroDivisionError
| ValueError.

Inductive res (A : Type) : Type :=
| Ret (a : A)
| Raise (e : exn).

Arguments Ret {A} a.
Arguments Raise {A} e.

Definition bind {A B : Type} (m : res A) (k : A -> res B) : res B :=
  match m with
  | Ret a => k a
  | Raise e => Raise e
  end.

Declare Scope res_scope.
Delimit Scope res_scope with res.
Notation "x <- m ;; k" := (bind m (fun x => k))
  (at level 61, m at next level, right associativity) : res_scope.

(** ** Python numbers *)

Module PyNum.

Inductive pynum : Type :=
| PyInt (z : Z)
| PyFloat (f : float).

Definition sf_is_finite (x : spec_float) : bool :=
  match x with
  | S754_zero _ | S754_finite _ _ _ => true
  | _ => false
  end.

(** The binary64 value nearest to the integer [z] (ties to even);
    infinite when [z] is out of range. *)
Definition sf_of_Z (z : Z) : spec_float :=
  match z with
  | Z0 => S754_zero false
  | Zpos _ => binary_normalize prec emax z 0 false
  | Zneg _ => binary_normalize prec emax z 0 true
  end.

(** [float(z)]: raises [OverflowError] when [z] is too large. *)
Definition float_of_Z (z : Z) : res float :=
  let x := sf_of_Z z in
  if sf_is_finite x then Ret (SF2Prim x) else Raise OverflowError.

(** The binary64 value nearest to the quotient [a / b] of two integers,
    [b <> 0] (ties to even). *)
Definition sf_quot (a b : Z) : spec_float :=
  match a, b with
  | Z0, _ => S754_zero (b <? 0)
  | _, Z0 => S754_nan
  | Zpos p, Zpos q => SFdiv prec emax (S754_finite false p 0) (S754_finite false q 0)
  | Zpos p, Zneg q => SFdiv prec emax (S754_finite false p 0) (S754_finite true q 0)
  | Zneg p, Zpos q => SFdiv prec emax (S754_finite true p 0) (S754_finite false q 0)
  | Zneg p, Zneg q => SFdiv prec emax (S754_finite true p 0) (S754_finite true q 0)
  end.

(** [a + b] *)
Definition py_add (a b : pynum) : res pynum :=
  match a, b with
  | PyInt x, PyInt y => Ret (PyInt (x + y))
  | PyFloat x, PyFloat y => Ret (PyFloat (x + y)%float)
  | PyInt x, PyFloat y =>
      bind (float_of_Z x) (fun fx => Ret (PyFloat (fx + y)%float))
  | PyFloat x, PyInt y =>
      bind (float_of_Z y) (fun fy => Ret (PyFloat (x + fy)%float))
  end.

(** The additions of [sum] once its running total is the float or integer
    [acc]: one [+] per item, from left to right. *)
Fixpoint py_sum_from (acc : pynum) (l : list pynum) : res pynum :=
  match l with
  | [] => Ret acc
  | x :: l' => bind (py_add acc x) (fun acc' => py_sum_from acc' l')
  end.

(** The sum of a list of integers. *)
Definition total (zs : list Z) : Z := fold_left Z.add zs 0.

(** [sum(l)] adds the items to the start value [0] from left to right.
    While the items are integers the running total is their exact sum.
    How the additions are carried out from the first float on depends on
    the interpreter (CPython up to 3.11 adds one item after the other, from
    3.12 on it carries a compensation term); this part is the argument
    [float_sum], which gets the integers met so far, the first float and
    the items after it. *)
Fixpoint py_sum_ints (float_sum : list Z -> float -> list pynum -> res pynum)
    (seen : list Z) (l : list pynum) : res pynum :=
  match l with
  | [] => Ret (PyInt (total seen))
  | PyInt z :: l' => py_sum_ints float_sum (seen ++ [z]) l'
  | PyFloat x :: l' => float_sum seen x l'
  end.

Definition py_sum (float_sum : list Z -> float -> list pynum -> res pynum)
    (l : list pynum) : res pynum :=
  py_sum_ints float_sum [] l.

(** [float_sum] as CPython up to 3.11 has it: every item is added to the
    running total with [+]. *)
Definition plain_float_sum (seen : list Z) (x : float) (rest : list pynum) : res pynum :=
  bind (py_add (PyInt (total seen)) (PyFloat x)) (fun acc => py_sum_from acc rest).

(** [float_sum] as CPython 3.12 has it where a C [long] has 64 bits.  The
    floats are added with Neumaier's compensation: [f] is the running
    total, [c] the compensation, which is added at the end when it is
    finite and not zero.  An integer that fits a [long] is added to [f]
    as it is; any other integer, or a running total of integers that did
    not fit a [long], ends the compensation. *)
Definition fits_long (z : Z) : bool := (- 2 ^ 63 <=? z) && (z <? 2 ^ 63).

Definition flush (f c : float) : float :=
  if negb (PrimFloat.eqb c 0) && PrimFloat.is_finite c then (f + c)%float else f.

Fixpoint compensated_from (f c : float) (l : list pynum) : res pynum :=
  match l with
  | [] => Ret (PyFloat (flush f c))
  | PyFloat x :: l' =>
      let t := (f + x)%float in
      let c' := if PrimFloat.leb (abs x) (abs f)
                then (c + ((f - t) + x))%float
                else (c + ((x - t) + f))%float in
      compensated_from t c' l'
  | PyInt z :: l' =>
      if fits_long z then compensated_from (f + SF2Prim (sf_of_Z z))%float c l'
      else bind (py_add (PyFloat (flush f c)) (PyInt z)) (fun acc => py_sum_from acc l')
  end.

(** No running total of the integers left the range of a [long]. *)
Fixpoint totals_fit (acc : Z) (zs : list Z) : bool :=
  match zs with
  | [] => true
  | z :: zs' => fits_long z && fits_long (acc + z) && totals_fit (acc + z) zs'
  end.

Definition compensated_float_sum (seen : list Z) (x : float) (rest : list pynum)
  : res pynum :=
  if totals_fit 0 seen
  then compensated_from (SF2Prim (sf_of_Z (total seen)) + x)%float 0%float rest
  else plain_float_sum seen x rest.

(** [a / n] for an integer [n] (true division). *)
Definition py_truediv (a : pynum) (n : Z) : res float :=
  if n =? 0 then Raise ZeroDivisionError else
  match a with
  | PyInt x =>
      let q := sf_quot x n in
      if sf_is_finite q then Ret (SF2Prim q) else Raise OverflowError
  | PyFloat x =>
      bind (float_of_Z n) (fun fn => Ret (x / fn)%float)
  end.

(** Round to nearest, ties to even, of [num / 2^k]. *)
Definition round_half_even_shift (num : Z) (k : Z) : Z :=
  let q := Z.shiftr num k in
  let r := num - Z.shiftl q k in
  let half := Z.shiftl 1 (k - 1) in
  if r <? half then q
  else if half <? r then q + 1
  else if Z.even q then q else q + 1.

(** [round(x, 1)] on a float: the exact binary value is rounded to one
    decimal (ties to even) and the decimal is converted back to the
    nearest float.  Zeros, infinities, NaN and integral values are returned
    as they are. *)
Definition round1_float (x : float) : float :=
  match Prim2SF x with
  | S754_finite s m e =>
      if 0 <=? e then x
      else
        let n := round_half_even_shift (10 * Zpos m) (- e) in
        match n with
        | Zpos p => SF2Prim (SFdiv prec emax (S754_finite s p 0) (S754_finite false 10 0))
        | _ => SF2Prim (S754_zero s)
        end
  | _ => x
  end.

(** [round(x, 1)]: an [int] is returned as it is. *)
Definition py_round1 (x : pynum) : pynum :=
  match x with
  | PyInt z => PyInt z
  | PyFloat f => PyFloat (round1_float f)
  end.

(** The value of a number other than NaN: zero, an infinity, or
    [(-1)^s * m * 2^e] with [m] odd. *)
Inductive value : Type :=
| VZero
| VInf (s : bool)
| VFin (s : bool) (m : positive) (e : Z).

(** [p = m * 2^k] with [m] odd. *)
Fixpoint odd_part (p : positive) : positive * Z :=
  match p with
  | xO p' => let (m, k) := odd_part p' in (m, k + 1)
  | _ => (p, 0)
  end.

Definition value_of_Z (z : Z) : value :=
  match z with
  | Z0 => VZero
  | Zpos p => let (m, k) := odd_part p in VFin false m k
  | Zneg p => let (m, k) := odd_part p in VFin true m k
  end.

Definition value_of_float (x : float) : option value :=
  match Prim2SF x with
  | S754_zero _ => Some VZero
  | S754_infinity s => Some (VInf s)
  | S754_nan => None
  | S754_finite s m e => let (m', k) := odd_part m in Some (VFin s m' (e + k))
  end.

Definition num_value (a : pynum) : option value :=
  match a with
  | PyInt z => Some (value_of_Z z)
  | PyFloat f => value_of_float f
  end.

Definition value_eqb (u v : value) : bool :=
  match u, v with
  | VZero, VZero => true
  | VInf s, VInf s' => Bool.eqb s s'
  | VFin s m e, VFin s' m' e' => Bool.eqb s s' && (m =? m')%positive && (e =? e')
  | _, _ => false
  end.

(** [a == b] on numbers: by value, across [int] and [float]; NaN is equal
    to nothing. *)
Definition num_eqb (a b : pynum) : bool :=
  match num_value a, num_value b with
  | Some u, Some v => value_eqb u v
  | _, _ => false
  end.

(** Equality of two numbers as a set or a tuple decides it: the same
    object, or equal by [==].  The JSON decoder returns one and the same
    object for every [NaN] that it reads, so two NaNs of a reply are the
    same object, although NaN is not [==] to itself. *)
Definition num_same (a b : pynum) : bool :=
  match num_value a, num_value b with
  | Some u, Some v => value_eqb u v
  | None, None => true
  | _, _ => false
  end.

(** Truthiness of a number. *)
Definition num_truthy (a : pynum) : bool :=
  match a with
  | PyInt z => negb (z =? 0)
  | PyFloat f => negb (PrimFloat.eqb f 0%float)
  end.

End PyNum.

Export PyNum.

(** ** JSON values and the dynamic operations applied to them *)

Module Json.

#[warnings="-register-all"]
Inductive json : Type :=
| JNull
| JBool (b : bool)
| JNum (n : pynum)
| JStr (s : str)
| JArr (items : list json)
| JObj (fields : list (str * json)).

Fixpoint assoc (k : str) (d : list (str * json)) : option json :=
  match d with
  | [] => None
  | (k', v) :: d' => if PyStr.eqb k' k then Some v else assoc k d'
  end.

Definition is_str (k : str) (j : json) : bool :=
  match j with
  | JStr s => PyStr.eqb s k
  | _ => false
  end.

(** [k in data] for a string [k]. *)
Definition py_in (k : str) (data : json) : res bool :=
  match data with
  | JObj d => Ret (match assoc k d with Some _ => true | None => false end)
  | JArr l => Ret (existsb (is_str k) l)
  | JStr s => Ret (contains k s)
  | _ => Raise TypeError
  end.

(** [data[k]] for a string [k]. *)
Definition getitem (data : json) (k : str) : res json :=
  match data with
  | JObj d => match assoc k d with Some v => Ret v | None => Raise KeyError end
  | _ => Raise TypeError
  end.

(** [data.get(k)] *)
Definition get (data : json) (k : str) : res json :=
  match data with
  | JObj d => Ret (match assoc k d with Some v => v | None => JNull end)
  | _ => Raise AttributeError
  end.

(** [data.get(k, default)] *)
Definition get_default (data : json) (k : str) (default : json) : res json :=
  match data with
  | JObj d => Ret (match assoc k d with Some v => v | None => default end)
  | _ => Raise AttributeError
  end.

(** [data[0]] *)
Definition getitem0 (data : json) : res json :=
  match data with
  | JArr (x :: _) => Ret x
  | JArr [] => Raise IndexError
  | JStr (c :: _) => Ret (JStr [c])
  | JStr [] => Raise IndexError
  | JObj _ => Raise KeyError
  | _ => Raise TypeError
  end.

(** Truthiness: [if data]. *)
Definition truthy (data : json) : bool :=
  match data with
  | JNull => false
  | JBool b => b
  | JNum n => num_truthy n
  | JStr s => PyStr.truthy s
  | JArr l => match l with [] => false | _ :: _ => true end
  | JObj d => match d with [] => false | _ :: _ => true end
  end.

(** [isinstance(data, (int, float))]; [bool] is a subclass of [int]. *)
Definition is_int_or_float (data : json) : bool :=
  match data with
  | JNum _ | JBool _ => true
  | _ => false
  end.

(** [isinstance(data, int)] *)
Definition is_int (data : json) : bool :=
  match data with
  | JNum (PyInt _) | JBool _ => true
  | _ => false
  end.

(** [isinstance(data, list)] *)
Definition is_list (data : json) : bool :=
  match data with
  | JArr _ => true
  | _ => false
  end.

End Json.

Export Json.

(** ** The TTL cache (cachetools.TTLCache) *)

Module TTLCache.

Section Cache.

Variable V : Type.

Record link : Type := { l_key : str; l_value : V; l_expires : Z }.

(** [links] is the list of live links, oldest expiry first; [order] is
    the recency order of the keys, least recently used first. *)
Record t : Type := { links : list link; order : list str }.

Definition empty : t := {| links := []; order := [] |}.

Definition has_key (k : str) (l : link) : bool := PyStr.eqb (l_key l) k.

Definition find_link (k : str) (c : t) : option link :=
  find (has_key k) (links c).

Definition without (k : str) (ks : list str) : list str :=
  filter (fun k' => negb (PyStr.eqb k' k)) ks.

Definition expired (now : Z) (l : link) : bool := negb (now <? l_expires l).

Fixpoint drop_expired (now : Z) (ls : list link) : list link * list str :=
  match ls with
  | [] => ([], [])
  | l :: ls' =>
      if expired now l
      then let (rest, gone) := drop_expired now ls' in (rest, l_key l :: gone)
      else (ls, [])
  end.

(** [expire(time)]: the expired links at the head of the list go. *)
Definition expire (now : Z) (c : t) : t :=
  let (rest, gone) := drop_expired now (links c) in
  {| links := rest;
     order := filter (fun k => negb (existsb (PyStr.eqb k) gone)) (order c) |}.

(** [key in cache] *)
Definition contains (c : t) (now : Z) (k : str) : bool :=
  match find_link k c with
  | Some l => now <? l_expires l
  | None => false
  end.

(** [cache.get(key)]: the value of a live key, which becomes the most
    recently used one. *)
Definition get (c : t) (now : Z) (k : str) : option V * t :=
  match find_link k c with
  | Some l =>
      if now <? l_expires l
      then (Some (l_value l),
            {| links := links c; order := without k (order c) ++ [k] |})
      else (None, c)
  | None => (None, c)
  end.

Definition remove (k : str) (c : t) : t :=
  {| links := filter (fun l => negb (has_key k l)) (links c);
     order := without k (order c) |}.

(** [popitem()] as often as needed to make room for one more item. *)
Fixpoint make_room (fuel : nat) (maxsize : nat) (c : t) : t :=
  match fuel with
  | O => c
  | S fuel' =>
      if (maxsize <? List.length (links c) + 1)%nat then
        match order c with
        | [] => c
        | k :: _ => make_room fuel' maxsize (remove k c)
        end
      else c
  end.

(** [cache[key] = value] at time [now]. *)
Definition setitem (maxsize : nat) (ttl : Z) (c : t) (now : Z) (k : str) (v : V) : t :=
  let c1 := expire now c in
  let c2 := match find_link k c1 with
            | Some _ => c1
            | None => make_room (List.length (links c1)) maxsize c1
            end in
  let c3 := remove k c2 in
  {| links := links c3 ++ [{| l_key := k; l_value := v; l_expires := now + ttl |}];
     order := order c3 ++ [k] |}.

End Cache.

Arguments empty {V}.

End TTLCache.

(** ** The interpreter *)

(** What the source takes from the interpreter and differs between its
    versions: the tables of the Unicode database for the code points above
    127, the parser of [int] and the float additions of [sum]. *)
Record interpreter : Type := {
  (* the full lower-case and upper-case mappings of a code point *)
  lower_table : char -> list char;
  upper_table : char -> list char;
  (* a capital sigma with this text before and after it is in final
     position *)
  final_sigma : str -> str -> bool;
  (* [str.isalnum] of a code point *)
  alnum_table : char -> bool;
  (* [int(s)]; [None] stands for [ValueError] *)
  int_of_str : str -> option Z;
  (* the additions of [sum] from the first float on *)
  float_sum : list Z -> float -> list pynum -> res pynum
}.

(** ** Data of the application *)

(** One entry of a geocoding reply, as the search handler reads it: a field
    is [None] when the key is missing or [null]. *)
Record raw_loc : Type := {
  r_name : option str;
  r_country : option str;
  r_lat : option pynum;
  r_lon : option pynum;
  r_state : option str
}.

(** One search result. *)
Record place : Type := {
  p_name : str;
  p_country : str;
  p_lat : option pynum;
  p_lon : option pynum;
  p_state : option str
}.

(** The de-duplication key [(name.lower(), country_code, lat, lon)]. *)
Definition dedup_key : Type := (str * str * option pynum * option pynum)%type.

Definition coord_eqb (a b : option pynum) : bool :=
  match a, b with
  | None, None => true
  | Some x, Some y => num_same x y
  | _, _ => false
  end.

(** Equality of two keys, as the [seen] set decides it. *)
Definition key_eqb (a b : dedup_key) : bool :=
  let '(n1, c1, la1, lo1) := a in
  let '(n2, c2, la2, lo2) := b in
  PyStr.eqb n1 n2 && PyStr.eqb c1 c2 && coord_eqb la1 la2 && coord_eqb lo1 lo2.

(** One three-hour sample of a forecast reply. *)
Record sample : Type := {
  s_dt : Z;
  s_temp : pynum;
  s_description : str;
  s_icon : str
}.

(** The per-date accumulator of [daily_data]. *)
Record day_info : Type := {
  temps : list pynum;
  descriptions : list str;
  icons : list str
}.

Record forecast_day : Type := {
  fd_date : str;
  fd_temp : pynum;
  fd_description : str;
  fd_icon : str
}.

Record forecast_doc : Type := {
  f_city : json;
  f_country : str;
  f_forecast : list forecast_day
}.

Record weather_doc : Type := {
  w_city : json;
  w_country : str;
  w_temp : json;
  w_feels_like : json;
  w_weather : json;
  w_description : json;
  w_humidity : json;
  w_wind_speed : json;
  w_icon : json;
  w_lat : json;
  w_lon : json
}.

Inductive error_kind : Type :=
| LocationRequired
| InvalidLocationFormat
| InvalidAfterNormalization
| LocationNotFound
| InvalidApiKey
| RateLimitExceeded
| WeatherServiceError
| InvalidWeatherData
| GeocodingApiError
| NetworkError
| UnexpectedError
| TooManyRequests.

Inductive body : Type :=
| Places (l : list place)
| Weather (doc : weather_doc)
| Error (k : error_kind)
| Uncaught (e : exn).

Record response : Type := { status : Z; payload : body }.

(** An outbound call. *)
Inductive outbound : Type :=
| GeoSearch (q : str)
| GeoLookup (q : str)
| CurrentWeather (lat lon : json).

(** What a provider answers, and how long the call took. *)
Record answer (A : Type) : Type := { elapsed : N; outcome : res A }.

(** The process state shared by the requests: the timer, the two caches
    and the log of outbound calls. *)
Record world : Type := {
  clock : Z;
  search_cache : TTLCache.t (list place);
  forecast_cache : TTLCache.t forecast_doc;
  sent : list outbound
}.

Definition initial_world : world :=
  {| clock := 0; search_cache := TTLCache.empty;
     forecast_cache := TTLCache.empty; sent := [] |}.

(** Time passes between two requests. *)
Definition advance (d : Z) (w : world) : world :=
  {| clock := clock w + d; search_cache := search_cache w;
     forecast_cache := forecast_cache w; sent := sent w |}.

Definition FALLBACK_CITIES : list (str * str) :=
  [ (lit "AL", lit "Tirana");
    (lit "EE", lit "Tallinn");
    (lit "US", lit "New York");
    (lit "AS", lit "Pago Pago");
    (lit "BZ", lit "Belize City");
    (lit "BS", lit "Nassau") ].

Fixpoint lookup_city (c : str) (table : list (str * str)) : option str :=
  match table with
  | [] => None
  | (k, v) :: table' => if PyStr.eqb k c then Some v else lookup_city c table'
  end.

(** [l[start:stop]] *)
Definition py_slice {A : Type} (l : list A) (start stop : Z) : list A :=
  let n := Z.of_nat (List.length l) in
  let clamp i := if i <? 0 then Z.max (i + n) 0 else Z.min i n in
  let a := clamp start in
  let b := clamp stop in
  firstn (Z.to_nat (b - a)) (skipn (Z.to_nat a) l).

(** [results.sort(key=lambda x: x['name'])]: the sort is stable, so its
    result is the one of a stable insertion sort. *)
Fixpoint insert_by_name (x : place) (l : list place) : list place :=
  match l with
  | [] => [x]
  | y :: l' =>
      if PyStr.ltb (p_name y) (p_name x) then y :: insert_by_name x l'
      else x :: l
  end.

Fixpoint sort_by_name (l : list place) : list place :=
  match l with
  | [] => []
  | x :: l' => insert_by_name x (sort_by_name l')
  end.

(** [l.count(x)] *)
Definition count (x : str) (l : list str) : nat :=
  List.length (filter (PyStr.eqb x) l).

(** [max(l, key=key)]: the first of the items with the largest key. *)
Fixpoint py_max_from (key : str -> nat) (best : str) (l : list str) : str :=
  match l with
  | [] => best
  | x :: l' => py_max_from key (if (key best <? key x)%nat then x else best) l'
  end.

Definition py_max (key : str -> nat) (l : list str) : res str :=
  match l with
  | [] => Raise ValueError
  | x :: l' => Ret (py_max_from key x l')
  end.

Fixpoint map_res {A B : Type} (f : A -> res B) (l : list A) : res (list B) :=
  match l with
  | [] => Ret []
  | x :: l' =>
      bind (f x) (fun y => bind (map_res f l') (fun ys => Ret (y :: ys)))
  end.

Definition dict_has {V : Type} (k : str) (d : list (str * V)) : bool :=
  existsb (fun kv => PyStr.eqb (fst kv) k) d.

Fixpoint dict_update {V : Type} (k : str) (f : V -> V) (d : list (str * V)) : list (str * V) :=
  match d with
  | [] => []
  | (k', v) :: d' =>
      if PyStr.eqb k' k then (k', f v) :: d' else (k', v) :: dict_update k f d'
  end.

(** ** Vocabulary of the properties *)

(** No character of the string is whitespace. *)
Definition no_space (s : str) : Prop :=
  Forall (fun c => isspace c = false) s.

(** The string neither starts nor ends with a hyphen. *)
Definition no_edge_hyphen (s : str) : Prop :=
  (forall rest, s <> ch "-" :: rest) /\ (forall pre, s <> pre ++ [ch "-"]).

(** No key of the list is equal to an earlier one. *)
Definition distinct_keys (ks : list dedup_key) : Prop :=
  ForallOrdPairs (fun earlier later => key_eqb later earlier = false) ks.

(** [a] does not come after [b] in name order. *)
Definition name_le (a b : place) : Prop :=
  PyStr.ltb (p_name b) (p_name a) = false.

(** The exceptions that reading a JSON value can raise. *)
Definition data_error (e : exn) : Prop :=
  match e with
  | HTTPError _ | RequestException => False
  | _ => True
  end.

(** A current-weather payload for the examples, and the same payload
    without its [wind] section, with a textual temperature, with a
    fractional humidity, and with an empty condition list. *)
Definition demo_weather_fields (temp humidity : json) (conditions : list json)
  : list (str * json) :=
  [ (lit "name", JStr (lit "Tallinn"));
    (lit "sys", JObj [(lit "country", JStr (lit "EE"))]);
    (lit "main", JObj [(lit "temp", temp);
                       (lit "feels_like", JNum (PyFloat 3.5%float));
                       (lit "humidity", humidity)]);
    (lit "weather", JArr conditions);
    (lit "coord", JObj [(lit "lat", JNum (PyFloat 59.5%float));
                        (lit "lon", JNum (PyFloat 24.75%float))]) ].

Definition demo_condition : json :=
  JObj [(lit "main", JStr (lit "Clouds"));
        (lit "description", JStr (lit "broken clouds"));
        (lit "icon", JStr (lit "04d"))].

Definition demo_wind : str * json :=
  (lit "wind", JObj [(lit "speed", JNum (PyFloat 4.25%float))]).

Definition demo_weather : json :=
  JObj (demo_wind :: demo_weather_fields (JNum (PyFloat 5.5%float)) (JNum (PyInt 81))
                       [demo_condition]).

Definition demo_weather_no_wind : json :=
  JObj (demo_weather_fields (JNum (PyFloat 5.5%float)) (JNum (PyInt 81)) [demo_condition]).

Definition demo_weather_text_temp : json :=
  JObj (demo_wind :: demo_weather_fields (JStr (lit "5.5")) (JNum (PyInt 81))
                       [demo_condition]).

Definition demo_weather_fractional_humidity : json :=
  JObj (demo_wind :: demo_weather_fields (JNum (PyFloat 5.5%float))
                       (JNum (PyFloat 80.5%float)) [demo_condition]).

Definition demo_weather_no_conditions : json :=
  JObj (demo_wind :: demo_weather_fields (JNum (PyFloat 5.5%float)) (JNum (PyInt 81)) []).

(** The accumulator that a list of samples fills. *)
Definition info_of (l : list sample) : day_info :=
  {| temps := map s_temp l;
     descriptions := map s_description l;
     icons := map s_icon l |}.

(** [best] is the first item of the scan [order] whose count in [l] is the
    largest one: the items before it have a smaller count, the items after
    it have no larger count. *)
Definition first_largest_in (order l : list str) (best : str) : Prop :=
  exists before after,
    order = before ++ best :: after
    /\ (forall x, In x before -> (count x l < count best l)%nat)
    /\ (forall x, In x after -> (count x l <= count best l)%nat).

(** [best] has the largest count in [l] and, among the values with that
    count, it is the one that occurs first in [l]. *)
Definition first_seen_most_common (l : list str) (best : str) : Prop :=
  exists before after,
    l = before ++ best :: after
    /\ ~ In best before
    /\ (forall x, In x before -> (count x l < count best l)%nat)
    /\ (forall x, In x after -> (count x l <= count best l)%nat).

(** An iteration order of sets for the examples: the distinct values, the
    one that was added last first. *)
Definition newest_first (l : list str) : list str :=
  rev (nodup (list_eq_dec N.eq_dec) l).

(** A time zone for the examples: UTC, for the first days of 1970. *)
Definition demo_date_of (t : Z) : str :=
  lit "1970-01-" ++ (if t / 86400 + 1 <? 10 then lit "0" else []) ++ of_Z (t / 86400 + 1).

(** Replies of the geocoding provider for the examples: two entries for
    Tartu that differ in their region label only, 250 places with different
    names, a place that is unknown, and a provider that is down. *)
Definition demo_entry (n : str) (region : option str) : raw_loc :=
  {| r_name := Some n; r_country := Some (lit "EE");
     r_lat := Some (PyFloat 58.375%float); r_lon := Some (PyFloat 26.75%float);
     r_state := region |}.

Definition demo_tartu : place :=
  {| p_name := lit "Tartu"; p_country := lit "EE";
     p_lat := Some (PyFloat 58.375%float); p_lon := Some (PyFloat 26.75%float);
     p_state := Some (lit "Tartu County") |}.

Definition demo_tartu_key : dedup_key :=
  (lit "tartu", lit "EE", Some (PyFloat 58.375%float), Some (PyFloat 26.75%float)).

Definition demo_many : list raw_loc :=
  map (fun i => demo_entry (lit "Place " ++ of_Z (Z.of_nat i)) None) (seq 0 250).

Definition demo_geo_search (i : nat) (q : str) : answer (list raw_loc) :=
  {| elapsed := 1;
     outcome :=
       if PyStr.eqb q (lit "tartu,,EE")
       then Ret [demo_entry (lit "Tartu") (Some (lit "Tartu County"));
                 demo_entry (lit "Tartu") (Some (lit "Tartumaa"))]
       else if PyStr.eqb q (lit "place")
       then Ret demo_many
       else if PyStr.eqb q (lit "down")
       then Raise RequestException
       else Ret [] |}.

(** Replies of the two providers to the weather handler for the examples:
    one candidate for Tallinn, and a payload without its [wind] section. *)
Definition demo_candidates : json :=
  JArr [JObj [(lit "name", JStr (lit "Tallinn"));
              (lit "lat", JNum (PyFloat 59.5%float));
              (lit "lon", JNum (PyFloat 24.75%float));
              (lit "country", JStr (lit "EE"))]].

Definition demo_geo_lookup (i : nat) (q : str) : answer json :=
  {| elapsed := 1; outcome := Ret demo_candidates |}.

Definition demo_weather_api (i : nat) (la lo : json) : answer json :=
  {| elapsed := 1; outcome := Ret demo_weather_no_wind |}.

(** Eight three-hour samples of one day, and two samples of one day with
    different descriptions. *)
Definition demo_sample (i : Z) (t : Z) (descr ic : str) : sample :=
  {| s_dt := i * 10800; s_temp := PyInt t; s_description := descr; s_icon := ic |}.

Definition demo_day : list sample :=
  [ demo_sample 0 10 (lit "clear sky") (lit "01n");
    demo_sample 1 12 (lit "clear sky") (lit "01n");
    demo_sample 2 14 (lit "few clouds") (lit "02d");
    demo_sample 3 16 (lit "clear sky") (lit "01d");
    demo_sample 4 12 (lit "clear sky") (lit "01d");
    demo_sample 5 10 (lit "few clouds") (lit "02d");
    demo_sample 6 14 (lit "clear sky") (lit "01d");
    demo_sample 7 12 (lit "few clouds") (lit "02n") ].

Definition demo_tie : list sample :=
  [ demo_sample 0 10 (lit "clear sky") (lit "01d");
    demo_sample 1 12 (lit "light rain") (lit "10d") ].

(** A small country reference for the examples. *)
Definition demo_countries : list (str * str) :=
  [ (lit "EE", lit "Estonia"); (lit "FI", lit "Finland");
    (lit "US", lit "United States"); (lit "DE", lit "Germany") ].

Definition demo_countries_get (c : str) : option str :=
  lookup_city (ascii_upper c) demo_countries.

Definition demo_search_fuzzy (c : str) : option str :=
  if PyStr.eqb (ascii_lower c) (lit "estonia") then Some (lit "EE")
  else if PyStr.eqb (ascii_lower c) (lit "finland") then Some (lit "FI")
  else None.

(** An interpreter for the examples: it knows the ASCII letters and digits
    only, reads a decimal numeral with an optional sign, and adds floats as
    CPython 3.11 does. *)
Fixpoint digits_value (acc : Z) (s : str) : option Z :=
  match s with
  | [] => Some acc
  | c :: s' =>
      if isdigit c then digits_value (10 * acc + Z.of_N (c - 48)) s' else None
  end.

Definition demo_int_of_str (s : str) : option Z :=
  match s with
  | [] => None
  | c :: s' =>
      if (c =? ch "-")%N
      then match s' with
           | [] => None
           | _ :: _ => option_map Z.opp (digits_value 0 s')
           end
      else digits_value 0 s
  end.

Definition demo_py : interpreter :=
  {| lower_table := fun c => [c];
     upper_table := fun c => [c];
     final_sigma := fun _ _ => false;
     alnum_table := fun _ => false;
     int_of_str := demo_int_of_str;
     float_sum := plain_float_sum |}.

(** ** The handlers *)

Section App.

Set Default Proof Using "Type".

(** The interpreter that runs the application. *)
Variable py : interpreter.

(** [\w]: the characters for which [str.isalnum] holds, and the
    underscore. *)
Definition isword (c : char) : bool :=
  if is_ascii c then ascii_isalnum c || (c =? ch "_")%N else alnum_table py c.

(** The upper-case mapping of a character, and [s.upper()]. *)
Definition to_upper (c : char) : list char :=
  if is_ascii c then [ascii_to_upper c] else upper_table py c.

Definition upper (s : str) : str := flat_map to_upper s.

(** The lower-case mapping of a character other than the capital sigma,
    and [s.lower()]: the capital sigma (U+03A3) becomes the final small
    sigma (U+03C2) or the small sigma (U+03C3), by the text around it. *)
Definition to_lower (c : char) : list char :=
  if is_ascii c then [ascii_to_lower c] else lower_table py c.

Fixpoint lower_from (before s : str) : str :=
  match s with
  | [] => []
  | c :: after =>
      (if (c =? 931)%N
       then [if final_sigma py before after then 962%N else 963%N]
       else to_lower c)
      ++ lower_from (before ++ [c]) after
  end.

Definition lower (s : str) : str := lower_from [] s.

(** [int(request.args.get('page', 1))] *)
Definition parse_page (page_arg : option str) : res Z :=
  match page_arg with
  | None => Ret 1
  | Some s =>
      match int_of_str py s with
      | Some page => Ret page
      | None => Raise ValueError
      end
  end.

(** [pycountry.countries.get(alpha_2=c)]: the name of the country found. *)
Variable countries_get : str -> option str.

(** [pycountry.countries.search_fuzzy(c)[0].alpha_2]; [None] stands for
    [LookupError]. *)
Variable search_fuzzy : str -> option str.

(** [datetime.fromtimestamp(dt).strftime('%Y-%m-%d')] in the server's time
    zone. *)
Variable date_of : Z -> str.

(** The order in which [set(l)] is iterated. *)
Variable set_iter : list str -> list str.

(** The geocoding provider as the search handler sees it, the geocoding
    provider as the weather handler sees it, and the weather provider.  The
    first argument is the number of outbound calls made before this one. *)
Variable geo_search : nat -> str -> answer (list raw_loc).
Variable geo_lookup : nat -> str -> answer json.
Variable weather_api : nat -> json -> json -> answer json.

Definition validate_country (country : str) : bool :=
  PyStr.truthy country
  && match countries_get country with Some _ => true | None => false end.

Definition get_country_name (country_code : json) : res str :=
  match country_code with
  | JStr c =>
      if PyStr.eqb c (lit "XX") then Ret (lit "Unknown")
      else match countries_get c with
           | Some n => Ret n
           | None => Ret c
           end
  | _ => Raise LookupError
  end.

(** All of [required_fields] are [in data]; the scan stops at the first
    one that is not. *)
Fixpoint all_in (fields : list str) (data : json) : res bool :=
  match fields with
  | [] => Ret true
  | f :: fields' =>
      bind (py_in f data) (fun b => if b then all_in fields' data else Ret false)
  end.

(** [data[section].get(key)] *)
Definition section_get (data : json) (section key : str) : res json :=
  bind (getitem data section) (fun s => get s key).

Definition validate_weather_data (data : json) : res bool :=
  (ok <- all_in [lit "name"; lit "sys"; lit "main"; lit "weather"; lit "wind"; lit "coord"] data ;;
   if negb ok then Ret false else
   t <- section_get data (lit "main") (lit "temp") ;;
   if negb (is_int_or_float t) then Ret false else
   fl <- section_get data (lit "main") (lit "feels_like") ;;
   if negb (is_int_or_float fl) then Ret false else
   h <- section_get data (lit "main") (lit "humidity") ;;
   if negb (is_int h) then Ret false else
   sp <- section_get data (lit "wind") (lit "speed") ;;
   if negb (is_int_or_float sp) then Ret false else
   la <- section_get data (lit "coord") (lit "lat") ;;
   if negb (is_int_or_float la) then Ret false else
   lo <- section_get data (lit "coord") (lit "lon") ;;
   if negb (is_int_or_float lo) then Ret false else
   wl <- getitem data (lit "weather") ;;
   if negb (Json.truthy wl) then Ret false else
   if negb (is_list wl) then Ret false else
   w0 <- getitem0 wl ;;
   d <- get w0 (lit "description") ;;
   if negb (Json.truthy d) then Ret false else
   Ret true)%res.

(** The city part of [normalize_location], after the split. *)
Definition normalize_city (city : str) : str :=
  let city := strip city in
  let city := strip (sub_linn isword false city) in
  let city := strip (sub_runs isspace (ch " ") false city) in
  let city := replace_char (ch " ") (ch "-") city in
  strip_char (ch "-") (sub_runs (N.eqb (ch "-")) (ch "-") false city).

Definition normalize_location (location : str) : option str :=
  if negb (PyStr.truthy location) then None else
  match split (ch ",") location with
  | [city; country_code] =>
      let country_code := upper (strip country_code) in
      let city := normalize_city city in
      if negb (validate_country country_code) then None
      else if negb (PyStr.truthy city) || (List.length city <? 2)%nat then None
      else Some (city ++ lit "," ++ country_code)
  | _ => None
  end.

Definition validate_location (location : str) : bool :=
  if negb (PyStr.truthy location) then false
  else if contains (lit "unknown city") (lower location) then false
  else if negb (match_city_code false location) then false
  else match split (ch ",") location with
       | [city; country_code] =>
           let city := strip city in
           let country_code := strip country_code in
           if (List.length city <? 2)%nat then false
           else if negb (validate_country country_code) then false
           else true
       | _ => false
       end.

(** *** Search *)

Definition key_of (n code : str) (loc : raw_loc) : dedup_key :=
  (lower n, code, r_lat loc, r_lon loc).

Definition seen_has (key : dedup_key) (seen : list dedup_key) : bool :=
  existsb (key_eqb key) seen.

(** The de-duplication key of an emitted result. *)
Definition place_key (p : place) : dedup_key :=
  (lower (p_name p), p_country p, p_lat p, p_lon p).

(** The country code of an entry: a code longer than two characters goes
    through the fuzzy lookup. *)
Definition resolve_country (c : str) : option str :=
  if (2 <? List.length c)%nat then search_fuzzy c else Some c.

(** The [result] dictionary of an entry; the region label is kept when
    it is present and not empty. *)
Definition make_result (n code : str) (loc : raw_loc) : place :=
  {| p_name := n; p_country := code;
     p_lat := r_lat loc; p_lon := r_lon loc;
     p_state := match r_state loc with
                | Some st => if PyStr.truthy st then Some st else None
                | None => None
                end |}.

(** One round of the loop over the geocoding entries. *)
Definition visit (acc : list dedup_key * list place) (loc : raw_loc)
  : list dedup_key * list place :=
  let (seen, results) := acc in
  match r_name loc, r_country loc with
  | Some n, Some c =>
      if negb (PyStr.truthy n) || negb (PyStr.truthy c) then acc else
      match resolve_country c with
      | None => acc
      | Some code =>
          let key := key_of n code loc in
          if seen_has key seen then acc
          else (seen ++ [key], results ++ [make_result n code loc])
      end
  | _, _ => acc
  end.

Definition collect (acc : list dedup_key * list place) (data : list raw_loc)
  : list dedup_key * list place :=
  fold_left visit data acc.

Definition ok_places (l : list place) : response :=
  {| status := 200; payload := Places l |}.

Definition failure (code : Z) (k : error_kind) : response :=
  {| status := code; payload := Error k |}.

(** An exception that no handler catches: the framework answers 500. *)
Definition uncaught (e : exn) : response :=
  {| status := 500; payload := Uncaught e |}.

Definition send_search (w : world) (q : str) : res (list raw_loc) * world :=
  let a := geo_search (List.length (sent w)) q in
  (outcome a,
   {| clock := clock w + Z.of_N (elapsed a); search_cache := search_cache w;
      forecast_cache := forecast_cache w; sent := sent w ++ [GeoSearch q] |}).

(** [search_cache[cache_key] = value] *)
Definition store_search (w : world) (cache_key : str) (value : list place) : world :=
  {| clock := clock w;
     search_cache := TTLCache.setitem 1000 3600 (search_cache w) (clock w) cache_key value;
     forecast_cache := forecast_cache w; sent := sent w |}.

(** [params['q']]; [None] when there is neither a query nor a country. *)
Definition provider_query (query country : str) : option str :=
  if PyStr.truthy query && PyStr.truthy country then Some (query ++ lit ",," ++ country)
  else if PyStr.truthy query then Some query
  else if PyStr.truthy country then Some (lit ",," ++ country)
  else None.

(** The fallback city of a country-only search. *)
Definition fallback_for (query country : str) : option str :=
  if negb (PyStr.truthy query) then lookup_city country FALLBACK_CITIES else None.

Definition is_empty {A : Type} (l : list A) : bool :=
  match l with [] => true | _ :: _ => false end.

(** The body of the [try] block of [search_locations]. *)
Definition search_try (w : world) (query country : str) (page : Z) (cache_key q : str)
  : res response * world :=
  let (r, w1) := send_search w q in
  match r with
  | Raise e => (Raise e, w1)
  | Ret data =>
      let (seen, results) := collect ([], []) data in
      let results := sort_by_name results in
      let start := (page - 1) * 100 in
      let paginated_results := py_slice results start (start + 100) in
      let finish w' page_results :=
        let page_results := sort_by_name page_results in
        (Ret (ok_places page_results), store_search w' cache_key page_results) in
      match (if is_empty paginated_results then fallback_for query country else None) with
      | Some city =>
          let (r2, w2) := send_search w1 (city ++ lit ",," ++ country) in
          match r2 with
          | Raise e => (Raise e, w2)
          | Ret data2 =>
              finish w2 (snd (collect (seen, paginated_results) data2))
          end
      | None => finish w1 paginated_results
      end
  end.

(** The handler of a 404 from the geocoding provider. *)
Definition search_not_found (w : world) (query country cache_key : str)
  : response * world :=
  match fallback_for query country with
  | Some city =>
      let (r, w1) := send_search w (city ++ lit ",," ++ country) in
      match r with
      | Ret data =>
          let results := sort_by_name (snd (collect ([], []) data)) in
          (ok_places results, store_search w1 cache_key results)
      | Raise (HTTPError _) => (ok_places [], w1)
      | Raise e => (uncaught e, w1)
      end
  | None => (ok_places [], w)
  end.

Definition search_cache_key (query country : str) (page : Z) : str :=
  query ++ lit "|" ++ country ++ lit "|" ++ of_Z page.

(** [search_locations] from its fourth line on, [page] being the page
    that was read. *)
Definition search_page (w : world) (q_arg country_arg : str) (page : Z)
  : response * world :=
  let query := lower (strip q_arg) in
  let country := upper (strip country_arg) in
  if negb (validate_country country) && PyStr.truthy country then (ok_places [], w) else
  let cache_key := search_cache_key query country page in
  let (cached_result, sc) := TTLCache.get (search_cache w) (clock w) cache_key in
  let w0 := {| clock := clock w; search_cache := sc;
               forecast_cache := forecast_cache w; sent := sent w |} in
  match cached_result with
  | Some (p :: ps) => (ok_places (p :: ps), w0)
  | _ =>
      match provider_query query country with
      | None => (ok_places [], w0)
      | Some q =>
          match search_try w0 query country page cache_key q with
          | (Ret resp, w1) => (resp, w1)
          | (Raise (HTTPError code), w1) =>
              if code =? 404 then search_not_found w1 query country cache_key
              else (failure 500 GeocodingApiError, w1)
          | (Raise RequestException, w1) => (failure 500 NetworkError, w1)
          | (Raise _, w1) => (failure 500 UnexpectedError, w1)
          end
      end
  end.

(** The handler: [q_arg] and [country_arg] are the arguments [q] and
    [country] of the request (empty when they are missing), [page_arg] is
    its argument [page].  A page that [int] does not read is a
    [ValueError] outside the [try] block. *)
Definition search_locations (w : world) (q_arg country_arg : str)
    (page_arg : option str) : response * world :=
  match parse_page page_arg with
  | Ret page => search_page w q_arg country_arg page
  | Raise e => (uncaught e, w)
  end.

(** [@limiter.limit("30 per minute")]: a request that the limiter does not
    admit is answered 429 and the handler does not run.  [admitted] is
    the decision of the limiter; it is [true] for every request when
    flask-limiter is not installed. *)
Definition too_many_requests : response :=
  {| status := 429; payload := Error TooManyRequests |}.

Definition search_route (admitted : bool) (w : world) (q_arg country_arg : str)
    (page_arg : option str) : response * world :=
  if admitted then search_locations w q_arg country_arg page_arg
  else (too_many_requests, w).

(** *** Forecast aggregation *)

Definition empty_day : day_info :=
  {| temps := []; descriptions := []; icons := [] |}.

(** One round of the loop over [data['list']]. *)
Definition add_sample (daily_data : list (str * day_info)) (entry : sample)
  : list (str * day_info) :=
  let date := date_of (s_dt entry) in
  let daily_data :=
    if dict_has date daily_data then daily_data
    else daily_data ++ [(date, empty_day)] in
  dict_update date
    (fun info => {| temps := temps info ++ [s_temp entry];
                    descriptions := descriptions info ++ [s_description entry];
                    icons := icons info ++ [s_icon entry] |})
    daily_data.

Definition group_by_date (samples : list sample) : list (str * day_info) :=
  fold_left add_sample samples [].

(** [max(set(l), key=l.count)] *)
Definition most_common (l : list str) : res str :=
  py_max (fun x => count x l) (set_iter l).

(** One round of the loop over [daily_data.items()]. *)
Definition summarize (item : str * day_info) : res forecast_day :=
  let (date, info) := item in
  (total <- py_sum (float_sum py) (temps info) ;;
   avg_temp <- py_truediv total (Z.of_nat (List.length (temps info))) ;;
   most_common_desc <- most_common (descriptions info) ;;
   most_common_icon <- most_common (icons info) ;;
   Ret {| fd_date := date;
          fd_temp := py_round1 (PyFloat avg_temp);
          fd_description := most_common_desc;
          fd_icon := most_common_icon |})%res.

(** [formatted['forecast']] for the samples of [data['list']]. *)
Definition forecast_days (samples : list sample) : res (list forecast_day) :=
  map_res summarize (group_by_date samples).

(** *** Current weather *)

Definition send_lookup (w : world) (q : str) : res json * world :=
  let a := geo_lookup (List.length (sent w)) q in
  (outcome a,
   {| clock := clock w + Z.of_N (elapsed a); search_cache := search_cache w;
      forecast_cache := forecast_cache w; sent := sent w ++ [GeoLookup q] |}).

Definition send_weather (w : world) (la lo : json) : res json * world :=
  let a := weather_api (List.length (sent w)) la lo in
  (outcome a,
   {| clock := clock w + Z.of_N (elapsed a); search_cache := search_cache w;
      forecast_cache := forecast_cache w; sent := sent w ++ [CurrentWeather la lo] |}).

(** What the handler reads from [geo_data[0]]. *)
Definition first_candidate (geo_data : json) : res (json * json * json * json) :=
  (g <- getitem0 geo_data ;;
   la <- getitem g (lit "lat") ;;
   g <- getitem0 geo_data ;;
   lo <- getitem g (lit "lon") ;;
   g <- getitem0 geo_data ;;
   city <- getitem g (lit "name") ;;
   g <- getitem0 geo_data ;;
   country_code <- get_default g (lit "country") (JStr (lit "XX")) ;;
   Ret (la, lo, city, country_code))%res.

(** From the weather payload to the response. *)
Definition format_weather (city country_code data : json) : res response :=
  (valid <- validate_weather_data data ;;
   if negb valid then Ret (failure 500 InvalidWeatherData) else
   cname <- get_country_name country_code ;;
   main <- getitem data (lit "main") ;;
   t <- getitem main (lit "temp") ;;
   fl <- getitem main (lit "feels_like") ;;
   wl <- getitem data (lit "weather") ;;
   w0 <- getitem0 wl ;;
   wmain <- getitem w0 (lit "main") ;;
   descr <- getitem w0 (lit "description") ;;
   h <- getitem main (lit "humidity") ;;
   wind <- getitem data (lit "wind") ;;
   sp <- getitem wind (lit "speed") ;;
   ic <- getitem w0 (lit "icon") ;;
   coord <- getitem data (lit "coord") ;;
   la <- getitem coord (lit "lat") ;;
   lo <- getitem coord (lit "lon") ;;
   Ret {| status := 200;
          payload := Weather {| w_city := city; w_country := cname; w_temp := t;
                                w_feels_like := fl; w_weather := wmain;
                                w_description := descr; w_humidity := h;
                                w_wind_speed := sp; w_icon := ic;
                                w_lat := la; w_lon := lo |} |})%res.

(** The body of the [try] block of [get_weather]. *)
Definition weather_try (w : world) (normalized_location : str) : res response * world :=
  let (r1, w1) := send_lookup w normalized_location in
  match r1 with
  | Raise e => (Raise e, w1)
  | Ret geo_data =>
      if negb (Json.truthy geo_data) then (Ret (failure 404 LocationNotFound), w1) else
      match first_candidate geo_data with
      | Raise e => (Raise e, w1)
      | Ret (la, lo, city, country_code) =>
          let (r2, w2) := send_weather w1 la lo in
          match r2 with
          | Raise e => (Raise e, w2)
          | Ret data => (format_weather city country_code data, w2)
          end
      end
  end.

(** The [except] clauses of [get_weather]. *)
Definition weather_except (e : exn) : response :=
  match e with
  | HTTPError code =>
      if code =? 401 then failure 401 InvalidApiKey
      else if code =? 429 then failure 429 RateLimitExceeded
      else if code =? 404 then failure 404 LocationNotFound
      else failure 500 WeatherServiceError
  | RequestException => failure 500 NetworkError
  | _ => failure 500 UnexpectedError
  end.

Definition get_weather (w : world) (location : option str) : response * world :=
  match location with
  | None => (failure 400 LocationRequired, w)
  | Some location =>
      if negb (PyStr.truthy location) then (failure 400 LocationRequired, w)
      else if negb (validate_location location) then (failure 400 InvalidLocationFormat, w)
      else match normalize_location location with
           | None => (failure 400 InvalidAfterNormalization, w)
           | Some normalized_location =>
               match weather_try w normalized_location with
               | (Ret resp, w1) => (resp, w1)
               | (Raise e, w1) => (weather_except e, w1)
               end
           end
  end.

Definition weather_route (admitted : bool) (w : world) (location : option str)
  : response * world :=
  if admitted then get_weather w location else (too_many_requests, w).

(** *** Vocabulary of the handler properties *)

(** The key under which an entry is looked up in [seen]; [None] for the
    entries that the loop skips before it builds a key. *)
Definition entry_key (loc : raw_loc) : option dedup_key :=
  match r_name loc, r_country loc with
  | Some n, Some c =>
      if negb (PyStr.truthy n) || negb (PyStr.truthy c) then None else
      match resolve_country c with
      | None => None
      | Some code => Some (key_of n code loc)
      end
  | _, _ => None
  end.

(** A cached value that the hit test of the search handler takes for a
    miss: nothing, or the empty list. *)
Definition falsy (o : option (list place)) : Prop :=
  o = None \/ o = Some [].

(** What a search that went upstream leaves behind, [c0] being the search
    cache before the upstream call: either the answered list was stored
    under the key, or the cache is as it was and the answer is not a
    non-empty list. *)
Definition stored_or_kept (cache_key : str) (c0 : TTLCache.t (list place))
    (resp : response) (w1 : world) : Prop :=
  (exists w' l, w1 = store_search w' cache_key l /\ resp = ok_places l
                /\ search_cache w' = c0)
  \/ (search_cache w1 = c0 /\ forall p ps, resp <> ok_places (p :: ps)).


(** The samples of a date. *)
Definition on_date (d : str) (samples : list sample) : list sample :=
  filter (fun s => PyStr.eqb (date_of (s_dt s)) d) samples.

(** [set_iter] enumerates the distinct values of its argument. *)
Definition set_iter_ok : Prop :=
  forall l, NoDup (set_iter l) /\ (forall x, In x (set_iter l) <-> In x l).

(** The sentence of the specification on ties, as it is written: the
    description and the icon of every emitted day are the most frequent ones
    of its date and, among those, the ones that occur first in the
    samples. *)
Definition first_seen_wins : Prop :=
  forall (samples : list sample) (days : list forecast_day),
    forecast_days samples = Ret days ->
    forall fd, In fd days ->
      first_seen_most_common
        (map s_description (on_date (fd_date fd) samples)) (fd_description fd)
      /\ first_seen_most_common
           (map s_icon (on_date (fd_date fd) samples)) (fd_icon fd).

(** *** Country names *)

(** [get_country_code]: the code of the best fuzzy match, or [XX]. *)
Definition get_country_code (country_name : str) : str :=
  match search_fuzzy country_name with
  | Some code => code
  | None => lit "XX"
  end.

(** *** The forecast handler *)

(** The forecast endpoint of the weather provider, as the forecast handler
    sees it: the samples of [data['list']], [None] when the payload has no
    [list], or the exception of a failed request or of a payload whose
    entries cannot be read. *)
Variable forecast_api : nat -> json -> json -> answer (option (list sample)).

Inductive forecast_body : Type :=
| Forecast (doc : forecast_doc)
| ForecastError (k : error_kind)
| InvalidForecastData.

Record forecast_response : Type := { f_status : Z; f_payload : forecast_body }.

Definition forecast_failure (code : Z) (k : error_kind) : forecast_response :=
  {| f_status := code; f_payload := ForecastError k |}.

Definition forecast_cache_key (normalized_location : str) : str :=
  lit "forecast_" ++ normalized_location.

(** [forecast_cache[cache_key] = formatted] *)
Definition store_forecast (w : world) (cache_key : str) (formatted : forecast_doc) : world :=
  {| clock := clock w; search_cache := search_cache w;
     forecast_cache := TTLCache.setitem 500 3600 (forecast_cache w) (clock w)
                         cache_key formatted;
     sent := sent w |}.

(** The call to the forecast endpoint.  It is not a geocoding or
    current-weather call; the handler reports it beside the world. *)
Definition send_forecast (w : world) (la lo : json)
  : res (option (list sample)) * world :=
  let a := forecast_api (List.length (sent w)) la lo in
  (outcome a,
   {| clock := clock w + Z.of_N (elapsed a); search_cache := search_cache w;
      forecast_cache := forecast_cache w; sent := sent w |}).

(** From the samples to the [formatted] document. *)
Definition format_forecast (city country_code : json) (samples : list sample)
  : res forecast_doc :=
  (cname <- get_country_name country_code ;;
   days <- forecast_days samples ;;
   Ret {| f_city := city; f_country := cname; f_forecast := days |})%res.

(** The body of the [try] block of [get_forecast]: the answer, the world
    and the calls made to the forecast endpoint. *)
Definition forecast_try (w : world) (normalized_location cache_key : str)
  : res forecast_response * world * list (json * json) :=
  let (r1, w1) := send_lookup w normalized_location in
  match r1 with
  | Raise e => (Raise e, w1, [])
  | Ret geo_data =>
      if negb (Json.truthy geo_data)
      then (Ret (forecast_failure 404 LocationNotFound), w1, []) else
      match first_candidate geo_data with
      | Raise e => (Raise e, w1, [])
      | Ret (la, lo, city, country_code) =>
          let (r2, w2) := send_forecast w1 la lo in
          match r2 with
          | Raise e => (Raise e, w2, [(la, lo)])
          | Ret None =>
              (Ret {| f_status := 500; f_payload := InvalidForecastData |}, w2, [(la, lo)])
          | Ret (Some samples) =>
              match format_forecast city country_code samples with
              | Raise e => (Raise e, w2, [(la, lo)])
              | Ret formatted =>
                  (Ret {| f_status := 200; f_payload := Forecast formatted |},
                   store_forecast w2 cache_key formatted, [(la, lo)])
              end
          end
      end
  end.

(** The [except] clauses of [get_forecast]. *)
Definition forecast_except (e : exn) : forecast_response :=
  match e with
  | HTTPError code =>
      if code =? 401 then forecast_failure 401 InvalidApiKey
      else if code =? 429 then forecast_failure 429 RateLimitExceeded
      else if code =? 404 then forecast_failure 404 LocationNotFound
      else forecast_failure 500 WeatherServiceError
  | RequestException => forecast_failure 500 NetworkError
  | _ => forecast_failure 500 UnexpectedError
  end.

Definition get_forecast (w : world) (location : option str)
  : forecast_response * world * list (json * json) :=
  match location with
  | None => (forecast_failure 400 LocationRequired, w, [])
  | Some location =>
      if negb (PyStr.truthy location) then (forecast_failure 400 LocationRequired, w, [])
      else if negb (validate_location location)
      then (forecast_failure 400 InvalidLocationFormat, w, [])
      else match normalize_location location with
           | None => (forecast_failure 400 InvalidAfterNormalization, w, [])
           | Some normalized_location =>
               let cache_key := forecast_cache_key normalized_location in
               let (cached_result, fc) :=
                 TTLCache.get (forecast_cache w) (clock w) cache_key in
               let w0 := {| clock := clock w; search_cache := search_cache w;
                            forecast_cache := fc; sent := sent w |} in
               match cached_result with
               | Some formatted =>
                   ({| f_status := 200; f_payload := Forecast formatted |}, w0, [])
               | None =>
                   match forecast_try w0 normalized_location cache_key with
                   | (Ret resp, w1, calls) => (resp, w1, calls)
                   | (Raise e, w1, calls) => (forecast_except e, w1, calls)
                   end
               end
           end
  end.

Definition forecast_route (admitted : bool) (w : world) (location : option str)
  : forecast_response * world * list (json * json) :=
  if admitted then get_forecast w location
  else (forecast_failure 429 TooManyRequests, w, []).

(** *** Requests one after the other *)

Inductive request : Type :=
| SearchRequest (q country : str) (page : option str)
| WeatherRequest (location : option str)
| ForecastRequest (location : option str).

(** A request arrives [gap] seconds after the answer to the one before
    it, and the limiter admits it or not. *)
Record arrival : Type := { gap : N; admitted : bool; asked : request }.

Definition serve (w : world) (a : arrival) : world :=
  let w := advance (Z.of_N (gap a)) w in
  match asked a with
  | SearchRequest q country page => snd (search_route (admitted a) w q country page)
  | WeatherRequest location => snd (weather_route (admitted a) w location)
  | ForecastRequest location => snd (fst (forecast_route (admitted a) w location))
  end.

Definition run (w : world) (l : list arrival) : world := fold_left serve l w.


Definition is_forecast (a : arrival) : bool :=
  match asked a with ForecastRequest _ => true | _ => false end.

(** The number of entries of a cache. *)
Definition entries {V : Type} (c : TTLCache.t V) : nat :=
  List.length (TTLCache.links c).

(** The cache holds the value [v] under the key [k], to expire at the
    time [e]. *)
Definition holds {V : Type} (c : TTLCache.t V) (k : str) (v : V) (e : Z) : Prop :=
  TTLCache.find_link k c
  = Some {| TTLCache.l_key := k; TTLCache.l_value := v; TTLCache.l_expires := e |}.

(** *** More vocabulary *)

(** What [search_locations] does once the cache has missed and there is a
    provider query: the [try] block and its [except] clauses. *)
Definition search_upstream (w0 : world) (query country : str) (page : Z)
    (cache_key q : str) : response * world :=
  match search_try w0 query country page cache_key q with
  | (Ret resp, w1) => (resp, w1)
  | (Raise (HTTPError code), w1) =>
      if code =? 404 then search_not_found w1 query country cache_key
      else (failure 500 GeocodingApiError, w1)
  | (Raise RequestException, w1) => (failure 500 NetworkError, w1)
  | (Raise _, w1) => (failure 500 UnexpectedError, w1)
  end.

(** The outbound calls that one search may make: the provider query, and
    the query for the fallback city of a country-only search. *)
Definition search_call (query country : str) (c : outbound) : Prop :=
  (exists q, provider_query query country = Some q /\ c = GeoSearch q)
  \/ (exists city, fallback_for query country = Some city
                   /\ c = GeoSearch (city ++ lit ",," ++ country)).

(** A list of results as the search answers it: in name order and without
    two results of equal keys. *)
Definition well_formed_page (l : list place) : Prop :=
  Sorted name_le l /\ distinct_keys (map place_key l).

(** Two characters of the class [p] stand next to each other in [s]. *)
Fixpoint adjacent_pair (p : char -> bool) (s : str) : bool :=
  match s with
  | [] => false
  | x :: s' =>
      match s' with
      | [] => false
      | y :: _ => (p x && p y) || adjacent_pair p s'
      end
  end.

(** The string has no two hyphens in a row. *)
Definition no_double_hyphen (s : str) : Prop :=
  adjacent_pair (N.eqb (ch "-")) s = false.

(** Two caches hold the same entries (their recency orders may differ). *)
Definition same_entries {V : Type} (c c' : TTLCache.t V) : Prop :=
  TTLCache.links c = TTLCache.links c'.

(** The distinct values of a list, in the order of their first
    occurrence. *)
Fixpoint first_seen_order (l : list str) : list str :=
  match l with
  | [] => []
  | x :: l' => x :: filter (fun y => negb (PyStr.eqb y x)) (first_seen_order l')
  end.

(** The number of commas of a string. *)
Definition commas (s : str) : nat :=
  List.length (filter (N.eqb (ch ",")) s).

(** [n] is the integer nearest to [num / 2^k], the even one of the two
    when [num / 2^k] lies half way between two integers. *)
Definition nearest_integer (num k n : Z) : Prop :=
  Z.abs (2 * num - 2 * n * 2 ^ k) <= 2 ^ k
  /\ (Z.abs (2 * num - 2 * n * 2 ^ k) = 2 ^ k -> Z.even n = true).

(** [r] is [x] rounded to one decimal: for a finite [x] that is not an
    integer, of sign [s], there is an integer [n] nearest to ten times the
    absolute value of [x], and [r] is the float nearest to [n / 10], with
    the sign [s]; any other [x] is left as it is. *)
Definition rounded_to_tenth (x r : float) : Prop :=
  match Prim2SF x with
  | S754_finite s m e =>
      if 0 <=? e then r = x
      else exists n : Z,
          nearest_integer (10 * Zpos m) (- e) n
          /\ r = SF2Prim (match n with
                          | Zpos p => SFdiv prec emax (S754_finite s p 0)
                                        (S754_finite false 10 0)
                          | _ => S754_zero s
                          end)
  | _ => r = x
  end.

(** The statuses that the weather and forecast handlers answer with. *)
Definition handler_status (code : Z) : Prop :=
  code = 200 \/ code = 400 \/ code = 401 \/ code = 404 \/ code = 429 \/ code = 500.

(** A forecast reply for the examples. *)
Definition demo_forecast_api (i : nat) (la lo : json)
  : answer (option (list sample)) :=
  {| elapsed := 2; outcome := Ret (Some demo_day) |}.


(** A geocoding provider for the examples that knows no place named
    Atlantis and is over its rate limit for every other lookup. *)
Definition demo_geo_lookup_limited (i : nat) (q : str) : answer json :=
  {| elapsed := 1;
     outcome := if PyStr.eqb q (lit "Atlantis,EE") then Ret (JArr [])
                else Raise (HTTPError 429) |}.

(** An interpreter for the examples that also knows the letters with
    diacritics of the Estonian alphabet. *)
Definition estonian_pairs : list (char * char) :=
  [ (196, 228); (213, 245); (214, 246); (220, 252); (352, 353); (381, 382) ]%N.

Definition demo_estonian_py : interpreter :=
  {| lower_table :=
       fun c => match find (fun p => (fst p =? c)%N) estonian_pairs with
                | Some p => [snd p]
                | None => [c]
                end;
     upper_table :=
       fun c => match find (fun p => (snd p =? c)%N) estonian_pairs with
                | Some p => [fst p]
                | None => [c]
                end;
     final_sigma := fun _ _ => false;
     alnum_table :=
       fun c => existsb (fun p => (fst p =? c) || (snd p =? c))%N estonian_pairs;
     int_of_str := demo_int_of_str;
     float_sum := compensated_float_sum |}.

(** Two entries for one town whose names differ in letter case only and
    whose latitude is the NaN of the decoder. *)
Definition demo_parnu (n : str) (region : option str) : raw_loc :=
  {| r_name := Some n; r_country := Some (lit "EE");
     r_lat := Some (PyFloat nan); r_lon := Some (PyFloat 24.5%float);
     r_state := region |}.

Definition parnu : str := [ch "P"; 228%N] ++ lit "rnu".
Definition PARNU : str := [ch "P"; 196%N] ++ lit "RNU".

(** Three samples of one day whose mean temperature is not a multiple of
    one tenth. *)
Definition demo_thirds : list sample :=
  [ demo_sample 0 10 (lit "mist") (lit "50n");
    demo_sample 1 11 (lit "mist") (lit "50d");
    demo_sample 2 11 (lit "mist") (lit "50d") ].
(** * Properties *)

(** ** Strings: basic facts *)

Lemma eqb_refl (a : str) : PyStr.eqb a a = true.
Proof.
  induction a as [|c a IH]; simpl; [reflexivity|].
  rewrite N.eqb_refl. exact IH.
Qed.

Lemma eqb_eq (a b : str) : PyStr.eqb a b = true <-> a = b.
Proof.
  split.
  - revert b. induction a as [|x a IH]; intros [|y b] H; simpl in H;
      try discriminate; [reflexivity|].
    apply andb_true_iff in H. destruct H as [H1 H2].
    apply N.eqb_eq in H1. apply IH in H2. congruence.
  - intros ->. apply eqb_refl.
Qed.

Lemma eqb_neq (a b : str) : PyStr.eqb a b = false <-> a <> b.
Proof.
  split.
  - intros H E. apply eqb_eq in E. congruence.
  - intros H. destruct (PyStr.eqb a b) eqn:E; [|reflexivity].
    apply eqb_eq in E. contradiction.
Qed.

Lemma eqb_sym (a b : str) : PyStr.eqb a b = PyStr.eqb b a.
Proof.
  destruct (PyStr.eqb a b) eqn:E.
  - apply eqb_eq in E. subst. symmetry. apply eqb_refl.
  - symmetry. apply eqb_neq. apply eqb_neq in E. congruence.
Qed.

(** Arithmetic on code points: the character literals and the character
    classes are unfolded and the comparisons become (in)equalities. *)
Ltac char_arith :=
  unfold isspace, isupper, islower, isdigit, ascii_isalnum, is_ascii,
    is_l, is_i, is_n in *;
  change (ch ",") with 44%N in *; change (ch "-") with 45%N in *;
  change (ch " ") with 32%N in *; change (ch "_") with 95%N in *;
  change (ch "l") with 108%N in *; change (ch "L") with 76%N in *;
  change (ch "i") with 105%N in *; change (ch "I") with 73%N in *;
  change (ch "n") with 110%N in *; change (ch "N") with 78%N in *;
  repeat first
    [ rewrite andb_true_iff in * | rewrite orb_true_iff in *
    | rewrite andb_false_iff in * | rewrite orb_false_iff in *
    | rewrite N.leb_le in * | rewrite N.leb_gt in *
    | rewrite N.ltb_lt in * | rewrite N.ltb_ge in *
    | rewrite N.eqb_eq in * | rewrite N.eqb_neq in * ];
  lia.

Lemma isupper_not_space c : isupper c = true -> isspace c = false.
Proof. intros H. char_arith. Qed.

Lemma isupper_ascii c : isupper c = true -> is_ascii c = true.
Proof. intros H. char_arith. Qed.

Lemma isupper_not_lower c : isupper c = true -> islower c = false.
Proof. intros H. char_arith. Qed.

Lemma isupper_to_upper c : isupper c = true -> to_upper c = [c].
Proof.
  intros H. unfold to_upper, ascii_to_upper.
  rewrite (isupper_ascii _ H), (isupper_not_lower _ H). reflexivity.
Qed.

Lemma isupper_not_comma c : isupper c = true -> (c =? ch ",")%N = false.
Proof. intros H. char_arith. Qed.

(** ** Splitting *)

Lemma split_no_sep sep (s : str) :
  ~ In sep s -> split sep s = [s].
Proof.
  induction s as [|c s IH]; intros H; simpl; [reflexivity|].
  destruct ((c =? sep)%N) eqn:E.
  - apply N.eqb_eq in E. subst. exfalso. apply H. left. reflexivity.
  - rewrite IH; [reflexivity|]. intros Hin. apply H. right. exact Hin.
Qed.

Lemma split_app sep (a b : str) :
  ~ In sep a -> split sep (a ++ sep :: b) = a :: split sep b.
Proof.
  induction a as [|c a IH]; intros H; simpl.
  - rewrite N.eqb_refl. reflexivity.
  - destruct ((c =? sep)%N) eqn:E.
    + apply N.eqb_eq in E. subst. exfalso. apply H. left. reflexivity.
    + rewrite IH; [reflexivity|]. intros Hin. apply H. right. exact Hin.
Qed.

(** ** Stripping *)

Lemma lstrip_by_Forall (P : char -> Prop) p (s : str) :
  Forall P s -> Forall P (lstrip_by p s).
Proof.
  induction 1 as [|c s Hc Hs IH]; simpl; [constructor|].
  destruct (p c); [exact IH | constructor; assumption].
Qed.

Lemma rstrip_by_Forall (P : char -> Prop) p (s : str) :
  Forall P s -> Forall P (rstrip_by p s).
Proof.
  intros H. unfold rstrip_by. apply Forall_rev. apply lstrip_by_Forall.
  apply Forall_rev. exact H.
Qed.

Lemma strip_by_Forall (P : char -> Prop) p (s : str) :
  Forall P s -> Forall P (strip_by p s).
Proof.
  intros H. unfold strip_by. apply rstrip_by_Forall, lstrip_by_Forall, H.
Qed.

Lemma lstrip_by_head p (s : str) c rest :
  lstrip_by p s = c :: rest -> p c = false.
Proof.
  induction s as [|x s IH]; simpl; [discriminate|].
  destruct (p x) eqn:E; [exact IH|].
  intros H. injection H as -> _. exact E.
Qed.

Lemma lstrip_by_snoc p (s : str) c :
  p c = false -> lstrip_by p (s ++ [c]) = lstrip_by p s ++ [c].
Proof.
  intros Hc. induction s as [|x s IH]; simpl.
  - rewrite Hc. reflexivity.
  - destruct (p x); [exact IH | reflexivity].
Qed.

Lemma rstrip_by_last p (s pre : str) c :
  rstrip_by p s = pre ++ [c] -> p c = false.
Proof.
  unfold rstrip_by. intros H.
  apply (f_equal (@rev char)) in H. rewrite rev_involutive, rev_app_distr in H.
  simpl in H. eapply lstrip_by_head. exact H.
Qed.

Lemma rstrip_by_cons p c (s : str) :
  p c = false -> rstrip_by p (c :: s) = c :: rstrip_by p s.
Proof.
  intros Hc. unfold rstrip_by. simpl.
  rewrite lstrip_by_snoc by exact Hc. rewrite rev_app_distr. reflexivity.
Qed.

(** A stripped string neither starts nor ends with a stripped character. *)
Lemma strip_by_head p (s : str) c rest :
  strip_by p s = c :: rest -> p c = false.
Proof.
  unfold strip_by. destruct (lstrip_by p s) as [|x t] eqn:E.
  - unfold rstrip_by. simpl. discriminate.
  - pose proof (lstrip_by_head p s E) as Hx.
    rewrite rstrip_by_cons by exact Hx. intros H. injection H as -> _. exact Hx.
Qed.

Lemma strip_by_last p (s pre : str) c :
  strip_by p s = pre ++ [c] -> p c = false.
Proof. unfold strip_by. apply rstrip_by_last. Qed.

(** ** Collapsing runs *)

Lemma sub_runs_Forall (P : char -> Prop) p r b (s : str) :
  P r -> (forall c, In c s -> p c = false -> P c) ->
  Forall P (sub_runs p r b s).
Proof.
  intros Hr. revert b. induction s as [|c s IH]; intros b H; simpl; [constructor|].
  destruct (p c) eqn:E.
  - destruct b.
    + apply IH. intros x Hx. apply H. right. exact Hx.
    + constructor; [exact Hr|]. apply IH. intros x Hx. apply H. right. exact Hx.
  - constructor.
    + apply H; [left; reflexivity | exact E].
    + apply IH. intros x Hx. apply H. right. exact Hx.
Qed.

Lemma sub_linn_In (isw : char -> bool) b (s : str) c :
  In c (sub_linn isw b s) -> In c s.
Proof.
  revert b c.
  assert (H : forall n (s : str), (List.length s <= n)%nat ->
            forall b c, In c (sub_linn isw b s) -> In c s).
  { induction n as [|n IH]; intros s0 Hlen b c Hin.
    - destruct s0; [exact Hin | simpl in Hlen; lia].
    - destruct s0 as [|c1 s1]; [exact Hin|].
      simpl in Hlen.
      destruct s1 as [|c2 [|c3 [|c4 rest]]].
      + simpl in Hin. exact Hin.
      + simpl in Hin. destruct Hin as [<-|Hin]; [left; reflexivity|].
        right. exact Hin.
      + simpl in Hin. destruct Hin as [<-|Hin]; [left; reflexivity|].
        right. exact Hin.
      + cbn [sub_linn] in Hin.
        destruct (xorb b (isw c1) && is_linn c1 c2 c3 c4
                  && xorb (isw c4) (starts_word isw rest)).
        * do 4 right. apply (IH rest) with (b := isw c4); [simpl in Hlen; lia | exact Hin].
        * destruct Hin as [<-|Hin]; [left; reflexivity|].
          right. apply (IH (c2 :: c3 :: c4 :: rest)) with (b := isw c1);
            [simpl in *; lia | exact Hin]. }
  intros b c. apply (H (List.length s)). lia.
Qed.

(** ** Location normalisation *)

Lemma replace_char_Forall (P : char -> Prop) a b (s : str) :
  P b -> (forall c, In c s -> c <> a -> P c) -> Forall P (replace_char a b s).
Proof.
  intros Hb H. unfold replace_char. apply Forall_forall. intros x Hx.
  apply in_map_iff in Hx. destruct Hx as [c [<- Hc]].
  destruct (c =? a)%N eqn:E; [exact Hb|].
  apply H; [exact Hc|]. apply N.eqb_neq. exact E.
Qed.

Lemma sub_linn_Forall (P : char -> Prop) (isw : char -> bool) b (s : str) :
  Forall P s -> Forall P (sub_linn isw b s).
Proof.
  intros H. apply Forall_forall. intros c Hc.
  apply sub_linn_In in Hc. revert c Hc. apply Forall_forall. exact H.
Qed.

(** Every character of the normalised city token is a character of the
    input that is not whitespace, or a hyphen. *)
Lemma normalize_city_Forall (P : char -> Prop) (city : str) :
  P (ch "-") -> (forall c, In c city -> isspace c = false -> P c) ->
  Forall P (normalize_city city).
Proof.
  intros Hh H. unfold normalize_city, strip_char, strip.
  apply strip_by_Forall. apply sub_runs_Forall; [exact Hh|].
  intros c Hc _. revert c Hc. apply Forall_forall.
  apply replace_char_Forall; [exact Hh|].
  intros c Hc Hne.
  assert (Hall : Forall (fun c => c = ch " " \/ (In c city /\ isspace c = false))
                   (strip_by isspace (sub_runs isspace (ch " ") false
                      (strip_by isspace (sub_linn isword false (strip_by isspace city)))))).
  { apply strip_by_Forall. apply sub_runs_Forall; [left; reflexivity|].
    intros x Hx Hsp. right. split; [|exact Hsp].
    assert (Hin : Forall (fun c => In c city)
                    (strip_by isspace (sub_linn isword false (strip_by isspace city)))).
    { apply strip_by_Forall, sub_linn_Forall, strip_by_Forall.
      apply Forall_forall. auto. }
    rewrite Forall_forall in Hin. apply Hin. exact Hx. }
  rewrite Forall_forall in Hall. destruct (Hall c Hc) as [->|[Hin Hsp]].
  - contradiction.
  - apply H; assumption.
Qed.

Lemma normalize_city_no_space (city : str) : no_space (normalize_city city).
Proof.
  apply normalize_city_Forall; [reflexivity|]. intros c _ H. exact H.
Qed.

Lemma normalize_city_no_edge_hyphen (city : str) : no_edge_hyphen (normalize_city city).
Proof.
  split.
  - intros rest E. unfold normalize_city, strip_char in E.
    apply strip_by_head in E. rewrite N.eqb_refl in E. discriminate.
  - intros pre E. unfold normalize_city, strip_char in E.
    apply strip_by_last in E. rewrite N.eqb_refl in E. discriminate.
Qed.

Lemma normalize_city_no_comma (city : str) :
  ~ In (ch ",") city -> ~ In (ch ",") (normalize_city city).
Proof.
  intros H Hin.
  assert (Hall : Forall (fun c => c <> ch ",") (normalize_city city)).
  { apply normalize_city_Forall; [discriminate|].
    intros c Hc _ ->. contradiction. }
  rewrite Forall_forall in Hall. apply (Hall _ Hin). reflexivity.
Qed.

Lemma strip_code (u1 u2 : char) :
  isupper u1 = true -> isupper u2 = true ->
  upper (strip [u1; u2]) = [u1; u2].
Proof.
  intros H1 H2. unfold strip, strip_by. simpl.
  rewrite (isupper_not_space _ H1). unfold rstrip_by. simpl.
  rewrite (isupper_not_space _ H2). simpl.
  unfold upper. simpl.
  rewrite (isupper_to_upper _ H1), (isupper_to_upper _ H2). reflexivity.
Qed.

Lemma code_no_comma (u1 u2 : char) :
  isupper u1 = true -> isupper u2 = true -> ~ In (ch ",") [u1; u2].
Proof.
  intros H1 H2 [E|[E|[]]]; subst;
    [apply isupper_not_comma in H1 | apply isupper_not_comma in H2]; discriminate.
Qed.

Lemma strip_by_In p (s : str) c : In c (strip_by p s) -> In c s.
Proof.
  assert (H : Forall (fun c => In c s) (strip_by p s)).
  { apply strip_by_Forall. apply Forall_forall. auto. }
  rewrite Forall_forall in H. apply H.
Qed.

Lemma adjacent_pair_cons p x y (t : str) :
  adjacent_pair p (x :: y :: t) = (p x && p y) || adjacent_pair p (y :: t).
Proof. reflexivity. Qed.

Lemma adjacent_pair_app p (a b : str) :
  adjacent_pair p (a ++ b) = false ->
  adjacent_pair p a = false /\ adjacent_pair p b = false.
Proof.
  induction a as [|x a IH]; intros H; [split; [reflexivity | exact H]|].
  destruct a as [|y a].
  - split; [reflexivity|]. simpl in H. destruct b as [|z b]; [reflexivity|].
    apply orb_false_iff in H. apply H.
  - change ((x :: y :: a) ++ b) with (x :: y :: (a ++ b)) in H.
    rewrite adjacent_pair_cons in H. apply orb_false_iff in H. destruct H as [Hxy H].
    destruct (IH H) as [Ha Hb]. split; [|exact Hb].
    rewrite adjacent_pair_cons, Hxy. exact Ha.
Qed.

Lemma lstrip_by_suffix p (s : str) : exists pre, s = pre ++ lstrip_by p s.
Proof.
  induction s as [|c s [pre IH]]; simpl; [exists []; reflexivity|].
  destruct (p c).
  - exists (c :: pre). simpl. f_equal. exact IH.
  - exists []. reflexivity.
Qed.

Lemma rstrip_by_prefix p (s : str) : exists post, s = rstrip_by p s ++ post.
Proof.
  unfold rstrip_by. destruct (lstrip_by_suffix p (rev s)) as [pre H].
  exists (rev pre). rewrite <- rev_app_distr, <- H, rev_involutive. reflexivity.
Qed.

Lemma strip_by_adjacent p q (s : str) :
  adjacent_pair q s = false -> adjacent_pair q (strip_by p s) = false.
Proof.
  intros H. unfold strip_by.
  destruct (lstrip_by_suffix p s) as [pre Hs]. rewrite Hs in H.
  apply adjacent_pair_app in H. destruct H as [_ H].
  destruct (rstrip_by_prefix p (lstrip_by p s)) as [post Hr]. rewrite Hr in H.
  apply adjacent_pair_app in H. apply H.
Qed.

(** After [re.sub(r'C+', r, s)] with [r] in the class, no two characters
    of the class are left next to each other. *)
Lemma sub_runs_adjacent p r (s : str) :
  p r = true ->
  forall b,
    adjacent_pair p (sub_runs p r b s) = false
    /\ (b = true -> match sub_runs p r b s with [] => true | c :: _ => negb (p c) end = true).
Proof.
  intros Hr. induction s as [|c s IH]; intros b; simpl; [split; reflexivity|].
  destruct (p c) eqn:Ec.
  - destruct b.
    + apply IH.
    + destruct (IH true) as [Hadj Hhead]. specialize (Hhead eq_refl).
      split; [|discriminate].
      destruct (sub_runs p r true s) as [|y t] eqn:Et; [reflexivity|].
      rewrite adjacent_pair_cons, Hadj.
      apply negb_true_iff in Hhead. rewrite Hhead, andb_false_r. reflexivity.
  - destruct (IH false) as [Hadj _]. split; [|intros _; rewrite Ec; reflexivity].
    destruct (sub_runs p r false s) as [|y t] eqn:Et; [reflexivity|].
    rewrite adjacent_pair_cons, Hadj, Ec. reflexivity.
Qed.

Lemma normalize_city_no_double_hyphen (city : str) :
  no_double_hyphen (normalize_city city).
Proof.
  unfold no_double_hyphen, normalize_city, strip_char.
  apply strip_by_adjacent. apply sub_runs_adjacent. reflexivity.
Qed.

Lemma cut_at_app sep (a b : str) :
  ~ In sep a -> cut_at sep (a ++ sep :: b) = Some (a, b).
Proof.
  induction a as [|c a IH]; intros H; simpl.
  - rewrite N.eqb_refl. reflexivity.
  - destruct (c =? sep)%N eqn:E.
    + apply N.eqb_eq in E. subst. exfalso. apply H. left. reflexivity.
    + rewrite IH; [reflexivity|]. intros Hin. apply H. right. exact Hin.
Qed.

(** C3: for an input [city,cc] with one comma, whose country part is a
    known code once it is stripped and upper-cased, and whose city token has
    at least two characters after normalisation, [normalize_location]
    returns the normalised city token, a comma and the stripped, upper-cased
    country part.  The key is cut by its first comma into these two
    segments; when the country part is a code of two capital letters the
    country segment is that code; the city segment has no whitespace, no
    hyphen at either end and no two hyphens in a row, each of its
    characters is a hyphen or a character of the city part that is not
    whitespace, and it is obtained by the steps of the source in their
    order. *)
Theorem normalize_location_key (city cc : str) :
  ~ In (ch ",") city -> ~ In (ch ",") cc ->
  validate_country (upper (strip cc)) = true ->
  (2 <= List.length (normalize_city city))%nat ->
  normalize_location (city ++ lit "," ++ cc)
    = Some (normalize_city city ++ lit "," ++ upper (strip cc))
  /\ cut_at (ch ",") (normalize_city city ++ lit "," ++ upper (strip cc))
     = Some (normalize_city city, upper (strip cc))
  /\ (forall u1 u2, cc = [u1; u2] -> isupper u1 = true -> isupper u2 = true ->
      upper (strip cc) = cc)
  /\ no_space (normalize_city city)
  /\ no_edge_hyphen (normalize_city city)
  /\ no_double_hyphen (normalize_city city)
  /\ Forall (fun c => c = ch "-" \/ (In c city /\ isspace c = false))
       (normalize_city city)
  /\ normalize_city city
     = strip_char (ch "-")
         (sub_runs (N.eqb (ch "-")) (ch "-") false
            (replace_char (ch " ") (ch "-")
               (strip (sub_runs isspace (ch " ") false
                  (strip (sub_linn isword false (strip city))))))).
Proof.
  intros Hcity Hcc Hknown Hlen.
  split; [|split; [|split; [|split; [|split; [|split; [|split]]]]]].
  - unfold normalize_location.
    assert (Hne : PyStr.truthy (city ++ lit "," ++ cc) = true)
      by (destruct city; reflexivity).
    rewrite Hne. simpl negb. cbv iota.
    change (lit "," ++ cc) with (ch "," :: cc).
    rewrite split_app by exact Hcity. rewrite split_no_sep by exact Hcc.
    rewrite Hknown. simpl negb. cbv iota.
    destruct (normalize_city city) as [|a [|b rest]] eqn:En; simpl in Hlen; try lia.
    reflexivity.
  - change (lit "," ++ upper (strip cc)) with (ch "," :: upper (strip cc)).
    apply cut_at_app. apply normalize_city_no_comma. exact Hcity.
  - intros u1 u2 -> H1 H2. apply strip_code; assumption.
  - apply normalize_city_no_space.
  - apply normalize_city_no_edge_hyphen.
  - apply normalize_city_no_double_hyphen.
  - apply normalize_city_Forall; [left; reflexivity|].
    intros c Hc Hsp. right. split; assumption.
  - reflexivity.
Qed.

(** ** Location validation *)

Lemma startswith_app (n post : str) : startswith n (n ++ post) = true.
Proof.
  induction n as [|c n IH]; simpl; [reflexivity|].
  rewrite N.eqb_refl. exact IH.
Qed.

Lemma contains_app (n pre post : str) : contains n (pre ++ n ++ post) = true.
Proof.
  induction pre as [|c pre IH]; simpl.
  - pose proof (startswith_app n post) as H.
    destruct (n ++ post); simpl; rewrite H; reflexivity.
  - rewrite IH. apply orb_true_r.
Qed.

(** [lower] works from left to right. *)
Lemma lower_from_app (b x y : str) :
  exists p, lower_from b (x ++ y) = p ++ lower_from (b ++ x) y.
Proof.
  revert b. induction x as [|c x IH]; intros b; simpl.
  - exists []. rewrite app_nil_r. reflexivity.
  - destruct (IH (b ++ [c])) as [p Hp]. rewrite Hp, <- !app_assoc.
    eexists. rewrite app_assoc. reflexivity.
Qed.

Lemma lower_from_app_no_sigma (b x y : str) :
  ~ In 931%N x ->
  lower_from b (x ++ y) = lower_from b x ++ lower_from (b ++ x) y.
Proof.
  revert b. induction x as [|c x IH]; intros b H; simpl.
  - rewrite app_nil_r. reflexivity.
  - destruct (c =? 931)%N eqn:E.
    + apply N.eqb_eq in E. exfalso. apply H. left. exact E.
    + rewrite IH by (intros Hin; apply H; right; exact Hin).
      rewrite <- !app_assoc. reflexivity.
Qed.

(** The text around it matters for the capital sigma only. *)
Lemma lower_from_no_sigma (b b' s : str) :
  ~ In 931%N s -> lower_from b s = lower_from b' s.
Proof.
  revert b b'. induction s as [|c s IH]; intros b b' H; simpl; [reflexivity|].
  destruct (c =? 931)%N eqn:E.
  - apply N.eqb_eq in E. exfalso. apply H. left. exact E.
  - rewrite (IH (b ++ [c]) (b' ++ [c])); [reflexivity|].
    intros Hin. apply H. right. exact Hin.
Qed.

(** A capital sigma leaves a small sigma. *)
Lemma lower_from_sigma (b s : str) :
  In 931%N s -> In 962%N (lower_from b s) \/ In 963%N (lower_from b s).
Proof.
  revert b. induction s as [|c s IH]; intros b H; [destruct H|].
  simpl. destruct (c =? 931)%N eqn:E.
  - destruct (final_sigma py b s); [left | right]; left; reflexivity.
  - destruct H as [H|H]; [subst c; rewrite N.eqb_refl in E; discriminate|].
    destruct (IH (b ++ [c]) H) as [H'|H']; [left | right];
      apply in_or_app; right; exact H'.
Qed.

(** C4: [validate_location] accepts "Tallinn,EE" (EE being a known code),
    rejects "Tallinn", "X,EE" and "Tallinn,Estonia", and rejects every
    input that contains "unknown city" in any letter case. *)
Theorem validate_location_examples :
  countries_get (lit "EE") <> None ->
  validate_location (lit "Tallinn,EE") = true
  /\ validate_location (lit "Tallinn") = false
  /\ validate_location (lit "X,EE") = false
  /\ validate_location (lit "Tallinn,Estonia") = false
  /\ (forall pre mid post : str,
        lower mid = lit "unknown city" ->
        validate_location (pre ++ mid ++ post) = false).
Proof.
  intros Hee. split; [|split; [|split; [|split]]].
  - vm_compute. vm_compute in Hee.
    destruct (countries_get _); [reflexivity | contradiction].
  - reflexivity.
  - reflexivity.
  - reflexivity.
  - intros pre mid post Hmid. unfold validate_location.
    destruct (PyStr.truthy (pre ++ mid ++ post)); [|reflexivity]. simpl.
    assert (Hsigma : ~ In 931%N mid).
    { intros Hin. destruct (@lower_from_sigma [] mid Hin) as [H|H];
        unfold lower in Hmid; rewrite Hmid in H; vm_compute in H;
        repeat (destruct H as [H|H]; [discriminate H|]); exact H. }
    unfold lower in *.
    destruct (lower_from_app [] pre (mid ++ post)) as [p ->].
    rewrite lower_from_app_no_sigma by exact Hsigma.
    rewrite (@lower_from_no_sigma ([] ++ pre) [] mid Hsigma), Hmid.
    rewrite contains_app. reflexivity.
Qed.

(** ** De-duplication *)

Lemma value_eqb_eq (u v : value) : value_eqb u v = true <-> u = v.
Proof.
  split.
  - destruct u as [|s|s m e], v as [|s'|s' m' e']; simpl; try discriminate; intros H.
    + reflexivity.
    + apply Bool.eqb_prop in H. congruence.
    + apply andb_true_iff in H. destruct H as [H He].
      apply andb_true_iff in H. destruct H as [Hs Hm].
      apply Bool.eqb_prop in Hs. apply Pos.eqb_eq in Hm. apply Z.eqb_eq in He.
      congruence.
  - intros <-. destruct u as [|s|s m e]; simpl.
    + reflexivity.
    + apply Bool.eqb_reflx.
    + rewrite Bool.eqb_reflx, Pos.eqb_refl, Z.eqb_refl. reflexivity.
Qed.

Lemma num_same_spec (a b : pynum) :
  num_same a b = true <-> num_value a = num_value b.
Proof.
  unfold num_same. split.
  - destruct (num_value a) as [u|], (num_value b) as [v|]; try discriminate;
      [|reflexivity].
    intros H. apply value_eqb_eq in H. subst. reflexivity.
  - intros ->. destruct (num_value b); [|reflexivity].
    apply value_eqb_eq. reflexivity.
Qed.

Lemma num_same_sym (a b : pynum) : num_same a b = true -> num_same b a = true.
Proof. rewrite !num_same_spec. intros ->. reflexivity. Qed.

Lemma num_same_trans (a b c : pynum) :
  num_same a b = true -> num_same b c = true -> num_same a c = true.
Proof. rewrite !num_same_spec. intros -> ->. reflexivity. Qed.

Lemma coord_eqb_sym (a b : option pynum) : coord_eqb a b = true -> coord_eqb b a = true.
Proof.
  destruct a as [x|], b as [y|]; simpl; try discriminate; try reflexivity.
  apply num_same_sym.
Qed.

Lemma coord_eqb_trans (a b c : option pynum) :
  coord_eqb a b = true -> coord_eqb b c = true -> coord_eqb a c = true.
Proof.
  destruct a as [x|], b as [y|], c as [z|]; simpl; try discriminate;
    try reflexivity. apply num_same_trans.
Qed.

Lemma key_eqb_true (a b : dedup_key) :
  key_eqb a b = true <->
  fst (fst (fst a)) = fst (fst (fst b)) /\ snd (fst (fst a)) = snd (fst (fst b))
  /\ coord_eqb (snd (fst a)) (snd (fst b)) = true /\ coord_eqb (snd a) (snd b) = true.
Proof.
  destruct a as [[[n1 c1] la1] lo1], b as [[[n2 c2] la2] lo2]. simpl.
  rewrite !andb_true_iff, !eqb_eq. split.
  - intros [[[H1 H2] H3] H4]. repeat split; assumption.
  - intros (H1 & H2 & H3 & H4). repeat split; assumption.
Qed.

Lemma key_eqb_sym (a b : dedup_key) : key_eqb a b = true -> key_eqb b a = true.
Proof.
  rewrite !key_eqb_true. intros (H1 & H2 & H3 & H4).
  auto using coord_eqb_sym.
Qed.

Lemma key_eqb_trans (a b c : dedup_key) :
  key_eqb a b = true -> key_eqb b c = true -> key_eqb a c = true.
Proof.
  rewrite !key_eqb_true. intros (H1 & H2 & H3 & H4) (G1 & G2 & G3 & G4).
  repeat split; try congruence; eauto using coord_eqb_trans.
Qed.

Lemma ForallOrdPairs_snoc {A : Type} (R : A -> A -> Prop) (l : list A) (x : A) :
  ForallOrdPairs R l -> Forall (fun a => R a x) l -> ForallOrdPairs R (l ++ [x]).
Proof.
  induction 1 as [|a l Ha Hl IH]; intros Hx; simpl.
  - constructor; constructor.
  - inversion Hx; subst. constructor.
    + apply Forall_app. split; [exact Ha | constructor; [assumption | constructor]].
    + apply IH. assumption.
Qed.

Lemma seen_has_false (k : dedup_key) (seen : list dedup_key) :
  seen_has k seen = false -> Forall (fun a => key_eqb k a = false) seen.
Proof.
  unfold seen_has. induction seen as [|a seen IH]; simpl; intros H; [constructor|].
  apply orb_false_iff in H. destruct H as [H1 H2].
  constructor; [exact H1 | exact (IH H2)].
Qed.

(** One round of the loop, in terms of the key of the entry. *)
Lemma visit_spec (loc : raw_loc) :
  match entry_key loc with
  | None => forall acc, visit acc loc = acc
  | Some k =>
      exists p, place_key p = k /\
        forall seen results,
          visit (seen, results) loc =
          if seen_has k seen then (seen, results) else (seen ++ [k], results ++ [p])
  end.
Proof.
  unfold visit, entry_key.
  destruct (r_name loc) as [n|]; [|intros [? ?]; reflexivity].
  destruct (r_country loc) as [c|]; [|intros [? ?]; reflexivity].
  destruct (negb (PyStr.truthy n) || negb (PyStr.truthy c)); [intros [? ?]; reflexivity|].
  destruct (resolve_country c) as [code|]; [|intros [? ?]; reflexivity].
  exists (make_result n code loc). split; [reflexivity|].
  intros seen results. reflexivity.
Qed.

Lemma collect_snoc acc (data : list raw_loc) (loc : raw_loc) :
  collect acc (data ++ [loc]) = visit (collect acc data) loc.
Proof. unfold collect. rewrite fold_left_app. reflexivity. Qed.

(** The loop invariant: [seen] holds the keys of the results, and no key of
    it is equal to an earlier one. *)
Lemma collect_invariant (data : list raw_loc) :
  fst (collect ([], []) data) = map place_key (snd (collect ([], []) data))
  /\ distinct_keys (fst (collect ([], []) data)).
Proof.
  induction data as [|loc data IH] using rev_ind.
  - simpl. split; [reflexivity | constructor].
  - rewrite collect_snoc. destruct (collect ([], []) data) as [seen results].
    simpl in IH. destruct IH as [Hseen Hd].
    pose proof (visit_spec loc) as Hv.
    destruct (entry_key loc) as [k|].
    + destruct Hv as [p [Hp Hv]]. rewrite Hv.
      destruct (seen_has k seen) eqn:E; simpl.
      * split; assumption.
      * split.
        -- rewrite map_app, Hseen. simpl. rewrite Hp. reflexivity.
        -- apply ForallOrdPairs_snoc; [exact Hd|]. apply seen_has_false. exact E.
    + rewrite Hv. simpl. split; assumption.
Qed.

(** Once a key is in [seen] it stays there. *)
Lemma collect_seen_grows (data more : list raw_loc) (k : dedup_key) :
  seen_has k (fst (collect ([], []) data)) = true ->
  seen_has k (fst (collect ([], []) (data ++ more))) = true.
Proof.
  induction more as [|loc more IH] using rev_ind; intros H.
  - rewrite app_nil_r. exact H.
  - rewrite app_assoc, collect_snoc. specialize (IH H).
    destruct (collect ([], []) (data ++ more)) as [seen results]. simpl in IH.
    pose proof (visit_spec loc) as Hv.
    destruct (entry_key loc) as [k'|].
    + destruct Hv as [p [_ Hv]]. rewrite Hv.
      destruct (seen_has k' seen); simpl; [exact IH|].
      unfold seen_has in *. rewrite existsb_app, IH. reflexivity.
    + rewrite Hv. exact IH.
Qed.

(** After an entry has been visited, a key equal to its key is in [seen]. *)
Lemma collect_sees (data : list raw_loc) (loc : raw_loc) (k : dedup_key) :
  entry_key loc = Some k -> key_eqb k k = true ->
  seen_has k (fst (collect ([], []) (data ++ [loc]))) = true.
Proof.
  intros Hk Hrefl. rewrite collect_snoc.
  destruct (collect ([], []) data) as [seen results].
  pose proof (visit_spec loc) as Hv. rewrite Hk in Hv.
  destruct Hv as [p [_ Hv]]. rewrite Hv.
  destruct (seen_has k seen) eqn:E; simpl; [exact E|].
  unfold seen_has. rewrite existsb_app. simpl. rewrite Hrefl.
  rewrite orb_true_r. reflexivity.
Qed.

Lemma filter_at_most_one {A : Type} (f : A -> bool) (l : list A) :
  ForallOrdPairs (fun a b => ~ (f a = true /\ f b = true)) l ->
  (List.length (filter f l) <= 1)%nat.
Proof.
  induction 1 as [|a l Ha Hl IH]; simpl; [lia|].
  destruct (f a) eqn:Ea; [|exact IH]. simpl.
  assert (Hnone : filter f l = []).
  { clear IH Hl. induction l as [|b l IHl]; [reflexivity|]. simpl.
    inversion Ha as [|? ? Hb Hrest]; subst.
    destruct (f b) eqn:Eb.
    - exfalso. apply Hb. split; reflexivity.
    - apply IHl. exact Hrest. }
  rewrite Hnone. simpl. lia.
Qed.

Lemma ForallOrdPairs_impl {A : Type} (R S : A -> A -> Prop) (l : list A) :
  (forall a b, R a b -> S a b) -> ForallOrdPairs R l -> ForallOrdPairs S l.
Proof.
  intros H. induction 1 as [|a l Ha Hl IH]; constructor.
  - eapply Forall_impl; [|exact Ha]. intros b. apply H.
  - exact IH.
Qed.

Lemma ForallOrdPairs_map {A B : Type} (g : A -> B) (R : B -> B -> Prop) (l : list A) :
  ForallOrdPairs R (map g l) -> ForallOrdPairs (fun a b => R (g a) (g b)) l.
Proof.
  induction l as [|a l IH]; intros H; [constructor|].
  simpl in H. inversion H as [|? ? Ha Hl]; subst. constructor.
  - apply Forall_forall. intros b Hb. rewrite Forall_forall in Ha.
    apply Ha. apply in_map. exact Hb.
  - apply IH. exact Hl.
Qed.

Lemma existsb_filter_length {A : Type} (f : A -> bool) (l : list A) :
  existsb f l = true -> (1 <= List.length (filter f l))%nat.
Proof.
  induction l as [|a l IH]; simpl; [discriminate|].
  destruct (f a); simpl; [lia | exact IH].
Qed.

(** C5: the results of the de-duplication loop carry pairwise different
    keys; and when two entries of the reply have equal keys (whatever their
    region labels), exactly one result carries that key. *)
Theorem dedup_one_result_per_key (data : list raw_loc) :
  distinct_keys (map place_key (snd (collect ([], []) data)))
  /\ (forall pre mid post e1 e2 k1 k2,
        data = pre ++ e1 :: mid ++ e2 :: post ->
        entry_key e1 = Some k1 -> entry_key e2 = Some k2 ->
        key_eqb k1 k2 = true ->
        List.length (filter (fun r => key_eqb k1 (place_key r))
                       (snd (collect ([], []) data))) = 1%nat).
Proof.
  destruct (collect_invariant data) as [Hseen Hd].
  split; [rewrite <- Hseen; exact Hd|].
  intros pre mid post e1 e2 k1 k2 Hdata Hk1 Hk2 Heq.
  assert (Hrefl : key_eqb k1 k1 = true)
    by (eapply key_eqb_trans; [exact Heq | apply key_eqb_sym; exact Heq]).
  apply Nat.le_antisymm.
  - apply filter_at_most_one. apply ForallOrdPairs_map with (g := place_key)
      (R := fun a b => ~ (key_eqb k1 a = true /\ key_eqb k1 b = true)).
    rewrite <- Hseen. eapply ForallOrdPairs_impl; [|exact Hd].
    intros a b Hab [Ha Hb]. simpl in Hab.
    assert (key_eqb b a = true)
      by (eapply key_eqb_trans; [apply key_eqb_sym; exact Hb | exact Ha]).
    congruence.
  - apply existsb_filter_length.
    assert (Hin : seen_has k1 (fst (collect ([], []) data)) = true).
    { subst data. change (pre ++ e1 :: mid ++ e2 :: post)
        with (pre ++ [e1] ++ (mid ++ e2 :: post)).
      rewrite app_assoc. apply collect_seen_grows. apply collect_sees; assumption. }
    rewrite Hseen in Hin. unfold seen_has in Hin.
    apply existsb_exists in Hin. destruct Hin as [k [Hk Hkk]].
    apply in_map_iff in Hk. destruct Hk as [r [<- Hr]].
    apply existsb_exists. exists r. split; assumption.
Qed.

(** ** Sorting by name and pagination *)

Lemma ltb_asym (a b : str) : PyStr.ltb a b = true -> PyStr.ltb b a = false.
Proof.
  revert b. induction a as [|x a IH]; intros [|y b]; simpl; try discriminate;
    try reflexivity.
  destruct (N.ltb_spec x y), (N.ltb_spec y x);
    try discriminate; try reflexivity; try lia.
  apply IH.
Qed.

Lemma le_trans (a b c : str) :
  PyStr.ltb b a = false -> PyStr.ltb c b = false -> PyStr.ltb c a = false.
Proof.
  revert b c. induction a as [|x a IH]; intros [|y b] [|z c]; simpl;
    try discriminate; try reflexivity.
  destruct (N.ltb_spec y x), (N.ltb_spec x y),
    (N.ltb_spec z y), (N.ltb_spec y z),
    (N.ltb_spec z x), (N.ltb_spec x z);
    try discriminate; try reflexivity; try lia.
  apply IH.
Qed.

Lemma name_le_trans (a b c : place) : name_le a b -> name_le b c -> name_le a c.
Proof. unfold name_le. intros H1 H2. eapply le_trans; eassumption. Qed.

Lemma insert_by_name_perm (x : place) (l : list place) :
  Permutation (x :: l) (insert_by_name x l).
Proof.
  induction l as [|y l IH]; simpl; [apply Permutation_refl|].
  destruct (PyStr.ltb (p_name y) (p_name x)); [|apply Permutation_refl].
  eapply Permutation_trans; [apply perm_swap|]. apply perm_skip. exact IH.
Qed.

Lemma sort_by_name_perm (l : list place) : Permutation l (sort_by_name l).
Proof.
  induction l as [|x l IH]; simpl; [constructor|].
  eapply Permutation_trans; [apply perm_skip; exact IH|]. apply insert_by_name_perm.
Qed.

Lemma insert_by_name_sorted (x : place) (l : list place) :
  Sorted name_le l -> Sorted name_le (insert_by_name x l).
Proof.
  induction 1 as [|y l Hl IH Hy]; simpl.
  - constructor; constructor.
  - destruct (PyStr.ltb (p_name y) (p_name x)) eqn:E.
    + constructor; [exact IH|].
      destruct l as [|z l]; simpl.
      * constructor. unfold name_le. apply ltb_asym. exact E.
      * destruct (PyStr.ltb (p_name z) (p_name x)).
        -- constructor. inversion Hy; subst. assumption.
        -- constructor. unfold name_le. apply ltb_asym. exact E.
    + constructor; [constructor; assumption|]. constructor. exact E.
Qed.

Lemma sort_by_name_sorted (l : list place) : StronglySorted name_le (sort_by_name l).
Proof.
  apply Sorted_StronglySorted; [exact name_le_trans|].
  induction l as [|x l IH]; simpl; [constructor|].
  apply insert_by_name_sorted. exact IH.
Qed.

(** Sorting a list that is in name order leaves it as it is. *)
Lemma sort_by_name_fixed (l : list place) :
  Sorted name_le l -> sort_by_name l = l.
Proof.
  induction 1 as [|x l Hl IH Hx]; simpl; [reflexivity|].
  rewrite IH. destruct l as [|y l]; simpl; [reflexivity|].
  inversion Hx as [|? ? Hxy]; subst. unfold name_le in Hxy. rewrite Hxy.
  reflexivity.
Qed.

Lemma StronglySorted_skipn {A : Type} (R : A -> A -> Prop) (n : nat) (l : list A) :
  StronglySorted R l -> StronglySorted R (skipn n l).
Proof.
  revert l. induction n as [|n IH]; intros l H; simpl; [exact H|].
  destruct l as [|x l]; [constructor|]. apply IH. inversion H; assumption.
Qed.

Lemma StronglySorted_firstn {A : Type} (R : A -> A -> Prop) (n : nat) (l : list A) :
  StronglySorted R l -> StronglySorted R (firstn n l).
Proof.
  revert l. induction n as [|n IH]; intros l H; simpl; [constructor|].
  destruct l as [|x l]; [constructor|].
  inversion H as [|? ? Hl Hx]; subst. constructor; [apply IH; exact Hl|].
  apply Forall_forall. intros y Hy. rewrite Forall_forall in Hx. apply Hx.
  revert Hy. clear. revert l. induction n as [|n IHn]; intros l Hy; [destruct Hy|].
  destruct l as [|z l]; [destruct Hy|]. simpl in Hy. destruct Hy as [<-|Hy].
  - left. reflexivity.
  - right. apply IHn. exact Hy.
Qed.

(** A page of the source: [results[start:end]] with [start = (page-1)*100]
    and [end = start + 100]. *)
Lemma page_slice {A : Type} (l : list A) (page : Z) :
  1 <= page ->
  py_slice l ((page - 1) * 100) ((page - 1) * 100 + 100)
  = firstn 100 (skipn (Z.to_nat ((page - 1) * 100)) l).
Proof.
  intros Hp. unfold py_slice.
  set (n := Z.of_nat (List.length l)). set (a := (page - 1) * 100).
  assert (Ha : 0 <= a) by (unfold a; lia).
  assert (Hn : 0 <= n) by (unfold n; lia).
  destruct (Z.ltb_spec a 0); [lia|].
  destruct (Z.ltb_spec (a + 100) 0); [lia|].
  destruct (Z.le_gt_cases n a) as [Hge|Hlt].
  - rewrite (Z.min_r a n) by lia. rewrite (Z.min_r (a + 100) n) by lia.
    rewrite Z.sub_diag. simpl firstn at 1.
    rewrite skipn_all2 by (unfold n in Hge; lia). reflexivity.
  - rewrite (Z.min_l a n) by lia.
    destruct (Z.le_gt_cases (a + 100) n) as [Hfull|Hpart].
    + rewrite (Z.min_l (a + 100) n) by lia.
      replace (a + 100 - a) with 100 by lia. reflexivity.
    + rewrite (Z.min_r (a + 100) n) by lia.
      rewrite !firstn_all2; [reflexivity| |]; rewrite length_skipn; unfold n in *; lia.
Qed.

(** C6: the de-duplicated results are sorted by name (a sorted rearrangement
    of them) and, for [page >= 1], the page is the slice
    [(page-1)*100 : page*100] of the sorted list, which the search answers
    with; of 250 sorted results, page 2 holds exactly the results 101 to 200
    in their order. *)
Theorem search_page_is_sorted_slice
    (w : world) (query country cache_key q : str) (data : list raw_loc) (page : Z) :
  1 <= page ->
  outcome (geo_search (List.length (sent w)) q) = Ret data ->
  let results := sort_by_name (snd (collect ([], []) data)) in
  let page_results := firstn 100 (skipn (Z.to_nat ((page - 1) * 100)) results) in
  Permutation (snd (collect ([], []) data)) results
  /\ StronglySorted name_le results
  /\ py_slice results ((page - 1) * 100) (page * 100) = page_results
  /\ (page_results <> [] \/ fallback_for query country = None ->
      fst (search_try w query country page cache_key q) = Ret (ok_places page_results))
  /\ (List.length results = 250%nat -> page = 2 ->
      List.length page_results = 100%nat
      /\ forall k, (k < 100)%nat ->
           nth_error page_results k = nth_error results (100 + k)).
Proof.
  intros Hpage Hdata results page_results.
  assert (Hsorted : StronglySorted name_le results) by apply sort_by_name_sorted.
  assert (Hslice : py_slice results ((page - 1) * 100) ((page - 1) * 100 + 100)
                   = page_results) by (apply page_slice; exact Hpage).
  assert (Hfixed : sort_by_name page_results = page_results).
  { apply sort_by_name_fixed, StronglySorted_Sorted.
    apply StronglySorted_firstn, StronglySorted_skipn. exact Hsorted. }
  split; [apply sort_by_name_perm|]. split; [exact Hsorted|].
  split; [replace (page * 100) with ((page - 1) * 100 + 100) by lia; exact Hslice|].
  split.
  - intros Hcase. unfold search_try, send_search. rewrite Hdata.
    destruct (collect ([], []) data) as [seen raw] eqn:Ec.
    simpl snd in results. fold results. rewrite Hslice.
    destruct page_results as [|p ps] eqn:Ep.
    + destruct Hcase as [Hne|Hnone]; [contradiction|].
      simpl is_empty. cbv iota. rewrite Hnone. reflexivity.
    + simpl is_empty. cbv iota. cbv zeta. rewrite Hfixed. reflexivity.
  - intros Hlen ->. split.
    + unfold page_results. rewrite length_firstn, length_skipn, Hlen.
      reflexivity.
    + intros k Hk. unfold page_results.
      rewrite nth_error_firstn.
      destruct (Nat.ltb_spec k 100); [|lia].
      rewrite nth_error_skipn. reflexivity.
Qed.

(** ** Forecast aggregation *)

Lemma bind_Ret {A B : Type} (m : res A) (k : A -> res B) (b : B) :
  bind m k = Ret b -> exists a, m = Ret a /\ k a = Ret b.
Proof.
  destruct m as [a|e]; simpl; [|discriminate]. intros H. exists a. auto.
Qed.

Lemma map_res_Ret {A B : Type} (f : A -> res B) (l : list A) (ys : list B) :
  map_res f l = Ret ys -> Forall2 (fun x y => f x = Ret y) l ys.
Proof.
  revert ys. induction l as [|x l IH]; simpl; intros ys H.
  - injection H as <-. constructor.
  - apply bind_Ret in H. destruct H as [y [Hy H]].
    apply bind_Ret in H. destruct H as [ys' [Hys H]]. injection H as <-.
    constructor; [exact Hy | apply IH; exact Hys].
Qed.

Lemma dict_update_keys {V : Type} (k : str) (f : V -> V) (d : list (str * V)) :
  map fst (dict_update k f d) = map fst d.
Proof.
  induction d as [|[k' v] d IH]; simpl; [reflexivity|].
  destruct (PyStr.eqb k' k); simpl; [reflexivity | rewrite IH; reflexivity].
Qed.

Lemma dict_update_In {V : Type} (k : str) (f : V -> V) (d : list (str * V)) k' v :
  NoDup (map fst d) ->
  In (k', v) (dict_update k f d) ->
  (k' <> k /\ In (k', v) d) \/ (k' = k /\ exists v0, In (k, v0) d /\ v = f v0).
Proof.
  induction d as [|[k0 v0] d IH]; simpl; intros Hnd Hin; [contradiction|].
  inversion Hnd as [|? ? Hnotin Hnd']; subst.
  destruct (PyStr.eqb k0 k) eqn:E.
  - apply eqb_eq in E. subst k0. destruct Hin as [Hin|Hin].
    + injection Hin as <- <-. right. split; [reflexivity|]. exists v0. auto.
    + left. split; [|right; exact Hin].
      intros ->. apply Hnotin. apply in_map_iff. exists (k, v). auto.
  - apply eqb_neq in E. destruct Hin as [Hin|Hin].
    + injection Hin as <- <-. left. split; [exact E | left; reflexivity].
    + destruct (IH Hnd' Hin) as [[Hne Hin']|[-> [v1 [Hin' ->]]]].
      * left. split; [exact Hne | right; exact Hin'].
      * right. split; [reflexivity|]. exists v1. split; [right; exact Hin' | reflexivity].
Qed.

Lemma dict_has_In {V : Type} (k : str) (d : list (str * V)) :
  dict_has k d = true <-> In k (map fst d).
Proof.
  unfold dict_has. rewrite existsb_exists. split.
  - intros [[k' v] [Hin E]]. simpl in E. apply eqb_eq in E. subst.
    apply in_map_iff. exists (k, v). auto.
  - intros Hin. apply in_map_iff in Hin. destruct Hin as [[k' v] [E Hin]].
    simpl in E. subst. exists (k, v). split; [exact Hin | apply eqb_refl].
Qed.

Lemma NoDup_snoc {A : Type} (l : list A) (x : A) :
  NoDup l -> ~ In x l -> NoDup (l ++ [x]).
Proof.
  induction 1 as [|a l Ha Hl IH]; intros Hx; simpl.
  - constructor; [intros []|constructor].
  - constructor.
    + rewrite in_app_iff. intros [Hin|[Hin|[]]]; [contradiction|].
      apply Hx. left. symmetry. exact Hin.
    + apply IH. intros Hin. apply Hx. right. exact Hin.
Qed.

Lemma on_date_snoc (d : str) (l : list sample) (x : sample) :
  on_date d (l ++ [x])
  = on_date d l ++ (if PyStr.eqb (date_of (s_dt x)) d then [x] else []).
Proof. unfold on_date. rewrite filter_app. reflexivity. Qed.

Lemma info_of_snoc (l : list sample) (x : sample) :
  info_of (l ++ [x])
  = {| temps := temps (info_of l) ++ [s_temp x];
       descriptions := descriptions (info_of l) ++ [s_description x];
       icons := icons (info_of l) ++ [s_icon x] |}.
Proof. unfold info_of. simpl. rewrite !map_app. reflexivity. Qed.

Lemma on_date_nil (d : str) (l : list sample) :
  ~ In d (map (fun s => date_of (s_dt s)) l) -> on_date d l = [].
Proof.
  induction l as [|x l IH]; simpl; intros H; [reflexivity|].
  destruct (PyStr.eqb (date_of (s_dt x)) d) eqn:E.
  - apply eqb_eq in E. exfalso. apply H. left. exact E.
  - apply IH. intros Hin. apply H. right. exact Hin.
Qed.

(** The loop invariant of the grouping: the keys of [daily_data] are the
    dates of the samples, each once, and each date holds what its samples
    contributed, in their order. *)
Lemma group_by_date_invariant (samples : list sample) :
  let g := group_by_date samples in
  NoDup (map fst g)
  /\ (forall d, In d (map fst g) <-> In d (map (fun s => date_of (s_dt s)) samples))
  /\ (forall d info, In (d, info) g -> info = info_of (on_date d samples)).
Proof.
  induction samples as [|x l IH] using rev_ind.
  - simpl. split; [constructor|]. split; [intros d; reflexivity | contradiction].
  - unfold group_by_date in *. rewrite fold_left_app. simpl.
    set (g := fold_left add_sample l []) in *. simpl in IH.
    destruct IH as (Hnd & Hkeys & Hinfo).
    unfold add_sample. set (date := date_of (s_dt x)).
    set (g1 := if dict_has date g then g else g ++ [(date, empty_day)]).
    assert (Hnd1 : NoDup (map fst g1)).
    { unfold g1. destruct (dict_has date g) eqn:E; [exact Hnd|].
      rewrite map_app. simpl. apply NoDup_snoc; [exact Hnd|].
      intros Hin. apply dict_has_In in Hin. congruence. }
    assert (Hkeys1 : forall d, In d (map fst g1)
                       <-> In d (map (fun s => date_of (s_dt s)) (l ++ [x]))).
    { intros d. rewrite map_app, in_app_iff. simpl. fold date. unfold g1.
      destruct (dict_has date g) eqn:E.
      - rewrite Hkeys. split; [intros H; left; exact H|]. intros [H|[<-|[]]]; [exact H|].
        apply Hkeys. apply dict_has_In. exact E.
      - rewrite map_app, in_app_iff. simpl. rewrite Hkeys. reflexivity. }
    assert (Hinfo1 : forall d info, In (d, info) g1 ->
                       info = info_of (on_date d l)).
    { intros d info. unfold g1. destruct (dict_has date g) eqn:E; [apply Hinfo|].
      rewrite in_app_iff. intros [Hin|[Hin|[]]]; [apply Hinfo; exact Hin|].
      injection Hin as <- <-. rewrite on_date_nil; [reflexivity|].
      rewrite <- Hkeys. intros Hin. apply dict_has_In in Hin. congruence. }
    split; [rewrite dict_update_keys; exact Hnd1|].
    split; [intros d; rewrite dict_update_keys; apply Hkeys1|].
    intros d info Hin. apply dict_update_In in Hin; [|exact Hnd1].
    rewrite on_date_snoc. fold date.
    destruct Hin as [[Hne Hin]|[-> [info0 [Hin ->]]]].
    + assert (E : PyStr.eqb date d = false) by (apply eqb_neq; congruence).
      rewrite E, app_nil_r. apply Hinfo1. exact Hin.
    + rewrite eqb_refl, info_of_snoc. rewrite <- (Hinfo1 _ _ Hin). reflexivity.
Qed.

Lemma summarize_Ret (d : str) (info : day_info) (fd : forecast_day) :
  summarize (d, info) = Ret fd ->
  exists total avg desc ic,
    py_sum (float_sum py) (temps info) = Ret total
    /\ py_truediv total (Z.of_nat (List.length (temps info))) = Ret avg
    /\ most_common (descriptions info) = Ret desc
    /\ most_common (icons info) = Ret ic
    /\ fd = {| fd_date := d; fd_temp := py_round1 (PyFloat avg);
               fd_description := desc; fd_icon := ic |}.
Proof.
  unfold summarize. intros H.
  apply bind_Ret in H. destruct H as [total [Ht H]].
  apply bind_Ret in H. destruct H as [avg [Ha H]].
  apply bind_Ret in H. destruct H as [desc [Hd H]].
  apply bind_Ret in H. destruct H as [ic [Hi H]].
  injection H as <-. exists total, avg, desc, ic. auto.
Qed.

Lemma Forall2_In_r {A B : Type} (R : A -> B -> Prop) (l : list A) (l' : list B) (y : B) :
  Forall2 R l l' -> In y l' -> exists x, In x l /\ R x y.
Proof.
  induction 1 as [|a b l l' Hab Hl IH]; intros Hin; [contradiction|].
  destruct Hin as [<-|Hin].
  - exists a. split; [left; reflexivity | exact Hab].
  - destruct (IH Hin) as [x [Hx Hr]]. exists x. split; [right; exact Hx | exact Hr].
Qed.

Lemma Forall2_In_l {A B : Type} (R : A -> B -> Prop) (l : list A) (l' : list B) (x : A) :
  Forall2 R l l' -> In x l -> exists y, In y l' /\ R x y.
Proof.
  induction 1 as [|a b l l' Hab Hl IH]; intros Hin; [contradiction|].
  destruct Hin as [<-|Hin].
  - exists b. split; [left; reflexivity | exact Hab].
  - destruct (IH Hin) as [y [Hy Hr]]. exists y. split; [right; exact Hy | exact Hr].
Qed.

(** What [forecast_days] emits: one day per date of the samples, each
    summarising the samples of its date. *)
Lemma forecast_days_spec (samples : list sample) (days : list forecast_day) :
  forecast_days samples = Ret days ->
  NoDup (map fd_date days)
  /\ (forall d, In d (map fd_date days)
        <-> In d (map (fun s => date_of (s_dt s)) samples))
  /\ (forall fd, In fd days ->
        summarize (fd_date fd, info_of (on_date (fd_date fd) samples)) = Ret fd).
Proof.
  unfold forecast_days. intros H. apply map_res_Ret in H.
  destruct (group_by_date_invariant samples) as (Hnd & Hkeys & Hinfo).
  assert (Hdates : map fd_date days = map fst (group_by_date samples)).
  { clear - H. induction H as [|[d info] fd g days Hs Hrest IH]; [reflexivity|].
    simpl. rewrite IH. apply summarize_Ret in Hs.
    destruct Hs as (? & ? & ? & ? & _ & _ & _ & _ & ->). reflexivity. }
  rewrite Hdates. split; [exact Hnd|]. split; [exact Hkeys|].
  intros fd Hfd. destruct (@Forall2_In_r _ _ _ _ _ fd H Hfd) as [[d info] [Hin Hs]].
  pose proof Hs as Hs'. apply summarize_Ret in Hs'.
  destruct Hs' as (? & ? & ? & ? & _ & _ & _ & _ & E).
  assert (Ed : fd_date fd = d) by (rewrite E; reflexivity).
  rewrite Ed, <- (Hinfo _ _ Hin). exact Hs.
Qed.

Lemma on_date_all (d : str) (l : list sample) :
  (forall s, In s l -> date_of (s_dt s) = d) -> on_date d l = l.
Proof.
  induction l as [|x l IH]; simpl; intros H; [reflexivity|].
  rewrite (H x) by (left; reflexivity). rewrite eqb_refl.
  rewrite IH; [reflexivity|]. intros s Hs. apply H. right. exact Hs.
Qed.

Lemma NoDup_constant {A B : Type} (f : A -> B) (l : list A) (b : B) (y : A) :
  NoDup (map f l) -> (forall x, In x l -> f x = b) -> In y l -> l = [y].
Proof.
  intros Hnd Hall Hy. destruct l as [|x [|x' l]].
  - destruct Hy.
  - destruct Hy as [<-|[]]. reflexivity.
  - exfalso. simpl in Hnd. inversion Hnd as [|? ? Hnotin _]; subst.
    apply Hnotin. left.
    rewrite (Hall x) by (left; reflexivity).
    rewrite (Hall x') by (right; left; reflexivity). reflexivity.
Qed.

(** The sum of integers is exact, whatever the interpreter. *)
Lemma py_sum_ints_exact (fs : list Z -> float -> list pynum -> res pynum)
    (seen zs : list Z) :
  py_sum_ints fs seen (map PyInt zs) = Ret (PyInt (total (seen ++ zs))).
Proof.
  revert seen. induction zs as [|z zs IH]; intros seen; simpl.
  - rewrite app_nil_r. reflexivity.
  - rewrite IH, <- app_assoc. reflexivity.
Qed.

(** The rounding of [round]: to the nearest integer, ties to the even
    one. *)
Lemma round_half_even_shift_spec (num k : Z) :
  0 <= num -> 0 < k -> nearest_integer num k (round_half_even_shift num k).
Proof.
  intros Hnum Hk. unfold nearest_integer, round_half_even_shift.
  rewrite Z.shiftr_div_pow2, !Z.shiftl_mul_pow2 by lia.
  assert (Hp : 2 ^ k = 2 * 2 ^ (k - 1)).
  { replace k with (Z.succ (k - 1)) at 1 by lia. apply Z.pow_succ_r. lia. }
  assert (Hhalf : 0 < 2 ^ (k - 1)) by (apply Z.pow_pos_nonneg; lia).
  pose proof (Z.div_mod num (2 ^ k)) as Hdiv.
  pose proof (Z.mod_pos_bound num (2 ^ k)) as Hmod.
  set (q := num / 2 ^ k) in *. set (r := num mod 2 ^ k) in *.
  set (half := 2 ^ (k - 1)) in *. set (P := 2 ^ k) in *.
  assert (Hq : num = P * q + r) by (apply Hdiv; lia).
  assert (Hr : 0 <= r < P) by (apply Hmod; lia).
  replace (1 * half) with half by lia.
  replace (num - q * P) with r by lia.
  destruct (Z.ltb_spec r half) as [Hlt|Hge].
  - split; lia.
  - destruct (Z.ltb_spec half r) as [Hgt|Hle].
    + split; lia.
    + assert (Htie : r = half) by lia.
      destruct (Z.even q) eqn:Eq.
      * split; [lia | intros _; exact Eq].
      * split; [lia|]. intros _. rewrite Z.add_1_r, Z.even_succ.
        rewrite <- Z.negb_even, Eq. reflexivity.
Qed.

Lemma round1_float_spec (x : float) : rounded_to_tenth x (round1_float x).
Proof.
  unfold rounded_to_tenth, round1_float.
  destruct (Prim2SF x) as [s|s| |s m e]; try reflexivity.
  destruct (0 <=? e) eqn:E; [reflexivity|].
  apply Z.leb_gt in E.
  exists (round_half_even_shift (10 * Z.pos m) (- e)).
  split; [apply round_half_even_shift_spec; lia|].
  destruct (round_half_even_shift (10 * Z.pos m) (- e)); reflexivity.
Qed.

(** C7: every date of the samples has exactly one emitted day.  Its
    temperature is [round(sum / len, 1)] of the temperatures of that date's
    samples: the quotient of their sum by their number, rounded to the
    nearest multiple of one tenth (to the even one when it lies half way)
    and stored as the nearest float.  When the temperatures are integers
    their sum is exact and the quotient is the float nearest to the mean.
    When the samples are eight samples of one date with the temperatures 10,
    12, 14, 16, 12, 10, 14, 12 the one emitted day has the temperature 12.5
    (for floats: with the additions of CPython up to 3.11 and with those of
    3.12). *)
Theorem forecast_temp_is_rounded_mean (samples : list sample) (days : list forecast_day) :
  forecast_days samples = Ret days ->
  NoDup (map fd_date days)
  /\ (forall d, In d (map (fun s => date_of (s_dt s)) samples) ->
        exists fd sum avg r,
          In fd days /\ fd_date fd = d
          /\ py_sum (float_sum py) (map s_temp (on_date d samples)) = Ret sum
          /\ py_truediv sum (Z.of_nat (List.length (on_date d samples))) = Ret avg
          /\ fd_temp fd = PyFloat r
          /\ rounded_to_tenth avg r
          /\ (forall zs, map s_temp (on_date d samples) = map PyInt zs ->
              sum = PyInt (total zs)
              /\ avg = SF2Prim (sf_quot (total zs) (Z.of_nat (List.length zs)))))
  /\ (forall d,
        (forall s, In s samples -> date_of (s_dt s) = d) ->
        map s_temp samples = map PyInt [10; 12; 14; 16; 12; 10; 14; 12]
        \/ (map s_temp samples = map PyFloat [10; 12; 14; 16; 12; 10; 14; 12]%float
            /\ ((forall seen x rest, float_sum py seen x rest = plain_float_sum seen x rest)
                \/ (forall seen x rest,
                      float_sum py seen x rest = compensated_float_sum seen x rest))) ->
        exists fd, days = [fd] /\ fd_date fd = d /\ fd_temp fd = PyFloat 12.5%float).
Proof.
  intros H. destruct (forecast_days_spec samples H) as (Hnd & Hdates & Hsum).
  assert (Hgen : forall d, In d (map (fun s => date_of (s_dt s)) samples) ->
        exists fd sum avg,
          In fd days /\ fd_date fd = d
          /\ py_sum (float_sum py) (map s_temp (on_date d samples)) = Ret sum
          /\ py_truediv sum (Z.of_nat (List.length (on_date d samples))) = Ret avg
          /\ fd_temp fd = py_round1 (PyFloat avg)).
  { intros d Hd. apply Hdates in Hd. apply in_map_iff in Hd.
    destruct Hd as [fd [<- Hfd]]. specialize (Hsum fd Hfd).
    apply summarize_Ret in Hsum.
    destruct Hsum as (sum & avg & desc & ic & Ht & Ha & _ & _ & E).
    exists fd, sum, avg. simpl in Ht, Ha. rewrite length_map in Ha.
    repeat split; try assumption. rewrite E at 1. reflexivity. }
  split; [exact Hnd|]. split.
  - intros d Hd. destruct (Hgen d Hd) as (fd & sum & avg & Hfd & Hdate & Ht & Ha & Htemp).
    exists fd, sum, avg, (round1_float avg).
    split; [exact Hfd|]. split; [exact Hdate|]. split; [exact Ht|].
    split; [exact Ha|]. split; [exact Htemp|]. split; [apply round1_float_spec|].
    intros zs Hzs. rewrite Hzs in Ht. unfold py_sum in Ht.
    rewrite py_sum_ints_exact in Ht. simpl app in Ht. injection Ht as <-.
    split; [reflexivity|].
    assert (Hlen : List.length (on_date d samples) = List.length zs).
    { rewrite <- (length_map s_temp), Hzs, length_map. reflexivity. }
    rewrite Hlen in Ha. unfold py_truediv in Ha.
    destruct (Z.of_nat (List.length zs) =? 0); [discriminate|].
    destruct (sf_is_finite _); [|discriminate]. injection Ha as <-. reflexivity.
  - intros d Hall Htemps.
    assert (Hlen : List.length samples = 8%nat).
    { rewrite <- (length_map s_temp). destruct Htemps as [-> | [-> _]]; reflexivity. }
    assert (Hd : In d (map (fun s => date_of (s_dt s)) samples)).
    { destruct samples as [|s0 rest]; [discriminate|].
      left. apply Hall. left. reflexivity. }
    destruct (Hgen d Hd) as (fd & sum & avg & Hfd & Hdate & Ht & Ha & Htemp).
    rewrite on_date_all in Ht, Ha by exact Hall.
    rewrite Hlen in Ha.
    assert (Ea : avg = 12.5%float).
    { destruct Htemps as [Htemps|[Htemps Hfs]]; rewrite Htemps in Ht.
      - assert (Et : sum = PyInt 100) by (vm_compute in Ht; congruence). subst sum.
        vm_compute in Ha. congruence.
      - assert (Et : sum = PyFloat 100%float).
        { unfold py_sum in Ht. cbn [map py_sum_ints] in Ht.
          destruct Hfs as [Hfs|Hfs]; rewrite Hfs in Ht; vm_compute in Ht; congruence. }
        subst sum. vm_compute in Ha. congruence. }
    subst avg.
    exists fd. split; [|split; [exact Hdate | rewrite Htemp; vm_compute; reflexivity]].
    apply NoDup_constant with (f := fd_date) (b := d); [exact Hnd| |exact Hfd].
    intros fd' Hfd'.
    assert (Hin : In (fd_date fd') (map (fun s => date_of (s_dt s)) samples))
      by (apply Hdates; apply in_map; exact Hfd').
    apply in_map_iff in Hin. destruct Hin as [s [<- Hs]]. apply Hall. exact Hs.
Qed.

(** ** The most common description and icon *)

Lemma py_max_from_first (key : str -> nat) (best : str) (l : list str) :
  exists before after,
    best :: l = before ++ py_max_from key best l :: after
    /\ (forall x, In x before -> (key x < key (py_max_from key best l))%nat)
    /\ (forall x, In x after -> (key x <= key (py_max_from key best l))%nat).
Proof.
  revert best. induction l as [|x l IH]; intros best; simpl.
  - exists [], []. repeat split; contradiction.
  - destruct (Nat.ltb_spec (key best) (key x)) as [Hlt|Hge].
    + destruct (IH x) as (before & after & E & Hb & Ha).
      remember (py_max_from key x l) as r eqn:Er.
      assert (Hx : (key x <= key r)%nat).
      { destruct before as [|b before'].
        - simpl in E. injection E as E1 _. rewrite E1. lia.
        - simpl in E. injection E as E1 _. subst b.
          apply Nat.lt_le_incl. apply Hb. left. reflexivity. }
      exists (best :: before), after. repeat split.
      * simpl. f_equal. exact E.
      * intros y [<-|Hy]; [lia | apply Hb; exact Hy].
      * exact Ha.
    + destruct (IH best) as (before & after & E & Hb & Ha).
      remember (py_max_from key best l) as r eqn:Er.
      destruct before as [|b before'].
      * simpl in E. injection E as E1 E2. exists [], (x :: after). repeat split.
        -- simpl. congruence.
        -- contradiction.
        -- intros y [<-|Hy]; [rewrite <- E1; exact Hge | apply Ha; exact Hy].
      * simpl in E. injection E as E1 E2. subst b.
        assert (Hbest : (key best < key r)%nat) by (apply Hb; left; reflexivity).
        exists (best :: x :: before'), after. repeat split.
        -- simpl. do 2 f_equal. exact E2.
        -- intros y [<-|[<-|Hy]]; [exact Hbest | lia | apply Hb; right; exact Hy].
        -- exact Ha.
Qed.

Lemma count_not_in (x : str) (l : list str) : ~ In x l -> count x l = 0%nat.
Proof.
  unfold count. induction l as [|y l IH]; simpl; intros H; [reflexivity|].
  destruct (PyStr.eqb x y) eqn:E.
  - apply eqb_eq in E. exfalso. apply H. left. congruence.
  - apply IH. intros Hin. apply H. right. exact Hin.
Qed.

Lemma count_in (x : str) (l : list str) : In x l -> (1 <= count x l)%nat.
Proof.
  unfold count. induction l as [|y l IH]; simpl; intros H; [contradiction|].
  destruct (PyStr.eqb x y) eqn:E; [simpl; lia|].
  destruct H as [->|H]; [rewrite eqb_refl in E; discriminate | apply IH; exact H].
Qed.

(** What [max(set(l), key=l.count)] returns for a non-empty [l]. *)
Lemma most_common_spec (l : list str) (best : str) :
  set_iter_ok -> most_common l = Ret best ->
  first_largest_in (set_iter l) l best
  /\ In best l
  /\ (forall x, (count x l <= count best l)%nat).
Proof.
  intros Hok H. unfold most_common, py_max in H.
  destruct (set_iter l) as [|x0 rest] eqn:Eset; [discriminate|].
  injection H as H.
  destruct (py_max_from_first (fun x => count x l) x0 rest)
    as (before & after & E & Hb & Ha).
  rewrite H in E, Hb, Ha.
  assert (Hfirst : first_largest_in (x0 :: rest) l best).
  { exists before, after. auto. }
  destruct (Hok l) as [_ Hmem]. rewrite Eset in Hmem.
  assert (Hin : In best l).
  { apply Hmem. rewrite E. apply in_or_app. right. left. reflexivity. }
  split; [exact Hfirst|]. split; [exact Hin|].
  intros x. destruct (in_dec (list_eq_dec N.eq_dec) x l) as [Hx|Hx].
  - apply Hmem in Hx. rewrite E in Hx. apply in_app_or in Hx.
    destruct Hx as [Hx|[<-|Hx]].
    + apply Nat.lt_le_incl. apply Hb. exact Hx.
    + lia.
    + apply Ha. exact Hx.
  - rewrite (count_not_in _ _ Hx). lia.
Qed.

(** C1 (as the code has it): every emitted day carries a description and
    an icon that occur most often among the samples of its date; among the
    values with the largest count, the one that the iteration of the set of
    values meets first is selected. *)
Theorem forecast_most_common (samples : list sample) (days : list forecast_day) :
  set_iter_ok ->
  forecast_days samples = Ret days ->
  forall fd, In fd days ->
    let descs := map s_description (on_date (fd_date fd) samples) in
    let ics := map s_icon (on_date (fd_date fd) samples) in
    (In (fd_description fd) descs
     /\ (forall x, (count x descs <= count (fd_description fd) descs)%nat)
     /\ first_largest_in (set_iter descs) descs (fd_description fd))
    /\ (In (fd_icon fd) ics
        /\ (forall x, (count x ics <= count (fd_icon fd) ics)%nat)
        /\ first_largest_in (set_iter ics) ics (fd_icon fd)).
Proof.
  intros Hok H fd Hfd descs ics.
  destruct (forecast_days_spec samples H) as (_ & _ & Hsum).
  specialize (Hsum fd Hfd). apply summarize_Ret in Hsum.
  destruct Hsum as (total & avg & desc & ic & _ & _ & Hd & Hi & E).
  simpl in Hd, Hi. fold descs in Hd. fold ics in Hi.
  destruct (most_common_spec _ Hok Hd) as (Hd1 & Hd2 & Hd3).
  destruct (most_common_spec _ Hok Hi) as (Hi1 & Hi2 & Hi3).
  assert (Edesc : fd_description fd = desc) by (rewrite E; reflexivity).
  assert (Eic : fd_icon fd = ic) by (rewrite E; reflexivity).
  rewrite Edesc, Eic. repeat split; assumption.
Qed.

(** ** The TTL cache *)

Lemma find_app_none {A : Type} (f : A -> bool) (l l' : list A) :
  find f l = None -> find f (l ++ l') = find f l'.
Proof.
  induction l as [|x l IH]; simpl; [reflexivity|].
  destruct (f x); [discriminate | exact IH].
Qed.

Lemma find_filter_negb {A : Type} (f : A -> bool) (l : list A) :
  find f (filter (fun x => negb (f x)) l) = None.
Proof.
  induction l as [|x l IH]; simpl; [reflexivity|].
  destruct (f x) eqn:E; simpl; [exact IH | rewrite E; exact IH].
Qed.

(** A value that was stored is found while its time to live lasts, and not
    after. *)
Lemma get_setitem {V : Type} (maxsize : nat) (ttl : Z) (c : TTLCache.t V)
    (now now' : Z) (k : str) (v : V) :
  fst (TTLCache.get (TTLCache.setitem maxsize ttl c now k v) now' k)
  = if now' <? now + ttl then Some v else None.
Proof.
  unfold TTLCache.get, TTLCache.find_link, TTLCache.setitem. simpl.
  rewrite find_app_none by apply (find_filter_negb (TTLCache.has_key k)).
  simpl. unfold TTLCache.has_key at 1. simpl. rewrite eqb_refl. simpl.
  destruct (now' <? now + ttl); reflexivity.
Qed.

(** A lookup that misses at some time misses at every later time, as long
    as nothing is stored. *)
Lemma get_falsy_later (c : TTLCache.t (list place)) (t t' : Z) (k : str) :
  falsy (fst (TTLCache.get c t k)) -> t <= t' ->
  falsy (fst (TTLCache.get (snd (TTLCache.get c t k)) t' k)).
Proof.
  unfold TTLCache.get, TTLCache.find_link. intros H Ht.
  destruct (find (TTLCache.has_key k) (TTLCache.links c)) as [l|] eqn:E.
  - destruct (Z.ltb_spec t (TTLCache.l_expires l)) as [Hlive|Hdead]; simpl in *.
    + rewrite E. destruct (t' <? TTLCache.l_expires l); simpl; [exact H | left; reflexivity].
    + rewrite E. destruct (Z.ltb_spec t' (TTLCache.l_expires l)); [lia|].
      left. reflexivity.
  - simpl. rewrite E. left. reflexivity.
Qed.

(** ** The search handler *)

Lemma send_search_facts (w : world) (q : str) :
  sent (snd (send_search w q)) = sent w ++ [GeoSearch q]
  /\ search_cache (snd (send_search w q)) = search_cache w
  /\ forecast_cache (snd (send_search w q)) = forecast_cache w
  /\ clock w <= clock (snd (send_search w q)).
Proof. unfold send_search. simpl. repeat split. lia. Qed.

Lemma search_try_facts (w : world) (query country : str) (page : Z) (cache_key q : str) :
  (exists more, sent (snd (search_try w query country page cache_key q))
                = sent w ++ GeoSearch q :: more)
  /\ clock w <= clock (snd (search_try w query country page cache_key q))
  /\ match fst (search_try w query country page cache_key q) with
     | Ret resp =>
         exists w' l, snd (search_try w query country page cache_key q)
                      = store_search w' cache_key l
                      /\ resp = ok_places l /\ search_cache w' = search_cache w
     | Raise _ =>
         search_cache (snd (search_try w query country page cache_key q)) = search_cache w
     end.
Proof.
  unfold search_try.
  destruct (send_search_facts w q) as (Hs & Hc & _ & Ht).
  destruct (send_search w q) as [r w1]. simpl in Hs, Hc, Ht.
  destruct r as [data|e].
  - destruct (collect ([], []) data) as [seen results].
    set (pg := py_slice (sort_by_name results) ((page - 1) * 100) ((page - 1) * 100 + 100)).
    destruct (if is_empty pg then fallback_for query country else None) as [city|].
    + destruct (send_search_facts w1 (city ++ lit ",," ++ country)) as (Hs2 & Hc2 & _ & Ht2).
      destruct (send_search w1 (city ++ lit ",," ++ country)) as [r2 w2].
      simpl in Hs2, Hc2, Ht2.
      destruct r2 as [data2|e2]; simpl.
      * split; [|split].
        -- exists [GeoSearch (city ++ lit ",," ++ country)].
           rewrite Hs2, Hs, <- app_assoc. reflexivity.
        -- lia.
        -- eexists w2, _. repeat split. congruence.
      * split; [|split].
        -- exists [GeoSearch (city ++ lit ",," ++ country)].
           rewrite Hs2, Hs, <- app_assoc. reflexivity.
        -- lia.
        -- congruence.
    + simpl. split; [|split].
      * exists []. exact Hs.
      * exact Ht.
      * eexists w1, _. repeat split. exact Hc.
  - simpl. split; [|split].
    + exists []. exact Hs.
    + exact Ht.
    + exact Hc.
Qed.

Lemma search_not_found_facts (w : world) (query country cache_key : str) :
  (exists more, sent (snd (search_not_found w query country cache_key)) = sent w ++ more)
  /\ clock w <= clock (snd (search_not_found w query country cache_key))
  /\ stored_or_kept cache_key (search_cache w)
       (fst (search_not_found w query country cache_key))
       (snd (search_not_found w query country cache_key)).
Proof.
  unfold search_not_found.
  destruct (fallback_for query country) as [city|].
  - destruct (send_search_facts w (city ++ lit ",," ++ country)) as (Hs & Hc & _ & Ht).
    destruct (send_search w (city ++ lit ",," ++ country)) as [r w1].
    simpl in Hs, Hc, Ht.
    destruct r as [data|e].
    + simpl. split; [eexists; exact Hs|]. split; [exact Ht|].
      left. eexists w1, _. repeat split. exact Hc.
    + assert (Hkeep : forall resp, (forall p ps, resp <> ok_places (p :: ps)) ->
                stored_or_kept cache_key (search_cache w) resp w1).
      { intros resp Hresp. right. split; [exact Hc | exact Hresp]. }
      destruct e; simpl; (split; [eexists; exact Hs|]); (split; [exact Ht|]);
        apply Hkeep; intros p ps; discriminate.
  - simpl. split; [exists []; rewrite app_nil_r; reflexivity|]. split; [lia|].
    right. split; [reflexivity|]. intros p ps. discriminate.
Qed.

(** The four ways through [search_locations] once the page is read: the country is rejected, the
    cache answers, there is nothing to ask, or the provider is called. *)
Lemma search_locations_cases (w : world) (q_arg country_arg : str) (page : Z) :
  let query := lower (strip q_arg) in
  let country := upper (strip country_arg) in
  let cache_key := search_cache_key query country page in
  let g := TTLCache.get (search_cache w) (clock w) cache_key in
  let w0 := {| clock := clock w; search_cache := snd g;
               forecast_cache := forecast_cache w; sent := sent w |} in
  let out := search_page w q_arg country_arg page in
  (negb (validate_country country) && PyStr.truthy country = true
   /\ out = (ok_places [], w))
  \/ (negb (validate_country country) && PyStr.truthy country = false
      /\ ((exists p ps, fst g = Some (p :: ps) /\ out = (ok_places (p :: ps), w0))
          \/ (falsy (fst g) /\ provider_query query country = None
              /\ out = (ok_places [], w0))
          \/ (falsy (fst g)
              /\ exists q, provider_query query country = Some q
                 /\ (exists more, sent (snd out) = sent w ++ GeoSearch q :: more)
                 /\ clock w <= clock (snd out)
                 /\ stored_or_kept cache_key (snd g) (fst out) (snd out)))).
Proof.
  intros query country cache_key g w0 out.
  assert (Hout : out =
    if negb (validate_country country) && PyStr.truthy country then (ok_places [], w)
    else match fst g with
         | Some (p :: ps) => (ok_places (p :: ps), w0)
         | _ =>
             match provider_query query country with
             | None => (ok_places [], w0)
             | Some q =>
                 match search_try w0 query country page cache_key q with
                 | (Ret resp, w1) => (resp, w1)
                 | (Raise (HTTPError code), w1) =>
                     if code =? 404 then search_not_found w1 query country cache_key
                     else (failure 500 GeocodingApiError, w1)
                 | (Raise RequestException, w1) => (failure 500 NetworkError, w1)
                 | (Raise _, w1) => (failure 500 UnexpectedError, w1)
                 end
             end
         end).
  { unfold out, search_page. fold query country. fold cache_key. fold g.
    unfold w0. destruct g as [cached sc]. reflexivity. }
  clearbody out.
  destruct (negb (validate_country country) && PyStr.truthy country) eqn:Eguard;
    [left; split; [reflexivity | exact Hout]|].
  right. split; [reflexivity|].
  assert (Hmiss : falsy (fst g) ->
    out = match provider_query query country with
          | None => (ok_places [], w0)
          | Some q =>
              match search_try w0 query country page cache_key q with
              | (Ret resp, w1) => (resp, w1)
              | (Raise (HTTPError code), w1) =>
                  if code =? 404 then search_not_found w1 query country cache_key
                  else (failure 500 GeocodingApiError, w1)
              | (Raise RequestException, w1) => (failure 500 NetworkError, w1)
              | (Raise _, w1) => (failure 500 UnexpectedError, w1)
              end
          end ->
    (falsy (fst g) /\ provider_query query country = None /\ out = (ok_places [], w0))
    \/ (falsy (fst g)
        /\ exists q, provider_query query country = Some q
           /\ (exists more, sent (snd out) = sent w ++ GeoSearch q :: more)
           /\ clock w <= clock (snd out)
           /\ stored_or_kept cache_key (snd g) (fst out) (snd out))).
  { intros Hf Hout'. destruct (provider_query query country) as [q|]; [|left; auto].
    right. split; [exact Hf|]. exists q. split; [reflexivity|].
    destruct (search_try_facts w0 query country page cache_key q)
      as ([more Hs] & Ht & Hr).
    destruct (search_try w0 query country page cache_key q) as [r w1].
    simpl in Hs, Ht, Hr. rewrite Hout'.
    assert (Hkeep : forall resp, (forall p ps, resp <> ok_places (p :: ps)) ->
              search_cache w1 = snd g ->
              stored_or_kept cache_key (snd g) resp w1).
    { intros resp Hresp Hc. right. split; assumption. }
    destruct r as [resp|e].
    - simpl. split; [exists more; exact Hs|]. split; [exact Ht|].
      destruct Hr as (w' & l & Hw & Hresp & Hc). left. exists w', l. auto.
    - simpl in Hr.
      destruct e; simpl;
        try (split; [exists more; exact Hs|]; split; [exact Ht|];
             apply Hkeep; [intros p ps; discriminate | exact Hr]).
      destruct (status_code =? 404).
      + destruct (search_not_found_facts w1 query country cache_key)
          as ([more2 Hs2] & Ht2 & Hk).
        split; [|split].
        * exists (more ++ more2). rewrite Hs2, Hs, <- app_assoc. reflexivity.
        * lia.
        * rewrite Hr in Hk. exact Hk.
      + simpl. split; [exists more; exact Hs|]. split; [exact Ht|].
        apply Hkeep; [intros p ps; discriminate | exact Hr]. }
  destruct (fst g) as [[|p ps]|] eqn:Ef.
  - right. apply Hmiss; [right; reflexivity | exact Hout].
  - left. exists p, ps. split; [reflexivity | exact Hout].
  - right. apply Hmiss; [left; reflexivity | exact Hout].
Qed.

(** What a search that went upstream and answered [resp] left in the
    cache. *)
Lemma search_went_upstream (w : world) (q_arg country_arg : str) (page : Z)
    (resp : response) (w1 : world) :
  search_page w q_arg country_arg page = (resp, w1) ->
  sent w1 <> sent w ->
  let query := lower (strip q_arg) in
  let country := upper (strip country_arg) in
  let cache_key := search_cache_key query country page in
  let g := TTLCache.get (search_cache w) (clock w) cache_key in
  negb (validate_country country) && PyStr.truthy country = false
  /\ falsy (fst g)
  /\ (exists q, provider_query query country = Some q)
  /\ clock w <= clock w1
  /\ stored_or_kept cache_key (snd g) resp w1.
Proof.
  intros Hrun Hsent query country cache_key g.
  pose proof (search_locations_cases w q_arg country_arg page) as H.
  cbv zeta in H. fold query country in H. fold cache_key in H. fold g in H.
  rewrite Hrun in H. simpl fst in H. simpl snd in H.
  destruct H as [[_ H]|[Hguard [H|[H|H]]]].
  - injection H as _ E. subst w1. contradiction.
  - destruct H as (p & ps & _ & H). injection H as _ E. subst w1. contradiction.
  - destruct H as (_ & _ & H). injection H as _ E. subst w1. contradiction.
  - destruct H as (Hf & q & Hq & _ & Ht & Hk).
    split; [exact Hguard|]. split; [exact Hf|]. split; [exists q; exact Hq|].
    split; assumption.
Qed.

(** A repeated search whose cache lookup misses calls the provider. *)
Lemma search_miss_sends (w : world) (q_arg country_arg : str) (page : Z) (q : str) :
  let query := lower (strip q_arg) in
  let country := upper (strip country_arg) in
  let cache_key := search_cache_key query country page in
  negb (validate_country country) && PyStr.truthy country = false ->
  provider_query query country = Some q ->
  falsy (fst (TTLCache.get (search_cache w) (clock w) cache_key)) ->
  exists more,
    sent (snd (search_page w q_arg country_arg page)) = sent w ++ GeoSearch q :: more.
Proof.
  intros query country cache_key Hguard Hq Hf.
  pose proof (search_locations_cases w q_arg country_arg page) as H.
  cbv zeta in H. fold query country in H. fold cache_key in H.
  destruct H as [[H _]|[_ [H|[H|H]]]].
  - congruence.
  - destruct H as (p & ps & H & _). rewrite H in Hf.
    destruct Hf as [Hf|Hf]; discriminate.
  - destruct H as (_ & H & _). congruence.
  - destruct H as (_ & q' & Hq' & Hs & _).
    assert (q' = q) by congruence. subst q'. exact Hs.
Qed.

(** The page is read first. *)
Lemma search_locations_page (w : world) (q_arg country_arg : str)
    (page_arg : option str) (page : Z) :
  parse_page page_arg = Ret page ->
  search_locations w q_arg country_arg page_arg = search_page w q_arg country_arg page.
Proof. intros H. unfold search_locations. rewrite H. reflexivity. Qed.

Lemma search_locations_no_page (w : world) (q_arg country_arg : str)
    (page_arg : option str) (e : exn) :
  parse_page page_arg = Raise e ->
  search_locations w q_arg country_arg page_arg = (uncaught e, w).
Proof. intros H. unfold search_locations. rewrite H. reflexivity. Qed.

(** A search that answers a list has read its page. *)
Lemma search_places_page (w : world) (q_arg country_arg : str)
    (page_arg : option str) (l : list place) (w1 : world) :
  search_locations w q_arg country_arg page_arg = (ok_places l, w1) ->
  exists page, parse_page page_arg = Ret page.
Proof.
  unfold search_locations. destruct (parse_page page_arg) as [page|e].
  - intros _. exists page. reflexivity.
  - discriminate.
Qed.

(** C10: when a search went upstream and answered the empty list, the same
    search at any later time calls the geocoding provider again; this is so
    also when the empty list was stored and is still within its time to
    live, where the cache lookup returns the stored empty list. *)
Theorem empty_result_is_fetched_again (w : world) (q_arg country_arg : str)
    (page_arg : option str) (w1 : world) :
  search_locations w q_arg country_arg page_arg = (ok_places [], w1) ->
  sent w1 <> sent w ->
  forall d, 0 <= d ->
    (exists q more,
       sent (snd (search_locations (advance d w1) q_arg country_arg page_arg))
       = sent w1 ++ GeoSearch q :: more)
    /\ (forall page, parse_page page_arg = Ret page ->
        (exists w', w1 = store_search w'
                      (search_cache_key (lower (strip q_arg)) (upper (strip country_arg)) page)
                      []) ->
        d < 3600 ->
        fst (TTLCache.get (search_cache w1) (clock w1 + d)
               (search_cache_key (lower (strip q_arg)) (upper (strip country_arg)) page))
        = Some []).
Proof.
  intros Hrun Hsent d Hd.
  destruct (search_places_page _ _ _ _ Hrun) as [page Hpage].
  rewrite (search_locations_page _ _ _ _ Hpage) in Hrun.
  rewrite (search_locations_page _ _ _ _ Hpage).
  destruct (@search_went_upstream _ _ _ _ _ _ Hrun Hsent) as (Hguard & Hf & [q Hq] & Ht & Hk).
  split.
  - exists q.
    apply (@search_miss_sends (advance d w1) q_arg country_arg page q Hguard Hq).
    destruct Hk as [(w' & l & -> & Hl & _)|[Hc _]].
    + injection Hl as <-. simpl. rewrite get_setitem.
      destruct (clock w' + d <? clock w' + 3600); [right | left]; reflexivity.
    + simpl. rewrite Hc. apply get_falsy_later; [exact Hf | lia].
  - intros page' Hpage' [w' ->] Hlt.
    assert (page' = page) by congruence. subst page'.
    simpl. rewrite get_setitem.
    destruct (Z.ltb_spec (clock w' + d) (clock w' + 3600)); [reflexivity | lia].
Qed.

(** ** The weather handler *)

Lemma bind_Raise {A B : Type} (m : res A) (k : A -> res B) (e : exn) :
  bind m k = Raise e -> m = Raise e \/ exists a, m = Ret a /\ k a = Raise e.
Proof.
  destruct m as [a|e']; simpl; intros H; [right; exists a; auto | left; congruence].
Qed.

Lemma py_in_error k data e : py_in k data = Raise e -> data_error e.
Proof. destruct data; simpl; intros H; inversion H; exact I. Qed.

Lemma getitem_error data k e : getitem data k = Raise e -> data_error e.
Proof.
  destruct data; simpl; intros H; try (inversion H; exact I).
  destruct (assoc k fields); inversion H. exact I.
Qed.

Lemma get_error data k e : Json.get data k = Raise e -> data_error e.
Proof. destruct data; simpl; intros H; inversion H; exact I. Qed.

Lemma getitem0_error data e : getitem0 data = Raise e -> data_error e.
Proof.
  destruct data as [| | |s|l|d]; simpl; intros H; try (inversion H; exact I).
  - destruct s; inversion H; exact I.
  - destruct l; inversion H; exact I.
Qed.

Lemma section_get_error data section key e :
  section_get data section key = Raise e -> data_error e.
Proof.
  unfold section_get. intros H. apply bind_Raise in H.
  destruct H as [H|[a [_ H]]]; [eapply getitem_error | eapply get_error]; exact H.
Qed.

Lemma all_in_error fields data e : all_in fields data = Raise e -> data_error e.
Proof.
  induction fields as [|f fields IH]; simpl; intros H; [discriminate|].
  apply bind_Raise in H. destruct H as [H|[b [_ H]]].
  - eapply py_in_error. exact H.
  - destruct b; [apply IH; exact H | discriminate].
Qed.

(** The validator raises nothing but the errors of reading the payload. *)
Lemma validate_weather_data_error (data : json) (e : exn) :
  validate_weather_data data = Raise e -> data_error e.
Proof.
  unfold validate_weather_data. intros H.
  repeat (apply bind_Raise in H;
          destruct H as [H|[? [_ H]]];
          [eauto using all_in_error, section_get_error, getitem_error,
             getitem0_error, get_error|];
          repeat match type of H with
                 | (if ?b then _ else _) = _ => destruct b; [discriminate|]
                 end).
  discriminate.
Qed.

Lemma weather_except_data_error (e : exn) :
  data_error e -> status (weather_except e) = 500
                  /\ forall doc, payload (weather_except e) <> Weather doc.
Proof.
  destruct e; simpl; intros H; try contradiction; split; try reflexivity;
    intros doc; discriminate.
Qed.

(** C8: the weather handler leaves both caches as they are, whatever the
    request and whatever the providers answer. *)
Theorem get_weather_keeps_caches (w : world) (location : option str) :
  search_cache (snd (get_weather w location)) = search_cache w
  /\ forecast_cache (snd (get_weather w location)) = forecast_cache w.
Proof.
  unfold get_weather.
  destruct location as [location|]; [|split; reflexivity].
  destruct (negb (PyStr.truthy location)); [split; reflexivity|].
  destruct (negb (validate_location location)); [split; reflexivity|].
  destruct (normalize_location location) as [nl|]; [|split; reflexivity].
  unfold weather_try, send_lookup.
  destruct (outcome (geo_lookup (List.length (sent w)) nl)) as [geo_data|e];
    [|split; reflexivity].
  destruct (negb (Json.truthy geo_data)); [split; reflexivity|].
  destruct (first_candidate geo_data) as [[[[la lo] city] cc]|e];
    [|split; reflexivity].
  unfold send_weather. cbn [sent clock search_cache forecast_cache].
  destruct (outcome (weather_api _ la lo)) as [data|e]; [|split; reflexivity].
  destruct (format_weather city cc data); split; reflexivity.
Qed.

(** C9: when the weather provider's payload does not pass the validation
    (the validator answers false or fails while reading it), the weather
    handler answers with status 500 and no weather document, and both
    caches are as before. *)
Theorem invalid_weather_payload_is_500
    (w : world) (location nl : str) (geo_data la lo city cc data : json) :
  PyStr.truthy location = true ->
  validate_location location = true ->
  normalize_location location = Some nl ->
  outcome (geo_lookup (List.length (sent w)) nl) = Ret geo_data ->
  Json.truthy geo_data = true ->
  first_candidate geo_data = Ret (la, lo, city, cc) ->
  outcome (weather_api (S (List.length (sent w))) la lo) = Ret data ->
  validate_weather_data data <> Ret true ->
  status (fst (get_weather w (Some location))) = 500
  /\ (forall doc, payload (fst (get_weather w (Some location))) <> Weather doc)
  /\ search_cache (snd (get_weather w (Some location))) = search_cache w
  /\ forecast_cache (snd (get_weather w (Some location))) = forecast_cache w.
Proof.
  intros Hloc Hvalid Hnorm Hgeo Htruthy Hfirst Hweather Hinvalid.
  split; [|split; [|split]];
    unfold get_weather; rewrite Hloc, Hvalid, Hnorm; simpl negb; cbv iota;
    unfold weather_try, send_lookup; rewrite Hgeo, Htruthy; simpl negb; cbv iota;
    rewrite Hfirst; unfold send_weather; cbn [sent clock];
    rewrite length_app, Nat.add_comm; simpl List.length; simpl Nat.add;
    rewrite Hweather; unfold format_weather;
    destruct (validate_weather_data data) as [[|]|e] eqn:Ev;
    try congruence; simpl.
  - reflexivity.
  - apply weather_except_data_error. eapply validate_weather_data_error. exact Ev.
  - intros doc. discriminate.
  - apply weather_except_data_error. eapply validate_weather_data_error. exact Ev.
  - reflexivity.
  - reflexivity.
  - reflexivity.
  - reflexivity.
Qed.


(** * Further properties of the code *)

(** ** Location keys *)

Lemma commas_cons (c : char) (s : str) :
  commas (c :: s) = if (c =? ch ",")%N then S (commas s) else commas s.
Proof.
  unfold commas. cbn [filter]. rewrite (N.eqb_sym (ch ",") c).
  destruct (c =? ch ",")%N; reflexivity.
Qed.

Lemma split_length (s : str) : List.length (split (ch ",") s) = S (commas s).
Proof.
  induction s as [|c s IH]; [reflexivity|].
  rewrite commas_cons. cbn [split].
  destruct (c =? ch ",")%N eqn:E.
  - cbn [List.length]. rewrite IH. reflexivity.
  - destruct (split (ch ",") s) as [|p ps]; cbn [List.length] in *; lia.
Qed.

Lemma split_parts_no_sep sep (s : str) :
  Forall (fun part => ~ In sep part) (split sep s).
Proof.
  induction s as [|c s IH]; simpl.
  - constructor; [intros [] | constructor].
  - destruct ((c =? sep)%N) eqn:E.
    + constructor; [intros [] | exact IH].
    + destruct (split sep s) as [|p ps]; [constructor; [|constructor]|].
      * intros [H|[]]. subst. rewrite N.eqb_refl in E. discriminate.
      * inversion IH; subst. constructor; [|assumption].
        intros [H|H]; [subst; rewrite N.eqb_refl in E; discriminate | contradiction].
Qed.

(** X1: whatever the input, a key that [normalize_location] returns is a
    city token, a comma and a code that the country reference knows; the
    first comma of the key is the one between the two, and the city token
    has at least two characters, no whitespace, no hyphen at either end and
    no two hyphens in a row. *)
Theorem normalize_location_invariant (location k : str) :
  normalize_location location = Some k ->
  exists city cc,
    k = city ++ lit "," ++ cc
    /\ cut_at (ch ",") k = Some (city, cc)
    /\ validate_country cc = true
    /\ (2 <= List.length city)%nat
    /\ no_space city /\ no_edge_hyphen city /\ no_double_hyphen city.
Proof.
  unfold normalize_location. destruct (negb (PyStr.truthy location)); [discriminate|].
  pose proof (split_parts_no_sep (ch ",") location) as Hparts.
  destruct (split (ch ",") location) as [|a [|b [|? ?]]]; try discriminate.
  inversion Hparts as [|? ? Ha Hrest]; subst.
  destruct (validate_country (upper (strip b))) eqn:Ev; [|discriminate]. simpl.
  destruct (PyStr.truthy (normalize_city a)); [|discriminate]. simpl.
  destruct (Nat.ltb_spec (List.length (normalize_city a)) 2) as [|Hlen]; [discriminate|].
  intros H. injection H as <-.
  exists (normalize_city a), (upper (strip b)).
  split; [reflexivity|]. split.
  - change (lit "," ++ upper (strip b)) with (ch "," :: upper (strip b)).
    apply cut_at_app. apply normalize_city_no_comma. exact Ha.
  - split; [exact Ev|]. split; [assumption|].
    split; [apply normalize_city_no_space|].
    split; [apply normalize_city_no_edge_hyphen|].
    apply normalize_city_no_double_hyphen.
Qed.

(** X2: an input that does not have exactly one comma is rejected by
    [normalize_location]. *)
Theorem normalize_location_one_comma (location : str) :
  commas location <> 1%nat -> normalize_location location = None.
Proof.
  intros H. unfold normalize_location.
  destruct (negb (PyStr.truthy location)); [reflexivity|].
  pose proof (split_length location) as Hlen.
  destruct (split (ch ",") location) as [|a [|b [|? ?]]]; try reflexivity.
  simpl in Hlen. exfalso. apply H. lia.
Qed.

Lemma match_city_code_shape (b : bool) (s : str) :
  match_city_code b s = true ->
  exists city u1 u2 tail,
    s = city ++ (ch ",") :: u1 :: u2 :: tail
    /\ ~ In (ch ",") city
    /\ (b = true \/ city <> [])
    /\ isupper u1 = true /\ isupper u2 = true
    /\ (tail = [] \/ tail = [10%N]).
Proof.
  revert b. induction s as [|c s IH]; intros b; cbn [match_city_code]; [discriminate|].
  destruct (c =? ch ",")%N eqn:Ec.
  - apply N.eqb_eq in Ec. subst c. intros H.
    apply andb_true_iff in H. destruct H as [Hb H].
    destruct s as [|u1 [|u2 [|nl [|? ?]]]]; try discriminate.
    + apply andb_true_iff in H. destruct H as [H1 H2].
      exists [], u1, u2, []. repeat split; auto.
    + apply andb_true_iff in H. destruct H as [H H3].
      apply andb_true_iff in H. destruct H as [H1 H2].
      apply N.eqb_eq in H3. subst nl.
      exists [], u1, u2, [10%N]. repeat split; auto.
  - intros H. destruct (IH true H) as (city & u1 & u2 & tail & Hs & Hc & _ & H1 & H2 & Ht).
    exists (c :: city), u1, u2, tail. repeat split; auto.
    + simpl. f_equal. exact Hs.
    + intros [E|Hin]; [|contradiction]. subst c. rewrite N.eqb_refl in Ec. discriminate.
    + right. discriminate.
Qed.

Lemma strip_code_tail (u1 u2 : char) (tail : str) :
  isupper u1 = true -> isupper u2 = true ->
  tail = [] \/ tail = [10%N] ->
  strip (u1 :: u2 :: tail) = [u1; u2].
Proof.
  intros H1 H2 Ht. pose proof (isupper_not_space _ H1) as S1.
  pose proof (isupper_not_space _ H2) as S2.
  unfold strip, strip_by. simpl. rewrite S1. unfold rstrip_by.
  destruct Ht as [-> | ->]; simpl; rewrite S2; reflexivity.
Qed.

(** X3: a location that [validate_location] accepts is a comma-free city
    part, a comma and two capital letters that form a known code, possibly
    followed by one newline; on such a location [normalize_location] fails
    exactly when the normalised city token has fewer than two characters,
    and otherwise returns that token, a comma and the two letters. *)
Theorem validate_then_normalize (location : str) :
  validate_location location = true ->
  exists city u1 u2 tail,
    location = city ++ (ch ",") :: u1 :: u2 :: tail
    /\ ~ In (ch ",") city
    /\ isupper u1 = true /\ isupper u2 = true
    /\ (tail = [] \/ tail = [10%N])
    /\ (2 <= List.length (strip city))%nat
    /\ validate_country [u1; u2] = true
    /\ normalize_location location
       = if (List.length (normalize_city city) <? 2)%nat then None
         else Some (normalize_city city ++ lit "," ++ [u1; u2]).
Proof.
  unfold validate_location.
  destruct (PyStr.truthy location) eqn:Et; cbn [negb]; [|discriminate].
  destruct (contains (lit "unknown city") (lower location)); [discriminate|].
  destruct (match_city_code false location) eqn:Em; cbn [negb]; [|discriminate].
  destruct (match_city_code_shape _ _ Em)
    as (city & u1 & u2 & tail & Hs & Hc & _ & H1 & H2 & Ht).
  assert (Hcode : ~ In (ch ",") (u1 :: u2 :: tail)).
  { intros [E|[E|Hin]].
    - rewrite E in H1. vm_compute in H1. discriminate H1.
    - rewrite E in H2. vm_compute in H2. discriminate H2.
    - destruct Ht as [-> | ->]; [contradiction|].
      destruct Hin as [E|[]]. discriminate E. }
  assert (Hsplit : split (ch ",") location = [city; u1 :: u2 :: tail]).
  { rewrite Hs. rewrite split_app by exact Hc. rewrite split_no_sep by exact Hcode.
    reflexivity. }
  rewrite Hsplit. rewrite (@strip_code_tail u1 u2 tail H1 H2 Ht).
  destruct (Nat.ltb_spec (List.length (strip city)) 2) as [|Hlen]; [discriminate|].
  destruct (validate_country [u1; u2]) eqn:Ev; [|discriminate]. intros _.
  exists city, u1, u2, tail. repeat split; auto.
  unfold normalize_location. rewrite Et, Hsplit. simpl negb. cbv iota.
  rewrite (@strip_code_tail u1 u2 tail H1 H2 Ht).
  replace (upper [u1; u2]) with [u1; u2]
    by (unfold upper; simpl;
        rewrite (isupper_to_upper _ H1), (isupper_to_upper _ H2); reflexivity).
  rewrite Ev. simpl negb. cbv iota.
  destruct (normalize_city city) as [|x [|y rest]]; reflexivity.
Qed.

(** ** The search handler: calls, pages and the cache *)

Lemma search_locations_eq (w : world) (q_arg country_arg : str) (page : Z) :
  let query := lower (strip q_arg) in
  let country := upper (strip country_arg) in
  let cache_key := search_cache_key query country page in
  let g := TTLCache.get (search_cache w) (clock w) cache_key in
  let w0 := {| clock := clock w; search_cache := snd g;
               forecast_cache := forecast_cache w; sent := sent w |} in
  search_page w q_arg country_arg page
  = if negb (validate_country country) && PyStr.truthy country then (ok_places [], w)
    else match fst g with
         | Some (p :: ps) => (ok_places (p :: ps), w0)
         | _ => match provider_query query country with
                | None => (ok_places [], w0)
                | Some q => search_upstream w0 query country page cache_key q
                end
         end.
Proof.
  intros query country cache_key g w0.
  unfold search_page, search_upstream. fold query country. fold cache_key. fold g.
  unfold w0. destruct g as [cached sc]. reflexivity.
Qed.

Lemma get_links {V : Type} (c : TTLCache.t V) (t : Z) (k : str) :
  TTLCache.links (snd (TTLCache.get c t k)) = TTLCache.links c.
Proof.
  unfold TTLCache.get. destruct (TTLCache.find_link k c) as [l|]; [|reflexivity].
  destruct (t <? TTLCache.l_expires l); reflexivity.
Qed.

Lemma key_neq_sym (a b : dedup_key) : key_eqb a b = false -> key_eqb b a = false.
Proof.
  intros H. destruct (key_eqb b a) eqn:E; [|reflexivity].
  apply key_eqb_sym in E. congruence.
Qed.

Lemma distinct_keys_perm (ks ks' : list dedup_key) :
  Permutation ks ks' -> distinct_keys ks -> distinct_keys ks'.
Proof.
  unfold distinct_keys. induction 1 as [|x l l' Hp IH|x y l|l l' l'' H1 IH1 H2 IH2];
    intros H.
  - constructor.
  - inversion H as [|? ? Hx Hl]; subst. constructor; [|apply IH; exact Hl].
    eapply Permutation_Forall; eassumption.
  - inversion H as [|? ? Hy Hl]; subst. inversion Hl as [|? ? Hx Hl']; subst.
    inversion Hy as [|? ? Hyx Hy']; subst.
    constructor; [constructor; [apply key_neq_sym; exact Hyx | exact Hx]|].
    constructor; assumption.
  - apply IH2, IH1, H.
Qed.

Lemma distinct_keys_skipn (n : nat) (ks : list dedup_key) :
  distinct_keys ks -> distinct_keys (skipn n ks).
Proof.
  unfold distinct_keys. revert ks. induction n as [|n IH]; intros ks H; [exact H|].
  destruct ks as [|k ks]; [constructor|]. simpl. apply IH. inversion H; assumption.
Qed.

Lemma In_firstn {A : Type} (n : nat) (l : list A) (x : A) :
  In x (firstn n l) -> In x l.
Proof.
  revert l. induction n as [|n IH]; intros l H; [destruct H|].
  destruct l as [|y l]; [destruct H|]. destruct H as [<-|H]; [left; reflexivity|].
  right. apply IH. exact H.
Qed.

Lemma In_skipn {A : Type} (n : nat) (l : list A) (x : A) :
  In x (skipn n l) -> In x l.
Proof.
  revert l. induction n as [|n IH]; intros l H; [exact H|].
  destruct l as [|y l]; [destruct H|]. right. apply IH. exact H.
Qed.

Lemma distinct_keys_firstn (n : nat) (ks : list dedup_key) :
  distinct_keys ks -> distinct_keys (firstn n ks).
Proof.
  unfold distinct_keys. revert ks. induction n as [|n IH]; intros ks H; [constructor|].
  destruct ks as [|k ks]; [constructor|]. simpl.
  inversion H as [|? ? Hk Hks]; subst. constructor; [|apply IH; exact Hks].
  apply Forall_forall. intros x Hx. rewrite Forall_forall in Hk. apply Hk.
  eapply In_firstn. exact Hx.
Qed.

Lemma py_slice_sub {A : Type} (l : list A) (a b : Z) :
  exists n m, py_slice l a b = firstn n (skipn m l).
Proof. unfold py_slice. eexists _, _. reflexivity. Qed.

Lemma py_slice_length {A : Type} (l : list A) (a : Z) :
  (List.length (py_slice l a (a + 100)) <= 100)%nat.
Proof.
  unfold py_slice. rewrite length_firstn.
  set (n := Z.of_nat (List.length l)).
  assert (Hn : 0 <= n) by (unfold n; lia).
  apply Nat.le_trans with (m := Z.to_nat
    ((if a + 100 <? 0 then Z.max (a + 100 + n) 0 else Z.min (a + 100) n)
     - (if a <? 0 then Z.max (a + n) 0 else Z.min a n))); [apply Nat.le_min_l|].
  destruct (Z.ltb_spec (a + 100) 0), (Z.ltb_spec a 0); lia.
Qed.

(** The loop keeps the keys of the results in [seen] and pairwise
    different, also when it starts from the state of an earlier pass. *)
Lemma collect_merge_invariant (data : list raw_loc) :
  forall seen results,
    incl (map place_key results) seen ->
    distinct_keys (map place_key results) ->
    incl (map place_key (snd (collect (seen, results) data)))
         (fst (collect (seen, results) data))
    /\ distinct_keys (map place_key (snd (collect (seen, results) data))).
Proof.
  induction data as [|loc data IH]; intros seen results Hincl Hd; [split; assumption|].
  unfold collect in *. cbn [fold_left].
  pose proof (visit_spec loc) as Hv.
  destruct (entry_key loc) as [k|]; [|rewrite Hv; apply IH; assumption].
  destruct Hv as [p [Hp Hv]]. rewrite Hv.
  destruct (seen_has k seen) eqn:E; [apply IH; assumption|].
  apply IH.
  - rewrite map_app. simpl. rewrite Hp. intros x Hx. apply in_app_or in Hx.
    apply in_or_app. destruct Hx as [Hx|Hx]; [left; apply Hincl; exact Hx | right; exact Hx].
  - rewrite map_app. simpl. rewrite Hp. apply ForallOrdPairs_snoc; [exact Hd|].
    apply seen_has_false in E. apply Forall_forall. intros x Hx.
    rewrite Forall_forall in E. apply E. apply Hincl. exact Hx.
Qed.

Lemma well_formed_sort (l : list place) :
  distinct_keys (map place_key l) -> well_formed_page (sort_by_name l).
Proof.
  intros H. split.
  - apply StronglySorted_Sorted. apply sort_by_name_sorted.
  - eapply distinct_keys_perm; [|exact H]. apply Permutation_map. apply sort_by_name_perm.
Qed.

Lemma well_formed_nil : well_formed_page [].
Proof. split; constructor. Qed.

(** The [try] block: its calls, and what it answers. *)
Lemma search_try_full (w : world) (query country : str) (page : Z) (cache_key q : str) :
  (exists calls,
     sent (snd (search_try w query country page cache_key q))
     = sent w ++ GeoSearch q :: calls
     /\ (calls = []
         \/ exists city, fallback_for query country = Some city
                         /\ calls = [GeoSearch (city ++ lit ",," ++ country)]))
  /\ forecast_cache (snd (search_try w query country page cache_key q)) = forecast_cache w
  /\ match fst (search_try w query country page cache_key q) with
     | Ret resp =>
         exists l, resp = ok_places l /\ well_formed_page l
                   /\ (fallback_for query country = None -> (List.length l <= 100)%nat)
     | Raise _ =>
         search_cache (snd (search_try w query country page cache_key q)) = search_cache w
     end.
Proof.
  unfold search_try.
  destruct (send_search_facts w q) as (Hs & Hc & Hf & _).
  destruct (send_search w q) as [r w1]. cbn [fst snd] in Hs, Hc, Hf.
  destruct r as [data|e];
    [|cbn [fst snd]; split; [exists []; split; [exact Hs | left; reflexivity]|];
      split; assumption].
  destruct (collect_invariant data) as [Hseen Hd].
  destruct (collect ([], []) data) as [seen raw]. cbn [fst snd] in Hseen, Hd.
  set (sorted := sort_by_name raw).
  set (pg := py_slice sorted ((page - 1) * 100) ((page - 1) * 100 + 100)).
  assert (Hsorted : distinct_keys (map place_key sorted)).
  { eapply distinct_keys_perm; [apply Permutation_map, sort_by_name_perm|].
    rewrite <- Hseen. exact Hd. }
  assert (Hpg : distinct_keys (map place_key pg)).
  { unfold pg. destruct (py_slice_sub sorted ((page - 1) * 100) ((page - 1) * 100 + 100))
      as (n & m & ->). rewrite <- firstn_map, <- skipn_map.
    apply distinct_keys_firstn, distinct_keys_skipn, Hsorted. }
  assert (Hincl : incl (map place_key pg) seen).
  { intros k Hk. unfold pg in Hk.
    destruct (py_slice_sub sorted ((page - 1) * 100) ((page - 1) * 100 + 100))
      as (n & m & E). rewrite E in Hk. apply in_map_iff in Hk.
    destruct Hk as [r [<- Hr]]. apply In_firstn, In_skipn in Hr.
    rewrite Hseen. apply in_map.
    eapply Permutation_in; [apply Permutation_sym, sort_by_name_perm | exact Hr]. }
  assert (Hlen : (List.length (sort_by_name pg) <= 100)%nat).
  { rewrite <- (Permutation_length (sort_by_name_perm pg)). apply py_slice_length. }
  assert (Hplain :
    (exists calls,
       sent (store_search w1 cache_key (sort_by_name pg)) = sent w ++ GeoSearch q :: calls
       /\ (calls = []
           \/ exists city, fallback_for query country = Some city
                           /\ calls = [GeoSearch (city ++ lit ",," ++ country)]))
    /\ forecast_cache (store_search w1 cache_key (sort_by_name pg)) = forecast_cache w
    /\ exists l, ok_places (sort_by_name pg) = ok_places l /\ well_formed_page l
                 /\ (fallback_for query country = None -> (List.length l <= 100)%nat)).
  { split; [exists []; split; [exact Hs | left; reflexivity]|].
    split; [exact Hf|].
    eexists. split; [reflexivity|]. split; [apply well_formed_sort; exact Hpg|].
    intros _. exact Hlen. }
  destruct (is_empty pg); [|exact Hplain].
  destruct (fallback_for query country) as [city|] eqn:Efb; [|exact Hplain].
  destruct (send_search_facts w1 (city ++ lit ",," ++ country)) as (Hs2 & Hc2 & Hf2 & _).
  destruct (send_search w1 (city ++ lit ",," ++ country)) as [r2 w2].
  cbn [fst snd] in Hs2, Hc2, Hf2.
  assert (Hcalls : exists calls,
            sent w2 = sent w ++ GeoSearch q :: calls
            /\ (calls = []
                \/ exists city0, Some city = Some city0
                     /\ calls = [GeoSearch (city0 ++ lit ",," ++ country)])).
  { exists [GeoSearch (city ++ lit ",," ++ country)]. split.
    - rewrite Hs2, Hs, <- app_assoc. reflexivity.
    - right. exists city. auto. }
  destruct r2 as [data2|e2]; cbn [fst snd].
  - split; [exact Hcalls|]. split; [cbn [store_search forecast_cache]; congruence|].
    eexists. split; [reflexivity|]. split; [|discriminate].
    apply well_formed_sort.
    apply (@collect_merge_invariant data2 seen pg Hincl Hpg).
  - split; [exact Hcalls|]. split; congruence.
Qed.

(** The handler of a 404: its calls, and what it answers. *)
Lemma search_not_found_full (w : world) (query country cache_key : str) :
  (exists calls,
     sent (snd (search_not_found w query country cache_key)) = sent w ++ calls
     /\ (calls = []
         \/ exists city, fallback_for query country = Some city
                         /\ calls = [GeoSearch (city ++ lit ",," ++ country)]))
  /\ forecast_cache (snd (search_not_found w query country cache_key)) = forecast_cache w
  /\ ((exists l, fst (search_not_found w query country cache_key) = ok_places l
                 /\ well_formed_page l
                 /\ (fallback_for query country = None -> l = []))
      \/ (exists e, fst (search_not_found w query country cache_key) = uncaught e
                    /\ search_cache (snd (search_not_found w query country cache_key))
                       = search_cache w)).
Proof.
  unfold search_not_found.
  destruct (fallback_for query country) as [city|] eqn:Efb.
  - destruct (send_search_facts w (city ++ lit ",," ++ country)) as (Hs & Hc & Hf & _).
    destruct (send_search w (city ++ lit ",," ++ country)) as [r w1].
    cbn [fst snd] in Hs, Hc, Hf.
    assert (Hcalls : exists calls,
              sent w1 = sent w ++ calls
              /\ (calls = []
                  \/ exists city0, Some city = Some city0
                       /\ calls = [GeoSearch (city0 ++ lit ",," ++ country)])).
    { exists [GeoSearch (city ++ lit ",," ++ country)]. split; [exact Hs|].
      right. exists city. auto. }
    destruct r as [data|e].
    + cbn [fst snd]. split; [exact Hcalls|]. split; [exact Hf|].
      left. eexists. split; [reflexivity|]. split; [|discriminate].
      apply well_formed_sort.
      destruct (collect_invariant data) as [Hseen Hd]. rewrite <- Hseen. exact Hd.
    + destruct e; cbn [fst snd];
        (split; [exact Hcalls|]); (split; [exact Hf|]);
        try (right; eexists; split; [reflexivity | exact Hc]).
      left. exists []. split; [reflexivity|]. split; [apply well_formed_nil | reflexivity].
  - cbn [fst snd]. split; [exists []; split; [rewrite app_nil_r; reflexivity | left; reflexivity]|].
    split; [reflexivity|].
    left. exists []. split; [reflexivity|]. split; [apply well_formed_nil | reflexivity].
Qed.

(** The provider is called: the calls, the status and the answered list. *)
Lemma search_upstream_full (w0 : world) (query country : str) (page : Z)
    (cache_key q : str) :
  (exists calls,
     sent (snd (search_upstream w0 query country page cache_key q))
     = sent w0 ++ GeoSearch q :: calls
     /\ (List.length calls <= 2)%nat
     /\ Forall (fun c => exists city, fallback_for query country = Some city
                           /\ c = GeoSearch (city ++ lit ",," ++ country)) calls)
  /\ forecast_cache (snd (search_upstream w0 query country page cache_key q))
     = forecast_cache w0
  /\ ((status (fst (search_upstream w0 query country page cache_key q)) = 500
       /\ (forall l, payload (fst (search_upstream w0 query country page cache_key q))
                     <> Places l)
       /\ search_cache (snd (search_upstream w0 query country page cache_key q))
          = search_cache w0)
      \/ (exists l, fst (search_upstream w0 query country page cache_key q) = ok_places l
                    /\ well_formed_page l
                    /\ (fallback_for query country = None -> (List.length l <= 100)%nat))).
Proof.
  unfold search_upstream.
  destruct (search_try_full w0 query country page cache_key q)
    as ((calls & Hs & Hcalls) & Hf & Hr).
  destruct (search_try w0 query country page cache_key q) as [r w1].
  cbn [fst snd] in Hs, Hf, Hr.
  assert (Hshape : (List.length calls <= 2)%nat
            /\ Forall (fun c => exists city, fallback_for query country = Some city
                                  /\ c = GeoSearch (city ++ lit ",," ++ country)) calls).
  { destruct Hcalls as [->|(city & Hc & ->)]; [split; [simpl; lia | constructor]|].
    split; [simpl; lia|]. constructor; [exists city; auto | constructor]. }
  destruct r as [resp|e].
  - cbn [fst snd]. split; [exists calls; split; [exact Hs | exact Hshape]|].
    split; [exact Hf|]. right. destruct Hr as (l & -> & Hwf & Hlen). exists l. auto.
  - assert (H500 : forall k,
      (exists calls0,
         sent (snd (failure 500 k, w1)) = sent w0 ++ GeoSearch q :: calls0
         /\ (List.length calls0 <= 2)%nat
         /\ Forall (fun c => exists city, fallback_for query country = Some city
                               /\ c = GeoSearch (city ++ lit ",," ++ country)) calls0)
      /\ forecast_cache (snd (failure 500 k, w1)) = forecast_cache w0
      /\ ((status (fst (failure 500 k, w1)) = 500
           /\ (forall l, payload (fst (failure 500 k, w1)) <> Places l)
           /\ search_cache (snd (failure 500 k, w1)) = search_cache w0)
          \/ (exists l, fst (failure 500 k, w1) = ok_places l
                        /\ well_formed_page l
                        /\ (fallback_for query country = None ->
                            (List.length l <= 100)%nat)))).
    { intros k. cbn [fst snd]. split; [exists calls; split; [exact Hs | exact Hshape]|].
      split; [exact Hf|]. left. split; [reflexivity|]. split; [|exact Hr].
      intros l. discriminate. }
    destruct e; try apply H500.
    destruct (status_code =? 404); [|apply H500].
    destruct (search_not_found_full w1 query country cache_key)
      as ((calls2 & Hs2 & Hcalls2) & Hf2 & Hr2).
    split; [|split; [congruence|]].
    + exists (calls ++ calls2). split; [|split].
      * rewrite Hs2, Hs, <- app_assoc. reflexivity.
      * rewrite length_app.
        destruct Hcalls as [->|(city & Hc & ->)];
          destruct Hcalls2 as [->|(city2 & Hc2 & ->)]; simpl; lia.
      * apply Forall_app. split; [apply Hshape|].
        destruct Hcalls2 as [->|(city2 & Hc2 & ->)]; [constructor|].
        constructor; [exists city2; auto | constructor].
    + destruct Hr2 as [(l & Hl & Hwf & Hnil)|(e & He & Hc)].
      * right. exists l. split; [exact Hl|]. split; [exact Hwf|].
        intros Hnone. rewrite (Hnil Hnone). simpl. lia.
      * left. rewrite He. split; [reflexivity|]. split; [intros l; discriminate|].
        rewrite Hc. exact Hr.
Qed.

(** X4: one search makes at most three outbound calls, all of them
    geocoding searches: first the provider query and then, for a
    country-only search of a country with a fallback city, at most two
    queries for that city; a search that has no fallback makes at most one
    call. *)
Theorem search_calls_bounded (w : world) (q_arg country_arg : str)
    (page_arg : option str) :
  let query := lower (strip q_arg) in
  let country := upper (strip country_arg) in
  exists calls,
    sent (snd (search_locations w q_arg country_arg page_arg)) = sent w ++ calls
    /\ (List.length calls <= 3)%nat
    /\ Forall (search_call query country) calls
    /\ (fallback_for query country = None -> (List.length calls <= 1)%nat).
Proof.
  intros query country.
  assert (Hnone : forall (resp : response) w', sent w' = sent w ->
            exists calls,
              sent (snd (resp, w')) = sent w ++ calls
              /\ (List.length calls <= 3)%nat
              /\ Forall (search_call query country) calls
              /\ (fallback_for query country = None -> (List.length calls <= 1)%nat)).
  { intros l w' Hw. exists []. cbn [snd]. rewrite Hw, app_nil_r.
    repeat split; simpl; try lia. constructor. }
  unfold search_locations. destruct (parse_page page_arg) as [page|e];
    [|apply Hnone; reflexivity].
  pose proof (search_locations_eq w q_arg country_arg page) as E. cbv zeta in E.
  fold query country in E. rewrite E. clear E.
  destruct (negb (validate_country country) && PyStr.truthy country);
    [apply Hnone; reflexivity|].
  destruct (fst (TTLCache.get (search_cache w) (clock w)
                   (search_cache_key query country page))) as [[|p ps]|];
    try (apply Hnone; reflexivity);
    (destruct (provider_query query country) as [q|] eqn:Eq;
     [|apply Hnone; reflexivity]);
    (match goal with
     | |- context [search_upstream ?w0 _ _ _ ?key _] =>
         destruct (search_upstream_full w0 query country page key q)
           as ((calls & Hs & Hlen & Hall) & _)
     end;
     exists (GeoSearch q :: calls); split; [exact Hs|]; split; [simpl; lia|];
     split;
     [constructor; [left; exists q; auto|];
      eapply Forall_impl; [|exact Hall]; intros c Hc; right; exact Hc|];
     intros Hno; destruct calls as [|c calls]; [simpl; lia|];
     inversion Hall as [|? ? (city & Hcity & _) _]; congruence).
Qed.

(** What a search does to the log of calls and to the search cache, once
    its page is read: it makes no call exactly in the three cases of the
    early answers, and an answer 500 comes after a call and leaves the
    entries of the cache as they were. *)
Lemma search_page_effect (w : world) (q_arg country_arg : str) (page : Z) :
  let query := lower (strip q_arg) in
  let country := upper (strip country_arg) in
  (sent (snd (search_page w q_arg country_arg page)) = sent w
   <-> (negb (validate_country country) && PyStr.truthy country = true
        \/ (exists p ps, fst (TTLCache.get (search_cache w) (clock w)
                                (search_cache_key query country page)) = Some (p :: ps))
        \/ provider_query query country = None))
  /\ (status (fst (search_page w q_arg country_arg page)) = 200
      \/ status (fst (search_page w q_arg country_arg page)) = 500)
  /\ (status (fst (search_page w q_arg country_arg page)) = 500 ->
      same_entries (search_cache (snd (search_page w q_arg country_arg page)))
                   (search_cache w)
      /\ sent (snd (search_page w q_arg country_arg page)) <> sent w).
Proof.
  intros query country.
  pose proof (search_locations_eq w q_arg country_arg page) as E. cbv zeta in E.
  fold query country in E. rewrite E. clear E.
  destruct (negb (validate_country country) && PyStr.truthy country);
    [split; [split; [left; reflexivity | reflexivity]
            |split; [left; reflexivity | discriminate]]|].
  pose proof (get_links (search_cache w) (clock w) (search_cache_key query country page))
    as Hlinks.
  destruct (fst (TTLCache.get (search_cache w) (clock w)
                   (search_cache_key query country page))) as [[|p ps]|];
    try (split; [split; [intros _; right; left; exists p, ps; reflexivity | reflexivity]
                |split; [left; reflexivity | discriminate]]);
    (destruct (provider_query query country) as [q|] eqn:Eq;
     [|split; [split; [intros _; right; right; reflexivity | reflexivity]
              |split; [left; reflexivity | discriminate]]]);
    (match goal with
     | |- context [search_upstream ?w0 _ _ _ ?key _] =>
         destruct (search_upstream_full w0 query country page key q)
           as ((calls & Hs & _) & _ & Hr)
     end;
     assert (Hsent : forall W : world, sent W = sent w ->
               sent W ++ GeoSearch q :: calls <> sent w)
       by (intros W HW H; rewrite HW in H;
           apply (f_equal (@List.length outbound)) in H;
           rewrite length_app in H; simpl in H; lia);
     split;
     [rewrite Hs; split;
      [intros H; exfalso; exact (Hsent _ eq_refl H)
      |intros [H|[(p' & ps' & H)|H]]; discriminate]
     |destruct Hr as [(H500 & _ & Hc)|(l & Hl & _)];
      [split; [right; exact H500|]; intros _; split;
       [unfold same_entries; rewrite Hc; exact Hlinks
       |rewrite Hs; exact (Hsent _ eq_refl)]
      |rewrite Hl; split; [left; reflexivity | discriminate]]]).
Qed.

(** X5: a search request makes no outbound call exactly when the limiter
    does not admit it, or its page is not read, or the country is not empty
    and unknown, or the cache holds a non-empty list under the key of the
    search, or there is neither a query nor a country. *)
Theorem search_silent_iff (admitted : bool) (w : world) (q_arg country_arg : str)
    (page_arg : option str) :
  let query := lower (strip q_arg) in
  let country := upper (strip country_arg) in
  sent (snd (search_route admitted w q_arg country_arg page_arg)) = sent w
  <-> (admitted = false
       \/ (exists e, parse_page page_arg = Raise e)
       \/ negb (validate_country country) && PyStr.truthy country = true
       \/ (exists page p ps,
             parse_page page_arg = Ret page
             /\ fst (TTLCache.get (search_cache w) (clock w)
                       (search_cache_key query country page)) = Some (p :: ps))
       \/ provider_query query country = None).
Proof.
  intros query country. unfold search_route, search_locations.
  destruct admitted; [|split; [intros _; left; reflexivity | reflexivity]].
  destruct (parse_page page_arg) as [page|e];
    [|split; [intros _; right; left; exists e; reflexivity | reflexivity]].
  destruct (search_page_effect w q_arg country_arg page) as [Hs _].
  cbv zeta in Hs. fold query country in Hs. rewrite Hs. split.
  - intros [H|[(p & ps & H)|H]].
    + right. right. left. exact H.
    + right. right. right. left. exists page, p, ps. split; [reflexivity | exact H].
    + right. right. right. right. exact H.
  - intros [H|[[e H]|[H|[(page' & p & ps & Hp & H)|H]]]].
    + discriminate H.
    + discriminate H.
    + left. exact H.
    + right. left. injection Hp as <-. exists p, ps. exact H.
    + right. right. exact H.
Qed.

(** X6: a search request is answered with status 200, 429 or 500: 429
    exactly when the limiter does not admit it, and then nothing changes.
    An answer 500 leaves the entries of the search cache as they were, and
    it comes either from a page that is not read, before any call, or after
    a call to the provider: failures are not cached. *)
Theorem search_failure_not_cached (admitted : bool) (w : world)
    (q_arg country_arg : str) (page_arg : option str) :
  (status (fst (search_route admitted w q_arg country_arg page_arg)) = 200
   \/ status (fst (search_route admitted w q_arg country_arg page_arg)) = 429
   \/ status (fst (search_route admitted w q_arg country_arg page_arg)) = 500)
  /\ (status (fst (search_route admitted w q_arg country_arg page_arg)) = 429
      <-> admitted = false)
  /\ (status (fst (search_route admitted w q_arg country_arg page_arg)) = 429 ->
      snd (search_route admitted w q_arg country_arg page_arg) = w)
  /\ (status (fst (search_route admitted w q_arg country_arg page_arg)) = 500 ->
      same_entries
        (search_cache (snd (search_route admitted w q_arg country_arg page_arg)))
        (search_cache w)
      /\ (((exists e, parse_page page_arg = Raise e)
           /\ snd (search_route admitted w q_arg country_arg page_arg) = w)
          \/ ((exists page, parse_page page_arg = Ret page)
              /\ sent (snd (search_route admitted w q_arg country_arg page_arg))
                 <> sent w))).
Proof.
  unfold search_route, search_locations.
  destruct admitted;
    [|split; [right; left; reflexivity|]; split; [split; reflexivity|];
      split; [reflexivity | discriminate]].
  destruct (parse_page page_arg) as [page|e].
  - destruct (search_page_effect w q_arg country_arg page) as (_ & Hst & H500).
    split; [destruct Hst as [Hst|Hst]; rewrite Hst; auto|].
    split; [split; [|discriminate]; destruct Hst as [Hst|Hst]; rewrite Hst; discriminate|].
    split; [destruct Hst as [Hst|Hst]; rewrite Hst; discriminate|].
    intros H. destruct (H500 H) as [Hc Hs]. split; [exact Hc|].
    right. split; [exists page; reflexivity | exact Hs].
  - cbn [fst snd uncaught status].
    split; [right; right; reflexivity|].
    split; [split; discriminate|]. split; [discriminate|].
    intros _. split; [reflexivity|]. left. split; [exists e; reflexivity | reflexivity].
Qed.

Lemma search_page_forecast_cache (w : world) (q_arg country_arg : str) (page : Z) :
  forecast_cache (snd (search_page w q_arg country_arg page)) = forecast_cache w.
Proof.
  pose proof (search_locations_eq w q_arg country_arg page) as E. cbv zeta in E.
  rewrite E. clear E.
  set (query := lower (strip q_arg)). set (country := upper (strip country_arg)).
  destruct (negb (validate_country country) && PyStr.truthy country); [reflexivity|].
  destruct (fst (TTLCache.get (search_cache w) (clock w)
                   (search_cache_key query country page))) as [[|p ps]|];
    try reflexivity;
    (destruct (provider_query query country) as [q|]; [|reflexivity]);
    match goal with
    | |- context [search_upstream ?w0 _ _ _ ?key _] =>
        destruct (search_upstream_full w0 query country page key q) as (_ & Hf & _)
    end; exact Hf.
Qed.

(** X7: a search leaves the forecast cache as it is. *)
Theorem search_keeps_forecast_cache (w : world) (q_arg country_arg : str)
    (page_arg : option str) :
  forecast_cache (snd (search_locations w q_arg country_arg page_arg)) = forecast_cache w.
Proof.
  unfold search_locations. destruct (parse_page page_arg) as [page|e]; [|reflexivity].
  apply search_page_forecast_cache.
Qed.

(** X8: a list that a search answers with is the list that the cache held
    under the key of the search, or else it is in name order and has no two
    results of equal keys; and when it is not the cached list and the search
    has no fallback city (for instance, it has a query), it has at most 100
    results. *)
Theorem search_page_well_formed (w : world) (q_arg country_arg : str)
    (page_arg : option str) (l : list place) :
  let query := lower (strip q_arg) in
  let country := upper (strip country_arg) in
  payload (fst (search_locations w q_arg country_arg page_arg)) = Places l ->
  exists page,
    parse_page page_arg = Ret page
    /\ (fst (TTLCache.get (search_cache w) (clock w)
               (search_cache_key query country page))
        = Some l
        \/ (well_formed_page l
            /\ (fallback_for query country = None -> (List.length l <= 100)%nat))).
Proof.
  intros query country.
  unfold search_locations. destruct (parse_page page_arg) as [page|e]; [|discriminate].
  intros Hl. exists page. split; [reflexivity|]. revert Hl.
  pose proof (search_locations_eq w q_arg country_arg page) as E. cbv zeta in E.
  fold query country in E. rewrite E. clear E.
  assert (Hnil : payload (fst (ok_places [], w)) = Places l ->
            well_formed_page l
            /\ (fallback_for query country = None -> (List.length l <= 100)%nat)).
  { intros H. injection H as <-. split; [apply well_formed_nil | simpl; lia]. }
  destruct (negb (validate_country country) && PyStr.truthy country);
    [intros H; right; apply Hnil; exact H|].
  destruct (fst (TTLCache.get (search_cache w) (clock w)
                   (search_cache_key query country page))) as [[|p ps]|];
    try (intros H; injection H as <-; left; reflexivity);
    (destruct (provider_query query country) as [q|];
     [|intros H; right; apply Hnil; exact H]);
    (match goal with
     | |- context [search_upstream ?w0 _ _ _ ?key _] =>
         destruct (search_upstream_full w0 query country page key q)
           as (_ & _ & [(_ & Hno & _)|(l' & Hl & Hwf & Hlen)])
     end;
     [intros H; exfalso; exact (Hno l H)
     |rewrite Hl; intros H; injection H as <-; right; split; assumption]).
Qed.

(** The case mappings on ASCII text. *)
Lemma ascii_to_lower_to_upper c :
  ascii_to_lower (ascii_to_upper c) = ascii_to_lower c.
Proof.
  unfold ascii_to_upper. destruct (islower c) eqn:E; [|reflexivity].
  unfold ascii_to_lower.
  assert (H1 : isupper (c - 32)%N = true) by char_arith.
  assert (H2 : isupper c = false) by char_arith.
  rewrite H1, H2. char_arith.
Qed.

Lemma ascii_to_upper_to_lower c :
  ascii_to_upper (ascii_to_lower c) = ascii_to_upper c.
Proof.
  unfold ascii_to_lower. destruct (isupper c) eqn:E; [|reflexivity].
  unfold ascii_to_upper.
  assert (H1 : islower (c + 32)%N = true) by char_arith.
  assert (H2 : islower c = false) by char_arith.
  rewrite H1, H2. char_arith.
Qed.

Lemma isspace_to_upper c : isspace (ascii_to_upper c) = isspace c.
Proof.
  unfold ascii_to_upper. destruct (islower c) eqn:E; [|reflexivity].
  transitivity false; [|symmetry]; char_arith.
Qed.

Lemma isspace_to_lower c : isspace (ascii_to_lower c) = isspace c.
Proof.
  unfold ascii_to_lower. destruct (isupper c) eqn:E; [|reflexivity].
  transitivity false; [|symmetry]; char_arith.
Qed.

Lemma is_ascii_to_upper c : is_ascii c = true -> is_ascii (ascii_to_upper c) = true.
Proof.
  unfold ascii_to_upper. intros H. destruct (islower c) eqn:E; [|exact H]. char_arith.
Qed.

Lemma is_ascii_to_lower c : is_ascii c = true -> is_ascii (ascii_to_lower c) = true.
Proof.
  unfold ascii_to_lower. intros H. destruct (isupper c) eqn:E; [|exact H]. char_arith.
Qed.

Lemma upper_ascii (s : str) :
  Forall (fun c => is_ascii c = true) s -> upper s = ascii_upper s.
Proof.
  induction 1 as [|c s Hc Hs IH]; [reflexivity|].
  unfold upper, ascii_upper in *. cbn [flat_map map]. rewrite IH.
  unfold to_upper. rewrite Hc. reflexivity.
Qed.

Lemma lower_from_ascii (b s : str) :
  Forall (fun c => is_ascii c = true) s -> lower_from b s = ascii_lower s.
Proof.
  intros H. revert b. induction H as [|c s Hc Hs IH]; intros b; [reflexivity|].
  cbn [lower_from]. rewrite IH. unfold to_lower. rewrite Hc.
  destruct (c =? 931)%N eqn:E; [|reflexivity].
  apply N.eqb_eq in E. subst c. discriminate Hc.
Qed.

Lemma lower_ascii (s : str) :
  Forall (fun c => is_ascii c = true) s -> lower s = ascii_lower s.
Proof. apply lower_from_ascii. Qed.

Lemma lstrip_by_map p (f : char -> char) (s : str) :
  (forall c, p (f c) = p c) -> lstrip_by p (map f s) = map f (lstrip_by p s).
Proof.
  intros H. induction s as [|c s IH]; simpl; [reflexivity|].
  rewrite H. destruct (p c); [exact IH | reflexivity].
Qed.

Lemma strip_by_map p (f : char -> char) (s : str) :
  (forall c, p (f c) = p c) -> strip_by p (map f s) = map f (strip_by p s).
Proof.
  intros H. unfold strip_by, rstrip_by.
  rewrite lstrip_by_map by exact H. rewrite <- map_rev.
  rewrite lstrip_by_map by exact H. rewrite map_rev. reflexivity.
Qed.

Lemma Forall_map_ascii (f : char -> char) (s : str) :
  (forall c, is_ascii c = true -> is_ascii (f c) = true) ->
  Forall (fun c => is_ascii c = true) s ->
  Forall (fun c => is_ascii c = true) (map f s).
Proof.
  intros Hf H. induction H as [|c s Hc Hs IH]; simpl; constructor; auto.
Qed.

Lemma lower_strip_upper (s : str) :
  Forall (fun c => is_ascii c = true) s ->
  lower (strip (upper s)) = lower (strip s).
Proof.
  intros H. rewrite (upper_ascii H).
  rewrite !lower_ascii;
    [|apply strip_by_Forall; exact H
     |apply strip_by_Forall, Forall_map_ascii; [exact is_ascii_to_upper | exact H]].
  unfold ascii_lower, ascii_upper, strip.
  rewrite strip_by_map by exact isspace_to_upper.
  rewrite map_map. apply map_ext. exact ascii_to_lower_to_upper.
Qed.

Lemma upper_strip_lower (s : str) :
  Forall (fun c => is_ascii c = true) s ->
  upper (strip (lower s)) = upper (strip s).
Proof.
  intros H. rewrite (lower_ascii H).
  rewrite !upper_ascii;
    [|apply strip_by_Forall; exact H
     |apply strip_by_Forall, Forall_map_ascii; [exact is_ascii_to_lower | exact H]].
  unfold ascii_lower, ascii_upper, strip.
  rewrite strip_by_map by exact isspace_to_lower.
  rewrite map_map. apply map_ext. exact ascii_to_upper_to_lower.
Qed.

(** X9: on ASCII text a search does not depend on the letter case of its
    query and of its country: with the query in capitals and the country in
    small letters it gives the same answer, makes the same calls and uses
    the same cache entry. *)
Theorem search_ignores_case (w : world) (q_arg country_arg : str)
    (page_arg : option str) :
  Forall (fun c => is_ascii c = true) q_arg ->
  Forall (fun c => is_ascii c = true) country_arg ->
  search_locations w (upper q_arg) (lower country_arg) page_arg
  = search_locations w q_arg country_arg page_arg.
Proof.
  intros Hq Hc. unfold search_locations, search_page.
  rewrite (lower_strip_upper Hq), (upper_strip_lower Hc). reflexivity.
Qed.

(** ** The weather handler: statuses and calls *)

Lemma weather_except_status (e : exn) :
  status (weather_except e) = 401 \/ status (weather_except e) = 429
  \/ status (weather_except e) = 404 \/ status (weather_except e) = 500.
Proof.
  destruct e; simpl; auto.
  destruct (status_code =? 401); [auto|].
  destruct (status_code =? 429); [auto|].
  destruct (status_code =? 404); auto.
Qed.

Lemma format_weather_status (city cc data : json) (resp : response) :
  format_weather city cc data = Ret resp -> status resp = 200 \/ status resp = 500.
Proof.
  unfold format_weather. intros H.
  apply bind_Ret in H. destruct H as [valid [_ H]].
  destruct valid; simpl in H; [|injection H as <-; right; reflexivity].
  repeat (apply bind_Ret in H; destruct H as [? [_ H]]).
  injection H as <-. left. reflexivity.
Qed.

(** The [try] block of [get_weather]: its calls and its statuses. *)
Lemma weather_try_full (w : world) (nl : str) :
  (sent (snd (weather_try w nl)) = sent w ++ [GeoLookup nl]
   /\ (forall resp, fst (weather_try w nl) = Ret resp -> status resp <> 200)
   \/ exists geo_data la lo city cc,
        outcome (geo_lookup (List.length (sent w)) nl) = Ret geo_data
        /\ first_candidate geo_data = Ret (la, lo, city, cc)
        /\ sent (snd (weather_try w nl)) = sent w ++ [GeoLookup nl; CurrentWeather la lo])
  /\ (forall resp, fst (weather_try w nl) = Ret resp ->
        status resp = 200 \/ status resp = 404 \/ status resp = 500).
Proof.
  unfold weather_try, send_lookup.
  destruct (outcome (geo_lookup (List.length (sent w)) nl)) as [geo_data|e];
    [|split; [left; split; [reflexivity | discriminate] | discriminate]].
  destruct (negb (Json.truthy geo_data)).
  - split; [left; split; [reflexivity|]|]; intros resp H; injection H as <-;
      [discriminate | auto].
  - destruct (first_candidate geo_data) as [[[[la lo] city] cc]|e] eqn:Ef;
      [|split; [left; split; [reflexivity | discriminate] | discriminate]].
    unfold send_weather. cbn [sent clock].
    destruct (outcome (weather_api _ la lo)) as [data|e].
    + split.
      * right. exists geo_data, la, lo, city, cc. cbn [snd sent].
        rewrite <- app_assoc. split; [reflexivity|]. split; [exact Ef | reflexivity].
      * cbn [fst]. intros resp H. apply format_weather_status in H.
        destruct H; auto.
    + split; [|discriminate].
      right. exists geo_data, la, lo, city, cc. cbn [snd sent].
      rewrite <- app_assoc. split; [reflexivity|]. split; [exact Ef | reflexivity].
Qed.

(** X10: the weather handler answers 400 exactly when the location is
    missing or empty, or fails [validate_location], or fails
    [normalize_location]; it then leaves the world as it is, so that no
    outbound call is made for a request that is answered 400. *)
Theorem weather_client_error (w : world) (location : option str) :
  (status (fst (get_weather w location)) = 400
   <-> match location with
       | None => True
       | Some l => PyStr.truthy l = false \/ validate_location l = false
                   \/ normalize_location l = None
       end)
  /\ (status (fst (get_weather w location)) = 400 -> snd (get_weather w location) = w).
Proof.
  unfold get_weather. destruct location as [l|]; [|split; [split; auto | auto]].
  destruct (PyStr.truthy l); cbn [negb]; [|split; [split; auto | auto]].
  destruct (validate_location l); cbn [negb]; [|split; [split; auto | auto]].
  destruct (normalize_location l) as [nl|]; [|split; [split; auto | auto]].
  destruct (weather_try_full w nl) as [_ Hst].
  destruct (weather_try w nl) as [[resp|e] w1]; cbn [fst snd] in *.
  - assert (H : status resp <> 400)
      by (destruct (Hst resp eq_refl) as [H|[H|H]]; rewrite H; discriminate).
    split; [split|]; intros H'; try contradiction.
    destruct H' as [H'|[H'|H']]; discriminate.
  - assert (H : status (weather_except e) <> 400)
      by (destruct (weather_except_status e) as [H|[H|[H|H]]]; rewrite H; discriminate).
    split; [split|]; intros H'; try contradiction.
    destruct H' as [H'|[H'|H']]; discriminate.
Qed.

(** X11: the weather handler answers with one of the statuses 200, 400,
    401, 404, 429 and 500, and it makes at most two outbound calls: the
    geocoding lookup of the normalised location and then the weather call at
    the coordinates of its first candidate; an answer 200 has made both. *)
Theorem weather_statuses_and_calls (w : world) (location : option str) :
  handler_status (status (fst (get_weather w location)))
  /\ (sent (snd (get_weather w location)) = sent w
      /\ status (fst (get_weather w location)) <> 200
      \/ exists l nl,
           location = Some l /\ normalize_location l = Some nl
           /\ (sent (snd (get_weather w location)) = sent w ++ [GeoLookup nl]
               /\ status (fst (get_weather w location)) <> 200
               \/ exists geo_data la lo city cc,
                    outcome (geo_lookup (List.length (sent w)) nl) = Ret geo_data
                    /\ first_candidate geo_data = Ret (la, lo, city, cc)
                    /\ sent (snd (get_weather w location))
                       = sent w ++ [GeoLookup nl; CurrentWeather la lo])).
Proof.
  unfold handler_status, get_weather.
  destruct location as [l|];
    [|split; [auto | left; split; [reflexivity | discriminate]]].
  destruct (PyStr.truthy l); cbn [negb];
    [|split; [auto | left; split; [reflexivity | discriminate]]].
  destruct (validate_location l); cbn [negb];
    [|split; [auto | left; split; [reflexivity | discriminate]]].
  destruct (normalize_location l) as [nl|] eqn:En;
    [|split; [auto | left; split; [reflexivity | discriminate]]].
  destruct (weather_try_full w nl) as [Hcalls Hst].
  destruct (weather_try w nl) as [[resp|e] w1]; cbn [fst snd] in *.
  - split; [destruct (Hst resp eq_refl) as [H|[H|H]]; rewrite H; auto 10|].
    right. exists l, nl. split; [reflexivity|]. split; [exact En|].
    destruct Hcalls as [[Hs Hno]|Hfull]; [left; split; [exact Hs | apply Hno; reflexivity]|].
    right. exact Hfull.
  - split; [destruct (weather_except_status e) as [H|[H|[H|H]]]; rewrite H; auto 10|].
    right. exists l, nl. split; [reflexivity|]. split; [exact En|].
    destruct Hcalls as [[Hs _]|Hfull]; [|right; exact Hfull].
    left. split; [exact Hs|].
    destruct (weather_except_status e) as [H|[H|[H|H]]]; rewrite H; discriminate.
Qed.

(** ** The weather handler: what validation guarantees *)

Lemma section_get_present (data : json) (section key : str) (v : json) :
  section_get data section key = Ret v -> v <> JNull ->
  exists sec, getitem data section = Ret sec /\ getitem sec key = Ret v.
Proof.
  unfold section_get. intros H Hv. apply bind_Ret in H. destruct H as [sec [Hs H]].
  exists sec. split; [exact Hs|].
  destruct sec; simpl in H; try discriminate. simpl.
  destruct (assoc key fields); [exact H|]. injection H as <-. contradiction.
Qed.

Lemma get_present (o : json) (key : str) (v : json) :
  Json.get o key = Ret v -> v <> JNull -> getitem o key = Ret v.
Proof.
  intros H Hv. destruct o; simpl in H; try discriminate. simpl.
  destruct (assoc key fields); [exact H|]. injection H as <-. contradiction.
Qed.

Lemma number_not_null (v : json) : is_int_or_float v = true -> v <> JNull.
Proof. intros H ->. discriminate. Qed.

Lemma int_not_null (v : json) : is_int v = true -> v <> JNull.
Proof. intros H ->. discriminate. Qed.

Lemma truthy_not_null (v : json) : Json.truthy v = true -> v <> JNull.
Proof. intros H ->. discriminate. Qed.

(** What a payload that passes the validation holds. *)
Lemma validate_weather_data_true (data : json) :
  validate_weather_data data = Ret true ->
  exists t fl h sp la lo wl w0 d,
    (section_get data (lit "main") (lit "temp") = Ret t /\ is_int_or_float t = true)
    /\ (section_get data (lit "main") (lit "feels_like") = Ret fl
        /\ is_int_or_float fl = true)
    /\ (section_get data (lit "main") (lit "humidity") = Ret h /\ is_int h = true)
    /\ (section_get data (lit "wind") (lit "speed") = Ret sp /\ is_int_or_float sp = true)
    /\ (section_get data (lit "coord") (lit "lat") = Ret la /\ is_int_or_float la = true)
    /\ (section_get data (lit "coord") (lit "lon") = Ret lo /\ is_int_or_float lo = true)
    /\ (getitem data (lit "weather") = Ret wl /\ getitem0 wl = Ret w0)
    /\ (Json.get w0 (lit "description") = Ret d /\ Json.truthy d = true).
Proof.
  unfold validate_weather_data. intros H.
  apply bind_Ret in H. destruct H as [ok [_ H]].
  destruct ok; cbn [negb] in H; [|discriminate].
  apply bind_Ret in H. destruct H as [t [Ht H]].
  destruct (is_int_or_float t) eqn:Et; cbn [negb] in H; [|discriminate].
  apply bind_Ret in H. destruct H as [fl [Hfl H]].
  destruct (is_int_or_float fl) eqn:Efl; cbn [negb] in H; [|discriminate].
  apply bind_Ret in H. destruct H as [h [Hh H]].
  destruct (is_int h) eqn:Eh; cbn [negb] in H; [|discriminate].
  apply bind_Ret in H. destruct H as [sp [Hsp H]].
  destruct (is_int_or_float sp) eqn:Esp; cbn [negb] in H; [|discriminate].
  apply bind_Ret in H. destruct H as [la [Hla H]].
  destruct (is_int_or_float la) eqn:Ela; cbn [negb] in H; [|discriminate].
  apply bind_Ret in H. destruct H as [lo [Hlo H]].
  destruct (is_int_or_float lo) eqn:Elo; cbn [negb] in H; [|discriminate].
  apply bind_Ret in H. destruct H as [wl [Hwl H]].
  destruct (Json.truthy wl); cbn [negb] in H; [|discriminate].
  destruct (is_list wl); cbn [negb] in H; [|discriminate].
  apply bind_Ret in H. destruct H as [w0 [Hw0 H]].
  apply bind_Ret in H. destruct H as [d [Hd H]].
  destruct (Json.truthy d) eqn:Ed; cbn [negb] in H; [|discriminate].
  exists t, fl, h, sp, la, lo, wl, w0, d. repeat split; assumption.
Qed.

(** X12: on a payload that passes [validate_weather_data], the formatting
    reads the temperature, the felt temperature, the humidity, the wind
    speed, the coordinates and the description without failure; it can fail
    only in the country name lookup or because the first condition has no
    [main] or no [icon], and otherwise it answers 200 with the values of the
    payload. *)
Theorem format_weather_validated (city cc data : json) :
  validate_weather_data data = Ret true ->
  exists t fl h sp la lo wl w0 d,
    section_get data (lit "main") (lit "temp") = Ret t
    /\ section_get data (lit "main") (lit "feels_like") = Ret fl
    /\ section_get data (lit "main") (lit "humidity") = Ret h
    /\ section_get data (lit "wind") (lit "speed") = Ret sp
    /\ section_get data (lit "coord") (lit "lat") = Ret la
    /\ section_get data (lit "coord") (lit "lon") = Ret lo
    /\ getitem data (lit "weather") = Ret wl /\ getitem0 wl = Ret w0
    /\ Json.get w0 (lit "description") = Ret d
    /\ format_weather city cc data
       = (cname <- get_country_name cc ;;
          wmain <- getitem w0 (lit "main") ;;
          ic <- getitem w0 (lit "icon") ;;
          Ret {| status := 200;
                 payload := Weather {| w_city := city; w_country := cname; w_temp := t;
                                       w_feels_like := fl; w_weather := wmain;
                                       w_description := d; w_humidity := h;
                                       w_wind_speed := sp; w_icon := ic;
                                       w_lat := la; w_lon := lo |} |})%res.
Proof.
  intros Hv.
  destruct (validate_weather_data_true data Hv)
    as (t & fl & h & sp & la & lo & wl & w0 & d &
        [Ht Et] & [Hfl Efl] & [Hh Eh] & [Hsp Esp] & [Hla Ela] & [Hlo Elo]
        & [Hwl Hw0] & [Hd Ed]).
  exists t, fl, h, sp, la, lo, wl, w0, d. repeat (split; [assumption|]).
  destruct (@section_get_present _ _ _ _ Ht (@number_not_null _ Et)) as (main & Hmain & Gt).
  destruct (@section_get_present _ _ _ _ Hfl (@number_not_null _ Efl)) as (main2 & Hmain2 & Gfl).
  destruct (@section_get_present _ _ _ _ Hh (@int_not_null _ Eh)) as (main3 & Hmain3 & Gh).
  destruct (@section_get_present _ _ _ _ Hsp (@number_not_null _ Esp)) as (wind & Hwind & Gsp).
  destruct (@section_get_present _ _ _ _ Hla (@number_not_null _ Ela)) as (coord & Hcoord & Gla).
  destruct (@section_get_present _ _ _ _ Hlo (@number_not_null _ Elo)) as (coord2 & Hcoord2 & Glo).
  assert (main2 = main) by congruence. assert (main3 = main) by congruence.
  assert (coord2 = coord) by congruence. subst main2 main3 coord2.
  assert (Gd : getitem w0 (lit "description") = Ret d).
  { apply get_present; [exact Hd | apply truthy_not_null; exact Ed]. }
  unfold format_weather. rewrite Hv. cbn [bind negb].
  destruct (get_country_name cc) as [cname|e]; [|reflexivity]. cbn [bind].
  rewrite Hmain. cbn [bind]. rewrite Gt. cbn [bind]. rewrite Gfl. cbn [bind].
  rewrite Hwl. cbn [bind]. rewrite Hw0. cbn [bind].
  destruct (getitem w0 (lit "main")) as [wmain|e]; [|reflexivity]. cbn [bind].
  rewrite Gd. cbn [bind]. rewrite Gh. cbn [bind]. rewrite Hwind. cbn [bind].
  rewrite Gsp. cbn [bind].
  destruct (getitem w0 (lit "icon")) as [ic|e]; [|reflexivity]. cbn [bind].
  rewrite Hcoord. cbn [bind]. rewrite Gla. cbn [bind]. rewrite Glo. reflexivity.
Qed.

(** X13: when the geocoding lookup of the weather handler fails with an
    HTTP status, the handler answers 401, 429 or 404 for these statuses and
    500 for any other one; when the lookup finds no candidate it answers 404.
    In both cases the lookup is the only outbound call. *)
Theorem weather_lookup_failure (w : world) (l nl : str) :
  PyStr.truthy l = true -> validate_location l = true ->
  normalize_location l = Some nl ->
  (forall code,
     outcome (geo_lookup (List.length (sent w)) nl) = Raise (HTTPError code) ->
     status (fst (get_weather w (Some l)))
     = (if (code =? 401) || (code =? 429) || (code =? 404) then code else 500)
     /\ sent (snd (get_weather w (Some l))) = sent w ++ [GeoLookup nl])
  /\ (forall geo_data,
        outcome (geo_lookup (List.length (sent w)) nl) = Ret geo_data ->
        Json.truthy geo_data = false ->
        fst (get_weather w (Some l)) = failure 404 LocationNotFound
        /\ sent (snd (get_weather w (Some l))) = sent w ++ [GeoLookup nl]).
Proof.
  intros Ht Hv Hn. split.
  - intros code Hg. unfold get_weather. rewrite Ht, Hv, Hn. cbn [negb].
    unfold weather_try, send_lookup. rewrite Hg. cbn [fst snd sent weather_except].
    split; [|reflexivity].
    destruct (Z.eqb_spec code 401) as [->|]; [reflexivity|].
    destruct (Z.eqb_spec code 429) as [->|]; [reflexivity|].
    destruct (Z.eqb_spec code 404) as [->|]; reflexivity.
  - intros geo_data Hg Hempty. unfold get_weather. rewrite Ht, Hv, Hn. cbn [negb].
    unfold weather_try, send_lookup. rewrite Hg, Hempty. cbn [negb fst snd sent].
    split; reflexivity.
Qed.

(** ** Forecast: the order of the days *)

Lemma first_seen_order_In (x : str) (l : list str) :
  In x (first_seen_order l) <-> In x l.
Proof.
  induction l as [|a l IH]; simpl; [reflexivity|].
  rewrite filter_In, IH. split.
  - intros [H|[H _]]; [left; exact H | right; exact H].
  - intros [H|H]; [left; exact H|].
    destruct (PyStr.eqb x a) eqn:E.
    + apply eqb_eq in E. left. symmetry. exact E.
    + right. split; [exact H | reflexivity].
Qed.

Lemma first_seen_order_snoc (l : list str) (x : str) :
  first_seen_order (l ++ [x])
  = if in_dec (list_eq_dec N.eq_dec) x l then first_seen_order l
    else first_seen_order l ++ [x].
Proof.
  induction l as [|a l IH]; [reflexivity|].
  cbn [app first_seen_order]. rewrite IH.
  destruct (in_dec (list_eq_dec N.eq_dec) x l) as [Hin|Hnot].
  - destruct (in_dec (list_eq_dec N.eq_dec) x (a :: l)) as [_|Hbad]; [reflexivity|].
    exfalso. apply Hbad. right. exact Hin.
  - rewrite filter_app. cbn [filter].
    destruct (in_dec (list_eq_dec N.eq_dec) x (a :: l)) as [[E|Hin]|Hnot'].
    + subst a. rewrite eqb_refl. cbn [negb]. rewrite app_nil_r. reflexivity.
    + contradiction.
    + assert (E : PyStr.eqb x a = false).
      { apply eqb_neq. intros ->. apply Hnot'. left. reflexivity. }
      rewrite E. reflexivity.
Qed.

(** The keys of [daily_data] are the dates of the samples in the order of
    their first occurrence. *)
Lemma group_by_date_order (samples : list sample) :
  map fst (group_by_date samples)
  = first_seen_order (map (fun s => date_of (s_dt s)) samples).
Proof.
  induction samples as [|x l IH] using rev_ind; [reflexivity|].
  unfold group_by_date in *. rewrite fold_left_app. cbn [fold_left].
  set (g := fold_left add_sample l []) in *.
  unfold add_sample. rewrite dict_update_keys.
  rewrite map_app. cbn [map]. rewrite first_seen_order_snoc.
  set (date := date_of (s_dt x)).
  destruct (dict_has date g) eqn:E.
  - apply dict_has_In in E. rewrite IH in E.
    apply (proj1 (first_seen_order_In _ _)) in E.
    destruct (in_dec (list_eq_dec N.eq_dec) date
                (map (fun s => date_of (s_dt s)) l)) as [_|Hn];
      [exact IH | exfalso; apply Hn; exact E].
  - destruct (in_dec (list_eq_dec N.eq_dec) date
                (map (fun s => date_of (s_dt s)) l)) as [Hin|_].
    + apply (proj2 (first_seen_order_In _ _)) in Hin. rewrite <- IH in Hin.
      apply (proj2 (dict_has_In _ _)) in Hin. congruence.
    + rewrite map_app, IH. reflexivity.
Qed.

(** X14: the forecast has one day per date of the samples, and the days
    come in the order in which their dates first occur in the samples. *)
Theorem forecast_days_in_first_seen_order (samples : list sample)
    (days : list forecast_day) :
  forecast_days samples = Ret days ->
  map fd_date days = first_seen_order (map (fun s => date_of (s_dt s)) samples).
Proof.
  intros H. rewrite <- group_by_date_order.
  unfold forecast_days in H. apply map_res_Ret in H.
  induction H as [|[d info] fd g days' Hs Hrest IH]; [reflexivity|].
  cbn [map fst]. rewrite IH. apply summarize_Ret in Hs.
  destruct Hs as (? & ? & ? & ? & _ & _ & _ & _ & ->). reflexivity.
Qed.

(** ** The forecast handler *)

Lemma forecast_except_status (e : exn) :
  f_status (forecast_except e) = 401 \/ f_status (forecast_except e) = 429
  \/ f_status (forecast_except e) = 404 \/ f_status (forecast_except e) = 500.
Proof.
  destruct e; simpl; auto.
  destruct (status_code =? 401); [auto|].
  destruct (status_code =? 429); [auto|].
  destruct (status_code =? 404); auto.
Qed.

Lemma send_lookup_facts (w : world) (q : str) :
  sent (snd (send_lookup w q)) = sent w ++ [GeoLookup q]
  /\ search_cache (snd (send_lookup w q)) = search_cache w
  /\ forecast_cache (snd (send_lookup w q)) = forecast_cache w.
Proof. unfold send_lookup. simpl. repeat split. Qed.

Lemma send_forecast_facts (w : world) (la lo : json) :
  sent (snd (send_forecast w la lo)) = sent w
  /\ search_cache (snd (send_forecast w la lo)) = search_cache w
  /\ forecast_cache (snd (send_forecast w la lo)) = forecast_cache w.
Proof. unfold send_forecast. simpl. repeat split. Qed.

(** The [try] block of [get_forecast]: one geocoding lookup, at most one
    forecast call, and a stored document exactly when the answer is 200. *)
Lemma forecast_try_full (w : world) (nl cache_key : str) :
  sent (snd (fst (forecast_try w nl cache_key))) = sent w ++ [GeoLookup nl]
  /\ search_cache (snd (fst (forecast_try w nl cache_key))) = search_cache w
  /\ (List.length (snd (forecast_try w nl cache_key)) <= 1)%nat
  /\ match fst (fst (forecast_try w nl cache_key)) with
     | Ret resp =>
         (exists w2 city cc samples formatted,
            resp = {| f_status := 200; f_payload := Forecast formatted |}
            /\ format_forecast city cc samples = Ret formatted
            /\ snd (fst (forecast_try w nl cache_key))
               = store_forecast w2 cache_key formatted
            /\ forecast_cache w2 = forecast_cache w)
         \/ ((f_status resp = 404 \/ f_status resp = 500)
             /\ forecast_cache (snd (fst (forecast_try w nl cache_key)))
                = forecast_cache w)
     | Raise _ =>
         forecast_cache (snd (fst (forecast_try w nl cache_key))) = forecast_cache w
     end.
Proof.
  unfold forecast_try.
  destruct (send_lookup_facts w nl) as (Hs & Hc & Hf).
  destruct (send_lookup w nl) as [r1 w1]. cbn [fst snd] in Hs, Hc, Hf.
  destruct r1 as [geo_data|e]; [|cbn [fst snd]; repeat split; auto; simpl; lia].
  destruct (negb (Json.truthy geo_data)).
  - cbn [fst snd]. split; [exact Hs|]. split; [exact Hc|]. split; [simpl; lia|].
    right. split; [left; reflexivity | exact Hf].
  - destruct (first_candidate geo_data) as [[[[la lo] city] cc]|e];
      [|cbn [fst snd]; repeat split; auto; simpl; lia].
    destruct (send_forecast_facts w1 la lo) as (Hs2 & Hc2 & Hf2).
    destruct (send_forecast w1 la lo) as [r2 w2]. cbn [fst snd] in Hs2, Hc2, Hf2.
    destruct r2 as [[samples|]|e]; cbn [fst snd].
    + destruct (format_forecast city cc samples) as [formatted|e] eqn:Ef; cbn [fst snd].
      * split; [cbn [store_forecast sent]; congruence|].
        split; [cbn [store_forecast search_cache]; congruence|].
        split; [simpl; lia|].
        left. exists w2, city, cc, samples, formatted.
        split; [reflexivity|]. split; [exact Ef|]. split; [reflexivity | congruence].
      * split; [congruence|]. split; [congruence|]. split; [simpl; lia | congruence].
    + split; [congruence|]. split; [congruence|]. split; [simpl; lia|].
      right. split; [right; reflexivity | congruence].
    + split; [congruence|]. split; [congruence|]. split; [simpl; lia | congruence].
Qed.

Lemma get_forecast_valid (w : world) (l nl : str) :
  PyStr.truthy l = true -> validate_location l = true ->
  normalize_location l = Some nl ->
  let cache_key := forecast_cache_key nl in
  let g := TTLCache.get (forecast_cache w) (clock w) cache_key in
  let w0 := {| clock := clock w; search_cache := search_cache w;
               forecast_cache := snd g; sent := sent w |} in
  get_forecast w (Some l)
  = match fst g with
    | Some formatted => ({| f_status := 200; f_payload := Forecast formatted |}, w0, [])
    | None =>
        match forecast_try w0 nl cache_key with
        | (Ret resp, w1, calls) => (resp, w1, calls)
        | (Raise e, w1, calls) => (forecast_except e, w1, calls)
        end
    end.
Proof.
  intros Ht Hv Hn cache_key g w0. unfold get_forecast. rewrite Ht, Hv, Hn. cbn [negb].
  fold cache_key. fold g. unfold w0. destruct g as [cached fc]. reflexivity.
Qed.

(** X16: the forecast handler answers with one of the statuses 200, 400,
    401, 404, 429 and 500, makes at most one call to the forecast endpoint
    and leaves the search cache as it is; when its answer is not 200, the
    forecast cache holds the entries it held before. *)
Theorem forecast_failure_not_cached (w : world) (location : option str) :
  handler_status (f_status (fst (fst (get_forecast w location))))
  /\ (List.length (snd (get_forecast w location)) <= 1)%nat
  /\ search_cache (snd (fst (get_forecast w location))) = search_cache w
  /\ (f_status (fst (fst (get_forecast w location))) <> 200 ->
      same_entries (forecast_cache (snd (fst (get_forecast w location))))
                   (forecast_cache w)).
Proof.
  unfold handler_status, same_entries, get_forecast.
  destruct location as [l|]; [|cbn [fst snd]; repeat split; auto; simpl; lia].
  destruct (negb (PyStr.truthy l)); [cbn [fst snd]; repeat split; auto; simpl; lia|].
  destruct (negb (validate_location l));
    [cbn [fst snd]; repeat split; auto; simpl; lia|].
  destruct (normalize_location l) as [nl|];
    [|cbn [fst snd]; repeat split; auto; simpl; lia].
  pose proof (get_links (forecast_cache w) (clock w) (forecast_cache_key nl)) as Hlinks.
  destruct (TTLCache.get (forecast_cache w) (clock w) (forecast_cache_key nl))
    as [[cached|] fc]; cbn [snd] in Hlinks.
  - cbn [fst snd f_status search_cache].
    repeat split; auto; try (simpl; lia); try (intros H; contradiction).
  - match goal with
    | |- context [forecast_try ?w0 _ _] =>
        destruct (forecast_try_full w0 nl (forecast_cache_key nl))
          as (_ & Hc & Hlen & Hr);
        destruct (forecast_try w0 nl (forecast_cache_key nl)) as [[r w1] calls]
    end.
    cbn [fst snd search_cache forecast_cache] in Hc, Hlen, Hr.
    destruct r as [resp|e]; cbn [fst snd].
    + destruct Hr as [(w2 & city & cc & samples & formatted & -> & _)|[Hst Hf]].
      * cbn [f_status]. repeat split; auto; try (intros H; contradiction).
      * split; [destruct Hst as [Hst|Hst]; rewrite Hst; auto 10|].
        split; [exact Hlen|]. split; [exact Hc|]. intros _. rewrite Hf. exact Hlinks.
    + split; [destruct (forecast_except_status e) as [H|[H|[H|H]]]; rewrite H; auto 10|].
      split; [exact Hlen|]. split; [exact Hc|]. intros _. rewrite Hr. exact Hlinks.
Qed.

(** X17: the forecast handler answers 400 exactly when the location is
    missing or empty, or fails [validate_location], or fails
    [normalize_location]; a request that is answered 400 makes no call and
    leaves the world as it is. *)
Theorem forecast_client_error (w : world) (location : option str) :
  (f_status (fst (fst (get_forecast w location))) = 400
   <-> match location with
       | None => True
       | Some l => PyStr.truthy l = false \/ validate_location l = false
                   \/ normalize_location l = None
       end)
  /\ (f_status (fst (fst (get_forecast w location))) = 400 ->
      snd (fst (get_forecast w location)) = w /\ snd (get_forecast w location) = []).
Proof.
  unfold get_forecast. destruct location as [l|]; [|split; [split; auto | auto]].
  destruct (PyStr.truthy l); cbn [negb]; [|split; [split; auto | auto]].
  destruct (validate_location l); cbn [negb]; [|split; [split; auto | auto]].
  destruct (normalize_location l) as [nl|]; [|split; [split; auto | auto]].
  assert (Hno : forall out : forecast_response * world * list (json * json),
            f_status (fst (fst out)) <> 400 ->
            (f_status (fst (fst out)) = 400
             <-> (true = false \/ true = false \/ Some nl = None))
            /\ (f_status (fst (fst out)) = 400 ->
                snd (fst out) = w /\ snd out = [])).
  { intros out H. split; [split|]; intros H'; try contradiction.
    destruct H' as [H'|[H'|H']]; discriminate. }
  destruct (TTLCache.get (forecast_cache w) (clock w) (forecast_cache_key nl))
    as [[cached|] fc]; [apply Hno; discriminate|].
  match goal with
  | |- context [forecast_try ?w0 _ _] =>
      destruct (forecast_try_full w0 nl (forecast_cache_key nl)) as (_ & _ & _ & Hr);
      destruct (forecast_try w0 nl (forecast_cache_key nl)) as [[r w1] calls]
  end.
  cbn [fst snd] in Hr. destruct r as [resp|e]; apply Hno; cbn [fst snd].
  - destruct Hr as [(w2 & city & cc & samples & formatted & -> & _)|[[Hst|Hst] _]];
      [discriminate | rewrite Hst; discriminate | rewrite Hst; discriminate].
  - destruct (forecast_except_status e) as [H|[H|[H|H]]]; rewrite H; discriminate.
Qed.

(** ** Requests one after the other: what stays in a cache *)

Lemma find_app_some {A : Type} (f : A -> bool) (l l' : list A) (x : A) :
  find f l = Some x -> find f (l ++ l') = Some x.
Proof.
  induction l as [|y l IH]; simpl; [discriminate|].
  destruct (f y); [auto | exact IH].
Qed.

(** The links that [expire] drops are expired. *)
Lemma drop_expired_find {V : Type} (now : Z) (ls : list (TTLCache.link V))
    (k : str) (l : TTLCache.link V) :
  find (TTLCache.has_key k) ls = Some l -> now < TTLCache.l_expires l ->
  find (TTLCache.has_key k) (fst (TTLCache.drop_expired now ls)) = Some l.
Proof.
  induction ls as [|x ls IH]; cbn [find TTLCache.drop_expired]; [discriminate|].
  intros Hf Hl. unfold TTLCache.expired.
  destruct (Z.ltb_spec now (TTLCache.l_expires x)) as [Hlive|Hdead]; cbn [negb].
  - exact Hf.
  - destruct (TTLCache.has_key k x) eqn:Hk.
    + injection Hf as <-. lia.
    + specialize (IH Hf Hl).
      destruct (TTLCache.drop_expired now ls) as [rest gone]. exact IH.
Qed.

Lemma drop_expired_length {V : Type} (now : Z) (ls : list (TTLCache.link V)) :
  (List.length (fst (TTLCache.drop_expired now ls)) <= List.length ls)%nat.
Proof.
  induction ls as [|x ls IH]; cbn [TTLCache.drop_expired]; [simpl; lia|].
  destruct (TTLCache.expired now x); [|simpl; lia].
  destruct (TTLCache.drop_expired now ls) as [rest gone]. simpl in *. lia.
Qed.

Lemma expire_links {V : Type} (now : Z) (c : TTLCache.t V) :
  TTLCache.links (TTLCache.expire now c)
  = fst (TTLCache.drop_expired now (TTLCache.links c)).
Proof.
  unfold TTLCache.expire.
  destruct (TTLCache.drop_expired now (TTLCache.links c)). reflexivity.
Qed.

(** Nothing is evicted while there is room. *)
Lemma make_room_small {V : Type} (fuel maxsize : nat) (c : TTLCache.t V) :
  (List.length (TTLCache.links c) < maxsize)%nat ->
  TTLCache.make_room fuel maxsize c = c.
Proof.
  intros H. destruct fuel; cbn [TTLCache.make_room]; [reflexivity|].
  destruct (Nat.ltb_spec maxsize (List.length (TTLCache.links c) + 1)); [lia|].
  reflexivity.
Qed.

Lemma filter_length_le {A : Type} (f : A -> bool) (l : list A) :
  (List.length (filter f l) <= List.length l)%nat.
Proof.
  induction l as [|x l IH]; simpl; [lia|]. destruct (f x); simpl; lia.
Qed.

Lemma make_room_length {V : Type} (fuel maxsize : nat) (c : TTLCache.t V) :
  (List.length (TTLCache.links (TTLCache.make_room fuel maxsize c))
   <= List.length (TTLCache.links c))%nat.
Proof.
  revert c. induction fuel as [|fuel IH]; intros c; cbn [TTLCache.make_room]; [lia|].
  destruct (maxsize <? List.length (TTLCache.links c) + 1)%nat; [|lia].
  destruct (TTLCache.order c) as [|k ks]; [lia|].
  eapply Nat.le_trans; [apply IH|]. unfold TTLCache.remove. cbn [TTLCache.links].
  apply filter_length_le.
Qed.

Lemma find_filter_other {V : Type} (k k' : str) (ls : list (TTLCache.link V))
    (l : TTLCache.link V) :
  PyStr.eqb k' k = false ->
  find (TTLCache.has_key k) ls = Some l ->
  find (TTLCache.has_key k) (filter (fun x => negb (TTLCache.has_key k' x)) ls) = Some l.
Proof.
  intros Hne. induction ls as [|x ls IH]; cbn [find filter]; [discriminate|].
  destruct (TTLCache.has_key k x) eqn:Hk.
  - intros H. injection H as <-.
    assert (Hk' : TTLCache.has_key k' x = false).
    { unfold TTLCache.has_key in *. apply eqb_eq in Hk. rewrite Hk.
      rewrite eqb_sym. exact Hne. }
    rewrite Hk'. cbn [negb find]. rewrite Hk. reflexivity.
  - intros H. destruct (negb (TTLCache.has_key k' x)); cbn [find];
      [rewrite Hk|]; apply IH; exact H.
Qed.

(** Storing under another key keeps a value that has not expired, as long
    as there is room. *)
Lemma setitem_other {V : Type} (maxsize : nat) (ttl : Z) (c : TTLCache.t V)
    (now : Z) (k k' : str) (v v' : V) (e : Z) :
  PyStr.eqb k' k = false ->
  holds c k v e -> now < e ->
  (List.length (TTLCache.links c) < maxsize)%nat ->
  holds (TTLCache.setitem maxsize ttl c now k' v') k v e.
Proof.
  unfold holds, TTLCache.find_link. intros Hne Hh Hlive Hroom.
  assert (H1 : find (TTLCache.has_key k) (TTLCache.links (TTLCache.expire now c))
               = Some {| TTLCache.l_key := k; TTLCache.l_value := v;
                         TTLCache.l_expires := e |}).
  { rewrite expire_links. apply drop_expired_find; [exact Hh | exact Hlive]. }
  assert (Hlen : (List.length (TTLCache.links (TTLCache.expire now c)) < maxsize)%nat).
  { rewrite expire_links.
    pose proof (drop_expired_length now (TTLCache.links c)). lia. }
  unfold TTLCache.setitem. cbn [TTLCache.links].
  rewrite (make_room_small _ _ Hlen).
  assert (H2 : TTLCache.links
                 (TTLCache.remove k'
                    match TTLCache.find_link k' (TTLCache.expire now c) with
                    | Some _ => TTLCache.expire now c
                    | None => TTLCache.expire now c
                    end)
               = filter (fun x => negb (TTLCache.has_key k' x))
                   (TTLCache.links (TTLCache.expire now c))).
  { destruct (TTLCache.find_link k' (TTLCache.expire now c)); reflexivity. }
  rewrite H2. apply find_app_some. apply find_filter_other; assumption.
Qed.

Lemma setitem_length {V : Type} (maxsize : nat) (ttl : Z) (c : TTLCache.t V)
    (now : Z) (k : str) (v : V) :
  (entries (TTLCache.setitem maxsize ttl c now k v) <= S (entries c))%nat.
Proof.
  unfold entries, TTLCache.setitem. cbn [TTLCache.links].
  rewrite length_app. cbn [List.length].
  assert (H : (List.length
                 (TTLCache.links
                    (TTLCache.remove k
                       match TTLCache.find_link k (TTLCache.expire now c) with
                       | Some _ => TTLCache.expire now c
                       | None =>
                           TTLCache.make_room
                             (List.length (TTLCache.links (TTLCache.expire now c)))
                             maxsize (TTLCache.expire now c)
                       end))
               <= List.length (TTLCache.links c))%nat).
  { unfold TTLCache.remove. cbn [TTLCache.links].
    eapply Nat.le_trans; [apply filter_length_le|].
    pose proof (drop_expired_length now (TTLCache.links c)) as Hd.
    rewrite <- expire_links in Hd.
    destruct (TTLCache.find_link k (TTLCache.expire now c)); [exact Hd|].
    eapply Nat.le_trans; [apply make_room_length | exact Hd]. }
  lia.
Qed.

(** What was stored is held. *)
Lemma setitem_holds {V : Type} (maxsize : nat) (ttl : Z) (c : TTLCache.t V)
    (now : Z) (k : str) (v : V) :
  holds (TTLCache.setitem maxsize ttl c now k v) k v (now + ttl).
Proof.
  unfold holds, TTLCache.find_link, TTLCache.setitem. cbn [TTLCache.links].
  rewrite find_app_none by apply (find_filter_negb (TTLCache.has_key k)).
  cbn [find]. unfold TTLCache.has_key at 1. cbn [TTLCache.l_key].
  rewrite eqb_refl. reflexivity.
Qed.

(** A value that is held is found until it expires; a lookup does not
    change what is held. *)
Lemma get_holds {V : Type} (c : TTLCache.t V) (t : Z) (k : str) (v : V) (e : Z) :
  holds c k v e -> t < e -> fst (TTLCache.get c t k) = Some v.
Proof.
  unfold holds, TTLCache.get. intros -> H. cbn [TTLCache.l_expires TTLCache.l_value].
  destruct (Z.ltb_spec t e); [reflexivity | lia].
Qed.

Lemma holds_links {V : Type} (c c' : TTLCache.t V) (k : str) (v : V) (e : Z) :
  TTLCache.links c' = TTLCache.links c -> holds c k v e -> holds c' k v e.
Proof. unfold holds, TTLCache.find_link. intros ->. auto. Qed.

(** *** The clock does not go back *)

Lemma search_page_clock (w : world) (q_arg country_arg : str) (page : Z) :
  clock w <= clock (snd (search_page w q_arg country_arg page)).
Proof.
  pose proof (search_locations_cases w q_arg country_arg page) as H. cbv zeta in H.
  destruct H as [[_ H]|[_ [H|[H|H]]]].
  - rewrite H. cbn [snd]. lia.
  - destruct H as (p & ps & _ & H). rewrite H. cbn [snd clock]. lia.
  - destruct H as (_ & _ & H). rewrite H. cbn [snd clock]. lia.
  - destruct H as (_ & q & _ & _ & H & _). exact H.
Qed.

Lemma search_route_clock (admitted : bool) (w : world) (q_arg country_arg : str)
    (page_arg : option str) :
  clock w <= clock (snd (search_route admitted w q_arg country_arg page_arg)).
Proof.
  unfold search_route, search_locations. destruct admitted; [|cbn [snd]; lia].
  destruct (parse_page page_arg) as [page|e]; [apply search_page_clock | cbn [snd]; lia].
Qed.

(** The weather handler leaves the caches as they are, and its calls take
    time. *)
Lemma get_weather_frame (w : world) (location : option str) :
  search_cache (snd (get_weather w location)) = search_cache w
  /\ forecast_cache (snd (get_weather w location)) = forecast_cache w
  /\ clock w <= clock (snd (get_weather w location)).
Proof.
  assert (Hsame : forall resp : response,
            search_cache (snd (resp, w)) = search_cache w
            /\ forecast_cache (snd (resp, w)) = forecast_cache w
            /\ clock w <= clock (snd (resp, w)))
    by (intros resp; cbn [snd]; repeat split; lia).
  unfold get_weather.
  destruct location as [location|]; [|apply Hsame].
  destruct (negb (PyStr.truthy location)); [apply Hsame|].
  destruct (negb (validate_location location)); [apply Hsame|].
  destruct (normalize_location location) as [nl|]; [|apply Hsame].
  unfold weather_try, send_lookup.
  destruct (outcome (geo_lookup (List.length (sent w)) nl)) as [geo_data|e];
    [|cbn [snd search_cache forecast_cache clock]; repeat split; lia].
  destruct (negb (Json.truthy geo_data));
    [cbn [snd search_cache forecast_cache clock]; repeat split; lia|].
  destruct (first_candidate geo_data) as [[[[la lo] city] cc]|e];
    [|cbn [snd search_cache forecast_cache clock]; repeat split; lia].
  unfold send_weather. cbn [sent clock search_cache forecast_cache].
  destruct (outcome (weather_api _ la lo)) as [data|e];
    [|cbn [snd search_cache forecast_cache clock]; repeat split; lia].
  destruct (format_weather city cc data);
    cbn [snd search_cache forecast_cache clock]; repeat split; lia.
Qed.

Lemma forecast_try_clock (w : world) (nl cache_key : str) :
  clock w <= clock (snd (fst (forecast_try w nl cache_key))).
Proof.
  unfold forecast_try, send_lookup.
  destruct (outcome (geo_lookup (List.length (sent w)) nl)) as [geo_data|e];
    [|cbn [fst snd clock]; lia].
  destruct (negb (Json.truthy geo_data)); [cbn [fst snd clock]; lia|].
  destruct (first_candidate geo_data) as [[[[la lo] city] cc]|e];
    [|cbn [fst snd clock]; lia].
  unfold send_forecast. cbn [sent clock].
  destruct (outcome (forecast_api _ la lo)) as [[samples|]|e];
    try (cbn [fst snd clock]; lia).
  destruct (format_forecast city cc samples);
    cbn [fst snd clock store_forecast]; lia.
Qed.

(** The forecast handler: the search cache stays, the clock does not go
    back, and the forecast cache keeps what it holds under another key while
    there is room. *)
Lemma get_forecast_frame (w : world) (location : option str) :
  search_cache (snd (fst (get_forecast w location))) = search_cache w
  /\ clock w <= clock (snd (fst (get_forecast w location))).
Proof.
  assert (Hsame : forall (resp : forecast_response) (calls : list (json * json)),
            search_cache (snd (fst (resp, w, calls))) = search_cache w
            /\ clock w <= clock (snd (fst (resp, w, calls))))
    by (intros resp calls; cbn [fst snd]; split; [reflexivity | lia]).
  unfold get_forecast.
  destruct location as [l|]; [|apply Hsame].
  destruct (negb (PyStr.truthy l)); [apply Hsame|].
  destruct (negb (validate_location l)); [apply Hsame|].
  destruct (normalize_location l) as [nl|]; [|apply Hsame].
  destruct (TTLCache.get (forecast_cache w) (clock w) (forecast_cache_key nl))
    as [[cached|] fc]; [cbn [fst snd search_cache clock]; split; [reflexivity | lia]|].
  match goal with
  | |- context [forecast_try ?w0 _ _] =>
      destruct (forecast_try_full w0 nl (forecast_cache_key nl)) as (_ & Hc & _);
      pose proof (forecast_try_clock w0 nl (forecast_cache_key nl)) as Ht;
      destruct (forecast_try w0 nl (forecast_cache_key nl)) as [[r w1] calls]
  end.
  cbn [fst snd search_cache clock] in Hc, Ht.
  destruct r; cbn [fst snd]; split; assumption.
Qed.

Lemma serve_clock (w : world) (a : arrival) : clock w <= clock (serve w a).
Proof.
  unfold serve. destruct a as [g adm r]. cbn [gap admitted asked].
  destruct r as [q c p|l|l].
  - pose proof (search_route_clock adm (advance (Z.of_N g) w) q c p) as H.
    cbn [advance clock] in H. lia.
  - unfold weather_route. destruct adm; [|cbn [snd advance clock]; lia].
    destruct (get_weather_frame (advance (Z.of_N g) w) l) as (_ & _ & H).
    cbn [advance clock] in H. lia.
  - unfold forecast_route. destruct adm; [|cbn [fst snd advance clock]; lia].
    destruct (get_forecast_frame (advance (Z.of_N g) w) l) as (_ & H).
    cbn [advance clock] in H. lia.
Qed.

Lemma run_clock (l : list arrival) (w : world) : clock w <= clock (run w l).
Proof.
  revert w. induction l as [|a l IH]; intros w; [cbn; lia|].
  unfold run in *. cbn [fold_left].
  pose proof (serve_clock w a). specialize (IH (serve w a)). lia.
Qed.

(** *** What a search keeps in the search cache *)





(** *** What a forecast request keeps in the forecast cache *)

Lemma get_forecast_keeps (w : world) (location : option str)
    (k : str) (doc : forecast_doc) (e : Z) :
  holds (forecast_cache w) k doc e ->
  clock (snd (fst (get_forecast w location))) < e ->
  (entries (forecast_cache w) < 500)%nat ->
  holds (forecast_cache (snd (fst (get_forecast w location)))) k doc e
  /\ (entries (forecast_cache (snd (fst (get_forecast w location))))
      <= S (entries (forecast_cache w)))%nat.
Proof.
  intros Hh Hlive Hroom.
  assert (Hsame : forall (resp : forecast_response) (calls : list (json * json)),
            holds (forecast_cache (snd (fst (resp, w, calls)))) k doc e
            /\ (entries (forecast_cache (snd (fst (resp, w, calls))))
                <= S (entries (forecast_cache w)))%nat)
    by (intros resp calls; cbn [fst snd]; split; [exact Hh | lia]).
  unfold get_forecast in *.
  destruct location as [l|]; [|apply Hsame].
  destruct (negb (PyStr.truthy l)); [apply Hsame|].
  destruct (negb (validate_location l)); [apply Hsame|].
  destruct (normalize_location l) as [nl|]; [|apply Hsame].
  pose proof (get_links (forecast_cache w) (clock w) (forecast_cache_key nl)) as Hlinks.
  pose proof (fun t => @get_holds _ (forecast_cache w) t k doc e Hh) as Hget.
  destruct (TTLCache.get (forecast_cache w) (clock w) (forecast_cache_key nl))
    as [cached fc] eqn:Eg.
  cbn [snd] in Hlinks.
  assert (Hfc : holds fc k doc e /\ (entries fc <= S (entries (forecast_cache w)))%nat).
  { split; [apply holds_links with (c := forecast_cache w); assumption|].
    unfold entries. rewrite Hlinks. lia. }
  destruct cached as [cached|]; [cbn [fst snd forecast_cache]; exact Hfc|].
  match type of Hlive with
  | context [forecast_try ?w0 _ _] =>
      destruct (forecast_try_full w0 nl (forecast_cache_key nl)) as (_ & _ & _ & Hr);
      pose proof (forecast_try_clock w0 nl (forecast_cache_key nl)) as Ht;
      destruct (forecast_try w0 nl (forecast_cache_key nl)) as [[r w1] calls]
  end.
  cbn [fst snd forecast_cache clock] in Hr, Ht.
  assert (Hkept : forecast_cache w1 = fc ->
            holds (forecast_cache w1) k doc e
            /\ (entries (forecast_cache w1) <= S (entries (forecast_cache w)))%nat)
    by (intros ->; exact Hfc).
  destruct r as [resp|err]; cbn [fst snd] in Hlive |- *; [|apply Hkept; exact Hr].
  destruct Hr as [(w2 & city & cc & samples & formatted & _ & _ & Hw & Hc)|[_ Hc]];
    [|apply Hkept; exact Hc].
  rewrite Hw in Hlive, Ht |- *. cbn [store_forecast forecast_cache clock] in Hlive, Ht |- *.
  assert (Hne : PyStr.eqb (forecast_cache_key nl) k = false).
  { destruct (PyStr.eqb (forecast_cache_key nl) k) eqn:E; [|reflexivity].
    apply eqb_eq in E. exfalso.
    assert (H : fst (TTLCache.get (forecast_cache w) (clock w) (forecast_cache_key nl))
                = Some doc) by (rewrite E; apply Hget; lia).
    rewrite Eg in H. discriminate H. }
  rewrite Hc. split.
  + apply setitem_other; [exact Hne | apply Hfc | exact Hlive|].
    unfold entries in Hroom. rewrite Hlinks. exact Hroom.
  + eapply Nat.le_trans; [apply setitem_length|].
    unfold entries. rewrite Hlinks. lia.
Qed.

Lemma serve_keeps_forecast (w : world) (a : arrival)
    (k : str) (doc : forecast_doc) (e : Z) :
  holds (forecast_cache w) k doc e ->
  clock (serve w a) < e ->
  (entries (forecast_cache w) + (if is_forecast a then 1 else 0) <= 500)%nat ->
  holds (forecast_cache (serve w a)) k doc e
  /\ (entries (forecast_cache (serve w a))
      <= entries (forecast_cache w) + (if is_forecast a then 1 else 0))%nat.
Proof.
  unfold serve, is_forecast. destruct a as [g adm r]. cbn [gap admitted asked].
  destruct r as [q c pg|l|l]; intros Hh Hlive Hroom.
  - unfold search_route, search_locations.
    destruct adm; [|cbn [snd advance forecast_cache]; split; [exact Hh | lia]].
    destruct (parse_page pg) as [page|err];
      [|cbn [snd advance forecast_cache]; split; [exact Hh | lia]].
    rewrite search_page_forecast_cache. cbn [advance forecast_cache].
    split; [exact Hh | lia].
  - unfold weather_route. destruct adm;
      [|cbn [snd advance forecast_cache]; split; [exact Hh | lia]].
    destruct (get_weather_frame (advance (Z.of_N g) w) l) as (_ & Hc & _).
    rewrite Hc. cbn [advance forecast_cache]. split; [exact Hh | lia].
  - unfold forecast_route in *. destruct adm;
      [|cbn [fst snd advance forecast_cache]; split; [exact Hh | lia]].
    destruct (@get_forecast_keeps (advance (Z.of_N g) w) l k doc e Hh Hlive)
      as [H1 H2]; [cbn [advance forecast_cache]; lia|].
    cbn [advance forecast_cache] in H2. split; [exact H1 | lia].
Qed.

Lemma run_keeps_forecast (l : list arrival) (w : world)
    (k : str) (doc : forecast_doc) (e : Z) :
  holds (forecast_cache w) k doc e ->
  clock (run w l) < e ->
  (entries (forecast_cache w) + List.length (filter is_forecast l) <= 500)%nat ->
  holds (forecast_cache (run w l)) k doc e.
Proof.
  revert w. induction l as [|a l IH]; intros w Hh Hlive Hroom; [exact Hh|].
  unfold run in *. cbn [fold_left filter] in *.
  pose proof (run_clock l (serve w a)) as Hmono. unfold run in Hmono.
  assert (Hroom' : (entries (forecast_cache w) + (if is_forecast a then 1 else 0)
                    + List.length (filter is_forecast l) <= 500)%nat).
  { destruct (is_forecast a); cbn [List.length] in Hroom; lia. }
  destruct (@serve_keeps_forecast w a k doc e Hh) as [H1 H2]; [lia | lia|].
  apply IH; [exact H1 | exact Hlive | lia].
Qed.

(** X15: when a forecast request went upstream and was answered 200, a
    request whose location normalises to the same key is answered with the
    same document, without a geocoding or forecast call, as long as less
    than 3600 seconds have passed since that answer, whatever requests were
    served in between, provided that the entries of the forecast cache after
    that answer and the forecast requests served in between are not more
    than 500 together.  When such a request is the next one and comes 3600
    seconds or more after that answer, it looks the location up again. *)
Theorem forecast_cache_window (w : world) (l nl : str)
    (resp : forecast_response) (w1 : world) (calls : list (json * json)) :
  normalize_location l = Some nl ->
  get_forecast w (Some l) = (resp, w1, calls) ->
  sent w1 <> sent w ->
  f_status resp = 200 ->
  forall l',
    PyStr.truthy l' = true -> validate_location l' = true ->
    normalize_location l' = Some nl ->
    (forall (between : list arrival) (d : Z),
       (entries (forecast_cache w1) + List.length (filter is_forecast between)
        <= 500)%nat ->
       0 <= d -> clock (run w1 between) + d < clock w1 + 3600 ->
       get_forecast (advance d (run w1 between)) (Some l')
       = (resp, snd (fst (get_forecast (advance d (run w1 between)) (Some l'))), [])
       /\ sent (snd (fst (get_forecast (advance d (run w1 between)) (Some l'))))
          = sent (run w1 between))
    /\ (forall d, 3600 <= d ->
          sent (snd (fst (get_forecast (advance d w1) (Some l'))))
          = sent w1 ++ [GeoLookup nl]).
Proof.
  intros Hn Hrun Hsent H200 l' Ht' Hv' Hn'.
  assert (Hstored : exists w2 formatted,
            resp = {| f_status := 200; f_payload := Forecast formatted |}
            /\ w1 = store_forecast w2 (forecast_cache_key nl) formatted).
  { unfold get_forecast in Hrun.
    destruct (negb (PyStr.truthy l));
      [injection Hrun as _ E _; subst w1; contradiction|].
    destruct (negb (validate_location l));
      [injection Hrun as _ E _; subst w1; contradiction|].
    rewrite Hn in Hrun.
    destruct (TTLCache.get (forecast_cache w) (clock w) (forecast_cache_key nl))
      as [[cached|] fc];
      [injection Hrun as _ E _; subst w1; contradiction|].
    match type of Hrun with
    | context [forecast_try ?w0 _ _] =>
        destruct (forecast_try_full w0 nl (forecast_cache_key nl)) as (_ & _ & _ & Hr);
        destruct (forecast_try w0 nl (forecast_cache_key nl)) as [[r w1'] calls']
    end.
    cbn [fst snd] in Hr. destruct r as [resp'|e].
    - injection Hrun as <- <- _.
      destruct Hr as [(w2 & city & cc & samples & formatted & Hresp & _ & Hw & _)|[Hst _]].
      + exists w2, formatted. auto.
      + destruct Hst as [Hst|Hst]; rewrite Hst in H200; discriminate.
    - injection Hrun as <- _ _.
      destruct (forecast_except_status e) as [H|[H|[H|H]]]; rewrite H in H200;
        discriminate. }
  destruct Hstored as (w2 & formatted & -> & ->).
  split.
  - intros between d Hroom Hd Hlive. cbn [store_forecast clock] in Hlive.
    assert (Hh : holds (forecast_cache
                          (run (store_forecast w2 (forecast_cache_key nl) formatted)
                             between))
                   (forecast_cache_key nl) formatted (clock w2 + 3600)).
    { apply run_keeps_forecast; [apply setitem_holds | lia | exact Hroom]. }
    rewrite (@get_forecast_valid
               (advance d (run (store_forecast w2 (forecast_cache_key nl) formatted)
                             between)) l' nl Ht' Hv' Hn').
    cbn [advance forecast_cache clock sent search_cache].
    rewrite (@get_holds _ _ (clock (run (store_forecast w2 (forecast_cache_key nl)
                                         formatted) between) + d)
               _ _ _ Hh) by lia.
    split; reflexivity.
  - intros d Hd.
    rewrite (@get_forecast_valid
               (advance d (store_forecast w2 (forecast_cache_key nl) formatted))
               l' nl Ht' Hv' Hn').
    cbn [advance store_forecast forecast_cache clock sent search_cache].
    rewrite get_setitem.
    destruct (Z.ltb_spec (clock w2 + d) (clock w2 + 3600)); [lia|].
    match goal with
    | |- context [forecast_try ?w0 _ _] =>
        destruct (forecast_try_full w0 nl (forecast_cache_key nl)) as (Hs & _);
        destruct (forecast_try w0 nl (forecast_cache_key nl)) as [[r w1'] calls']
    end.
    cbn [fst snd] in Hs. destruct r; cbn [fst snd]; exact Hs.
Qed.
End App.

(** ** The model at concrete inputs *)

Example split_examples :
  split (ch ",") [] = [[]]
  /\ split (ch ",") (lit "a,b,,c") = [lit "a"; lit "b"; []; lit "c"].
Proof. split; reflexivity. Qed.

Example strip_examples :
  strip (lit "  ab c ") = lit "ab c"
  /\ strip ([160%N] ++ lit "ab" ++ [8195%N; 10%N]) = lit "ab".
Proof. split; reflexivity. Qed.

Example sub_linn_examples :
  sub_linn (isword demo_py) false (lit "Tallinn linn LINN-x linna")
  = lit "Tallinn  -x linna"
  /\ sub_linn (isword demo_py) false (lit "linnlinn") = lit "linnlinn"
  /\ sub_linn (isword demo_py) false (lit "linn linn") = lit " "
  /\ sub_linn (isword demo_py) false (lit "a_linn") = lit "a_linn"
  /\ sub_linn (isword demo_py) false ([ch "l"; 305%N] ++ lit "nn") = []
  /\ sub_linn (isword demo_estonian_py) false ([ch "T"; 246%N; 246%N] ++ lit "linn")
     = [ch "T"; 246%N; 246%N] ++ lit "linn"
  /\ sub_linn (isword demo_estonian_py) false ([ch "T"; 246%N; 246%N] ++ lit " linn")
     = [ch "T"; 246%N; 246%N] ++ lit " ".
Proof. repeat split; reflexivity. Qed.

Example match_city_code_examples :
  match_city_code false (lit "Tallinn,EE") = true
  /\ match_city_code false (lit ",EE") = false
  /\ match_city_code false (lit "a,b,EE") = false
  /\ match_city_code false (lit "Tallinn,ee") = false
  /\ match_city_code false (lit "Tallinn,EE" ++ [10%N]) = true.
Proof. repeat split; reflexivity. Qed.

Example normalize_location_examples :
  normalize_location demo_py demo_countries_get (lit "New   York , us")
  = Some (lit "New-York,US")
  /\ normalize_location demo_py demo_countries_get (lit "Tallinn") = None
  /\ normalize_location demo_py demo_countries_get (lit "linn,EE") = None
  /\ normalize_location demo_py demo_countries_get (lit "Tartu,XX") = None
  /\ normalize_location demo_py demo_countries_get (lit "New" ++ [160%N] ++ lit "York, us")
     = Some (lit "New-York,US")
  /\ normalize_location demo_estonian_py demo_countries_get
       ([ch "T"; 246%N; 246%N] ++ lit "linn,EE")
     = Some ([ch "T"; 246%N; 246%N] ++ lit "linn,EE").
Proof. repeat split; vm_compute; reflexivity. Qed.

Example lower_upper_examples :
  lower demo_estonian_py PARNU = lower demo_estonian_py parnu
  /\ upper demo_estonian_py parnu = PARNU
  /\ lower demo_py (lit "Unknown CITY") = lit "unknown city"
  /\ lower demo_py [931%N] = [963%N].
Proof. repeat split; reflexivity. Qed.

#[warnings="-inexact-float"]
Example round1_examples :
  map round1_float [0.25; 0.125; 12.5; 12.75; 99.96875]%float
  = [0.2; 0.1; 12.5; 12.8; 100]%float.
Proof. vm_compute. reflexivity. Qed.

(** The additions of [sum] differ between the interpreters: the mean of
    these eight temperatures is rounded to 8.5 by the one and to 8.4 by the
    other. *)
#[warnings="-inexact-float"]
Example py_sum_examples :
  py_sum plain_float_sum [PyInt 1; PyFloat 0.5%float; PyInt 2] = Ret (PyFloat 3.5%float)
  /\ py_sum compensated_float_sum [PyInt 1; PyFloat 0.5%float; PyInt 2]
     = Ret (PyFloat 3.5%float)
  /\ py_sum plain_float_sum [PyInt (10 ^ 400); PyFloat 0.5%float] = Raise OverflowError
  /\ py_truediv (PyInt 1) 4 = Ret 0.25%float
  /\ (total <- py_sum plain_float_sum
                 (map PyFloat [16.57; 1.18; 22.25; -4.85; 15.92; -3.74; 19.59; 0.68]%float) ;;
      avg <- py_truediv total 8 ;; Ret (py_round1 (PyFloat avg)))%res
     = Ret (PyFloat 8.5%float)
  /\ (total <- py_sum compensated_float_sum
                 (map PyFloat [16.57; 1.18; 22.25; -4.85; 15.92; -3.74; 19.59; 0.68]%float) ;;
      avg <- py_truediv total 8 ;; Ret (py_round1 (PyFloat avg)))%res
     = Ret (PyFloat 8.4%float).
Proof. repeat split; vm_compute; reflexivity. Qed.

Example num_same_examples :
  num_same (PyInt 3) (PyFloat 3%float) = true
  /\ num_same (PyFloat 0%float) (PyFloat (-0)%float) = true
  /\ num_same (PyFloat nan) (PyFloat nan) = true
  /\ num_eqb (PyFloat nan) (PyFloat nan) = false
  /\ num_same (PyInt 3) (PyFloat 3.5%float) = false.
Proof. repeat split; vm_compute; reflexivity. Qed.

Example py_slice_examples :
  py_slice [1; 2; 3; 4; 5] 1 3 = [2; 3]
  /\ py_slice [1; 2; 3; 4; 5] (-2) 0 = []
  /\ py_slice [1; 2; 3; 4; 5] (-4) (-2) = [2; 3]
  /\ py_slice [1; 2; 3; 4; 5] 3 10 = [4; 5].
Proof. repeat split; reflexivity. Qed.

Example validate_weather_data_examples :
  validate_weather_data demo_weather = Ret true
  /\ validate_weather_data demo_weather_no_wind = Ret false
  /\ validate_weather_data demo_weather_text_temp = Ret false
  /\ validate_weather_data demo_weather_fractional_humidity = Ret false
  /\ validate_weather_data demo_weather_no_conditions = Ret false
  /\ validate_weather_data (JNum (PyInt 5)) = Raise TypeError.
Proof. repeat split; vm_compute; reflexivity. Qed.

Example search_examples :
  fst (search_locations demo_py demo_countries_get demo_search_fuzzy demo_geo_search
         initial_world (lit " Tartu") (lit "ee") (Some (lit "1")))
  = ok_places [demo_tartu]
  /\ fst (search_locations demo_py demo_countries_get demo_search_fuzzy demo_geo_search
            initial_world (lit " Tartu") (lit "ee") None)
     = ok_places [demo_tartu]
  /\ search_locations demo_py demo_countries_get demo_search_fuzzy demo_geo_search
       initial_world (lit " Tartu") (lit "ee") (Some (lit "abc"))
     = (uncaught ValueError, initial_world).
Proof. repeat split; vm_compute; reflexivity. Qed.

Example forecast_example :
  forecast_days demo_py demo_date_of newest_first demo_day
  = Ret [ {| fd_date := lit "1970-01-01"; fd_temp := PyFloat 12.5%float;
             fd_description := lit "clear sky"; fd_icon := lit "01d" |} ].
Proof. vm_compute. reflexivity. Qed.

(** ** The properties at concrete inputs *)

Lemma newest_first_ok : set_iter_ok newest_first.
Proof.
  intros l. unfold newest_first. split.
  - apply NoDup_rev. apply NoDup_nodup.
  - intros x. rewrite <- in_rev. apply nodup_In.
Qed.

Lemma normalize_location_key_witness :
  normalize_location demo_py demo_countries_get (lit "  Tartu   linn , ee ")
  = Some (lit "Tartu,EE").
Proof.
  apply (fun H1 H2 H3 H4 =>
           proj1 (@normalize_location_key demo_py demo_countries_get
                    (lit "  Tartu   linn ") (lit " ee ") H1 H2 H3 H4)).
  - vm_compute. intuition discriminate.
  - vm_compute. intuition discriminate.
  - vm_compute. reflexivity.
  - vm_compute. lia.
Defined.

Lemma validate_location_examples_witness :
  validate_location demo_py demo_countries_get (lit "Tallinn,EE") = true.
Proof.
  apply (fun H => proj1 (validate_location_examples demo_py demo_countries_get H)).
  vm_compute. discriminate.
Defined.

Lemma dedup_one_result_per_key_witness :
  List.length
    (filter (fun r => key_eqb (lower demo_estonian_py parnu, lit "EE", Some (PyFloat nan),
                         Some (PyFloat 24.5%float))
                        (place_key demo_estonian_py r))
       (snd (collect demo_estonian_py demo_search_fuzzy ([], [])
               [demo_parnu parnu (Some (lit "Parnu County"));
                demo_parnu PARNU None]))) = 1%nat.
Proof.
  apply (proj2 (dedup_one_result_per_key demo_estonian_py demo_search_fuzzy
                  [demo_parnu parnu (Some (lit "Parnu County"));
                   demo_parnu PARNU None])
           [] [] []
           (demo_parnu parnu (Some (lit "Parnu County")))
           (demo_parnu PARNU None)
           (lower demo_estonian_py parnu, lit "EE", Some (PyFloat nan),
                         Some (PyFloat 24.5%float))
           (lower demo_estonian_py parnu, lit "EE", Some (PyFloat nan),
                         Some (PyFloat 24.5%float))).
  - reflexivity.
  - reflexivity.
  - reflexivity.
  - vm_compute. reflexivity.
Defined.

Lemma search_page_is_sorted_slice_witness :
  List.length
    (firstn 100
       (skipn (Z.to_nat ((2 - 1) * 100))
          (sort_by_name (snd (collect demo_py demo_search_fuzzy ([], []) demo_many)))))
  = 100%nat.
Proof.
  apply (fun H1 H2 H3 H4 =>
           proj1 (proj2 (proj2 (proj2 (proj2
             (@search_page_is_sorted_slice demo_py demo_search_fuzzy demo_geo_search
                initial_world (lit "place") [] (lit "place||2") (lit "place")
                demo_many 2 H1 H2)))) H3 H4)).
  - lia.
  - reflexivity.
  - vm_compute. reflexivity.
  - reflexivity.
Defined.

#[warnings="-inexact-float"]
Lemma forecast_temp_is_rounded_mean_witness :
  exists fd avg,
    forecast_days demo_py demo_date_of newest_first demo_thirds = Ret [fd]
    /\ avg = SF2Prim (sf_quot 32 3)
    /\ rounded_to_tenth avg 10.7%float
    /\ fd_temp fd = PyFloat 10.7%float.
Proof.
  destruct (@forecast_temp_is_rounded_mean demo_py demo_date_of newest_first
              demo_thirds _ ltac:(vm_compute; reflexivity))
    as (_ & H & _).
  destruct (H (lit "1970-01-01") ltac:(left; reflexivity))
    as (fd & sum & avg & r & Hfd & _ & _ & _ & Htemp & Hround & Hint).
  destruct (Hint [10; 11; 11] ltac:(reflexivity)) as [_ Havg].
  destruct Hfd as [<-|[]].
  injection Htemp as <-.
  eexists _, avg. split; [vm_compute; reflexivity|].
  split; [exact Havg|]. split; [exact Hround | reflexivity].
Defined.

Lemma forecast_most_common_witness :
  In (lit "clear sky")
    (map s_description (on_date demo_date_of (lit "1970-01-01") demo_day))
  /\ forall x,
       (count x (map s_description (on_date demo_date_of (lit "1970-01-01") demo_day))
        <= count (lit "clear sky")
             (map s_description (on_date demo_date_of (lit "1970-01-01") demo_day)))%nat.
Proof.
  assert (H : forecast_days demo_py demo_date_of newest_first demo_day
              = Ret [ {| fd_date := lit "1970-01-01"; fd_temp := PyFloat 12.5%float;
                         fd_description := lit "clear sky"; fd_icon := lit "01d" |} ])
    by (vm_compute; reflexivity).
  destruct (@forecast_most_common demo_py demo_date_of newest_first demo_day _
              newest_first_ok H _ (or_introl eq_refl)) as [(H1 & H2 & _) _].
  split; [exact H1 | exact H2].
Defined.

(** C1 as the specification words it does not hold: with two descriptions
    that occur once each, the set may be iterated with the later one first,
    and then the later one is selected. *)
Lemma tie_break_counterexample :
  set_iter_ok newest_first
  /\ forecast_days demo_py demo_date_of newest_first demo_tie
     = Ret [ {| fd_date := lit "1970-01-01"; fd_temp := PyFloat 11%float;
                fd_description := lit "light rain"; fd_icon := lit "10d" |} ]
  /\ ~ first_seen_wins demo_py demo_date_of newest_first.
Proof.
  split; [exact newest_first_ok|].
  assert (H : forecast_days demo_py demo_date_of newest_first demo_tie
              = Ret [ {| fd_date := lit "1970-01-01"; fd_temp := PyFloat 11%float;
                         fd_description := lit "light rain"; fd_icon := lit "10d" |} ])
    by (vm_compute; reflexivity).
  split; [exact H|].
  intros Hclaim.
  destruct (Hclaim demo_tie _ H _ (or_introl eq_refl)) as [Hdesc _].
  destruct Hdesc as (before & after & E & _ & Hlt & _).
  vm_compute in E.
  destruct before as [|b [|b' before]].
  - discriminate E.
  - injection E as E1 E2. specialize (Hlt b (or_introl eq_refl)).
    rewrite <- E1 in Hlt. vm_compute in Hlt. lia.
  - destruct before; discriminate E.
Qed.



Lemma empty_result_is_fetched_again_witness :
  (exists q more,
     sent (snd (search_locations demo_py demo_countries_get demo_search_fuzzy
                  demo_geo_search
                  (advance 60
                     (snd (search_locations demo_py demo_countries_get demo_search_fuzzy
                             demo_geo_search initial_world (lit "Atlantis") [] None)))
                  (lit "Atlantis") [] None))
     = sent (snd (search_locations demo_py demo_countries_get demo_search_fuzzy
                    demo_geo_search initial_world (lit "Atlantis") [] None))
       ++ GeoSearch q :: more)
  /\ fst (TTLCache.get
            (search_cache (snd (search_locations demo_py demo_countries_get
                                  demo_search_fuzzy demo_geo_search initial_world
                                  (lit "Atlantis") [] None)))
            (clock (snd (search_locations demo_py demo_countries_get demo_search_fuzzy
                           demo_geo_search initial_world (lit "Atlantis") [] None)) + 60)
            (search_cache_key (lower demo_py (strip (lit "Atlantis")))
               (upper demo_py (strip [])) 1))
     = Some [].
Proof.
  destruct (@empty_result_is_fetched_again demo_py demo_countries_get demo_search_fuzzy
              demo_geo_search initial_world (lit "Atlantis") [] None
              (snd (search_locations demo_py demo_countries_get demo_search_fuzzy
                      demo_geo_search initial_world (lit "Atlantis") [] None))
              ltac:(vm_compute; reflexivity) ltac:(vm_compute; discriminate)
              60 ltac:(lia)) as [H1 H2].
  split; [exact H1|]. apply H2; [reflexivity| |lia].
  exists {| clock := 1; search_cache := TTLCache.empty;
            forecast_cache := TTLCache.empty;
            sent := [GeoSearch (lit "atlantis")] |}.
  vm_compute. reflexivity.
Defined.

Lemma invalid_weather_payload_is_500_witness :
  status (fst (get_weather demo_py demo_countries_get demo_geo_lookup demo_weather_api
                 initial_world (Some (lit "Tallinn,EE")))) = 500.
Proof.
  apply (fun H1 H2 H3 H4 H5 H6 H7 H8 =>
           proj1 (@invalid_weather_payload_is_500 demo_py demo_countries_get
                    demo_geo_lookup demo_weather_api initial_world (lit "Tallinn,EE")
                    (lit "Tallinn,EE") demo_candidates (JNum (PyFloat 59.5%float))
                    (JNum (PyFloat 24.75%float))
                    (JStr (lit "Tallinn")) (JStr (lit "EE")) demo_weather_no_wind
                    H1 H2 H3 H4 H5 H6 H7 H8)).
  - reflexivity.
  - vm_compute. reflexivity.
  - vm_compute. reflexivity.
  - reflexivity.
  - reflexivity.
  - vm_compute. reflexivity.
  - reflexivity.
  - vm_compute. discriminate.
Defined.

(** ** The further properties at concrete inputs *)

Lemma normalize_location_invariant_witness :
  exists city cc,
    lit "New-York,US" = city ++ lit "," ++ cc
    /\ validate_country demo_countries_get cc = true
    /\ no_double_hyphen city.
Proof.
  destruct (@normalize_location_invariant demo_py demo_countries_get
              (lit "New   York , us") (lit "New-York,US")
              ltac:(vm_compute; reflexivity))
    as (city & cc & E & _ & Hc & _ & _ & _ & Hd).
  exists city, cc. split; [exact E|]. split; [exact Hc | exact Hd].
Defined.

Lemma normalize_location_one_comma_witness :
  normalize_location demo_py demo_countries_get (lit "Paide, Jarva, EE") = None.
Proof.
  apply (@normalize_location_one_comma demo_py demo_countries_get
           (lit "Paide, Jarva, EE")).
  vm_compute. lia.
Defined.

Lemma validate_then_normalize_witness :
  exists city u1 u2 tail,
    [ch "T"; 246%N; 246%N] ++ lit "linn,EE" = city ++ ch "," :: u1 :: u2 :: tail
    /\ normalize_location demo_estonian_py demo_countries_get
         ([ch "T"; 246%N; 246%N] ++ lit "linn,EE")
       = if (List.length (normalize_city demo_estonian_py city) <? 2)%nat then None
         else Some (normalize_city demo_estonian_py city ++ lit "," ++ [u1; u2]).
Proof.
  destruct (@validate_then_normalize demo_estonian_py demo_countries_get
              ([ch "T"; 246%N; 246%N] ++ lit "linn,EE")
              ltac:(vm_compute; reflexivity))
    as (city & u1 & u2 & tail & E & _ & _ & _ & _ & _ & _ & Hn).
  exists city, u1, u2, tail. split; [exact E | exact Hn].
Defined.

Lemma search_calls_bounded_witness :
  exists calls,
    sent (snd (search_locations demo_py demo_countries_get demo_search_fuzzy
                 demo_geo_search initial_world (lit "Atlantis") [] None))
    = sent initial_world ++ calls
    /\ (List.length calls <= 1)%nat.
Proof.
  destruct (search_calls_bounded demo_py demo_countries_get demo_search_fuzzy
              demo_geo_search initial_world (lit "Atlantis") [] None)
    as (calls & E & _ & _ & H1).
  exists calls. split; [exact E|]. apply H1. vm_compute. reflexivity.
Defined.

Lemma search_failure_not_cached_witness :
  same_entries
    (search_cache (snd (search_route demo_py demo_countries_get demo_search_fuzzy
                          demo_geo_search true initial_world (lit "down") []
                          (Some (lit "1")))))
    (search_cache initial_world)
  /\ snd (search_route demo_py demo_countries_get demo_search_fuzzy demo_geo_search
            true initial_world (lit "tartu") [] (Some (lit "abc")))
     = initial_world.
Proof.
  split.
  - apply (proj2 (proj2 (proj2 (search_failure_not_cached demo_py demo_countries_get
                    demo_search_fuzzy demo_geo_search true initial_world (lit "down") []
                    (Some (lit "1")))))).
    vm_compute. reflexivity.
  - destruct (proj2 (proj2 (proj2 (search_failure_not_cached demo_py demo_countries_get
                    demo_search_fuzzy demo_geo_search true initial_world (lit "tartu") []
                    (Some (lit "abc"))))) ltac:(vm_compute; reflexivity))
      as [_ [[_ H]|[[page Hp] _]]]; [exact H|].
    vm_compute in Hp. discriminate Hp.
Defined.

Lemma search_page_well_formed_witness :
  well_formed_page demo_py [demo_tartu].
Proof.
  destruct (@search_page_well_formed demo_py demo_countries_get demo_search_fuzzy
              demo_geo_search initial_world (lit " Tartu") (lit "ee") (Some (lit "1"))
              [demo_tartu] ltac:(vm_compute; reflexivity)) as (page & _ & [H|[H _]]).
  - exfalso. unfold search_cache, initial_world, TTLCache.get in H.
    cbn in H. discriminate H.
  - exact H.
Defined.

Lemma search_ignores_case_witness :
  search_locations demo_py demo_countries_get demo_search_fuzzy demo_geo_search
    initial_world (upper demo_py (lit " Tartu")) (lower demo_py (lit "EE")) None
  = search_locations demo_py demo_countries_get demo_search_fuzzy demo_geo_search
      initial_world (lit " Tartu") (lit "EE") None.
Proof.
  apply (@search_ignores_case demo_py demo_countries_get demo_search_fuzzy
           demo_geo_search initial_world (lit " Tartu") (lit "EE") None).
  - repeat constructor.
  - repeat constructor.
Defined.

Lemma weather_client_error_witness :
  snd (get_weather demo_py demo_countries_get demo_geo_lookup demo_weather_api
         initial_world (Some (lit "Tallinn")))
  = initial_world.
Proof.
  apply (proj2 (weather_client_error demo_py demo_countries_get demo_geo_lookup
                  demo_weather_api initial_world (Some (lit "Tallinn")))).
  vm_compute. reflexivity.
Defined.

Lemma format_weather_validated_witness :
  exists r,
    format_weather demo_countries_get (JStr (lit "Tallinn")) (JStr (lit "EE"))
      demo_weather = Ret r
    /\ status r = 200.
Proof.
  destruct (@format_weather_validated demo_countries_get (JStr (lit "Tallinn"))
              (JStr (lit "EE")) demo_weather ltac:(vm_compute; reflexivity))
    as (t & fl & h & sp & la & lo & wl & w0 & d & _ & _ & _ & _ & _ & _ & Hwl & Hw0
        & _ & Hf).
  vm_compute in Hwl. injection Hwl as <-. vm_compute in Hw0. injection Hw0 as <-.
  rewrite Hf. eexists. split; [vm_compute; reflexivity | reflexivity].
Defined.

Lemma weather_lookup_failure_witness :
  status (fst (get_weather demo_py demo_countries_get demo_geo_lookup_limited
                 demo_weather_api initial_world (Some (lit "Tallinn,EE")))) = 429
  /\ fst (get_weather demo_py demo_countries_get demo_geo_lookup_limited
            demo_weather_api initial_world (Some (lit "Atlantis,EE")))
     = failure 404 LocationNotFound.
Proof.
  split.
  - apply (fun H1 H2 H3 H4 =>
             proj1 (proj1 (@weather_lookup_failure demo_py demo_countries_get
                             demo_geo_lookup_limited demo_weather_api initial_world
                             (lit "Tallinn,EE") (lit "Tallinn,EE") H1 H2 H3) 429 H4)).
    + reflexivity.
    + vm_compute. reflexivity.
    + vm_compute. reflexivity.
    + vm_compute. reflexivity.
  - apply (fun H1 H2 H3 H4 H5 =>
             proj1 (proj2 (@weather_lookup_failure demo_py demo_countries_get
                             demo_geo_lookup_limited demo_weather_api initial_world
                             (lit "Atlantis,EE") (lit "Atlantis,EE") H1 H2 H3)
                      (JArr []) H4 H5)).
    + reflexivity.
    + vm_compute. reflexivity.
    + vm_compute. reflexivity.
    + vm_compute. reflexivity.
    + reflexivity.
Defined.

Lemma forecast_days_in_first_seen_order_witness :
  [lit "1970-01-01"; lit "1970-01-02"]
  = first_seen_order
      (map (fun s => demo_date_of (s_dt s))
         (demo_day ++ [demo_sample 8 9 (lit "mist") (lit "50n");
                       demo_sample 3 17 (lit "mist") (lit "50d")])).
Proof.
  apply (@forecast_days_in_first_seen_order demo_py demo_date_of newest_first
           (demo_day ++ [demo_sample 8 9 (lit "mist") (lit "50n");
                         demo_sample 3 17 (lit "mist") (lit "50d")])
           [ {| fd_date := lit "1970-01-01"; fd_temp := PyFloat 13%float;
                fd_description := lit "clear sky"; fd_icon := lit "01d" |};
             {| fd_date := lit "1970-01-02"; fd_temp := PyFloat 9%float;
                fd_description := lit "mist"; fd_icon := lit "50n" |} ]).
  vm_compute. reflexivity.
Defined.

Lemma forecast_cache_window_witness :
  sent (snd (fst (get_forecast demo_py demo_countries_get demo_date_of newest_first
                    demo_geo_lookup demo_forecast_api
                    (advance 1800
                       (run demo_py demo_countries_get demo_search_fuzzy demo_date_of
                          newest_first demo_geo_search demo_geo_lookup demo_weather_api
                          demo_forecast_api
                          (snd (fst (get_forecast demo_py demo_countries_get demo_date_of
                                       newest_first demo_geo_lookup demo_forecast_api
                                       initial_world (Some (lit "Tallinn,EE")))))
                          [ {| gap := 60; admitted := true;
                               asked := ForecastRequest (Some (lit "Tartu,EE")) |};
                            {| gap := 60; admitted := true;
                               asked := SearchRequest (lit "Atlantis") [] None |} ]))
                    (Some (lit "Tallinn linn,EE")))))
  = sent (run demo_py demo_countries_get demo_search_fuzzy demo_date_of newest_first
            demo_geo_search demo_geo_lookup demo_weather_api demo_forecast_api
            (snd (fst (get_forecast demo_py demo_countries_get demo_date_of
                         newest_first demo_geo_lookup demo_forecast_api
                         initial_world (Some (lit "Tallinn,EE")))))
            [ {| gap := 60; admitted := true;
                 asked := ForecastRequest (Some (lit "Tartu,EE")) |};
              {| gap := 60; admitted := true;
                 asked := SearchRequest (lit "Atlantis") [] None |} ]).
Proof.
  apply (fun H1 H2 H3 H4 H5 H6 H7 H8 H9 H10 =>
           proj2 (proj1 (@forecast_cache_window demo_py demo_countries_get
                           demo_search_fuzzy demo_date_of newest_first demo_geo_search
                           demo_geo_lookup demo_weather_api demo_forecast_api
                           initial_world (lit "Tallinn,EE") (lit "Tallinn,EE")
                           (fst (fst (get_forecast demo_py demo_countries_get demo_date_of
                                        newest_first demo_geo_lookup demo_forecast_api
                                        initial_world (Some (lit "Tallinn,EE")))))
                           (snd (fst (get_forecast demo_py demo_countries_get demo_date_of
                                        newest_first demo_geo_lookup demo_forecast_api
                                        initial_world (Some (lit "Tallinn,EE")))))
                           (snd (get_forecast demo_py demo_countries_get demo_date_of
                                   newest_first demo_geo_lookup demo_forecast_api
                                   initial_world (Some (lit "Tallinn,EE"))))
                           H1 H2 H3 H4 (lit "Tallinn linn,EE") H5 H6 H7)
                    [ {| gap := 60; admitted := true;
                         asked := ForecastRequest (Some (lit "Tartu,EE")) |};
                      {| gap := 60; admitted := true;
                         asked := SearchRequest (lit "Atlantis") [] None |} ]
                    1800 H8 H9 H10)).
  - vm_compute. reflexivity.
  - vm_compute. reflexivity.
  - vm_compute. discriminate.
  - vm_compute. reflexivity.
  - reflexivity.
  - vm_compute. reflexivity.
  - vm_compute. reflexivity.
  - vm_compute. lia.
  - lia.
  - vm_compute. reflexivity.
Defined.

Lemma forecast_failure_not_cached_witness :
  same_entries
    (forecast_cache
       (snd (fst (get_forecast demo_py demo_countries_get demo_date_of newest_first
                    demo_geo_lookup_limited demo_forecast_api initial_world
                    (Some (lit "Tallinn,EE"))))))
    (forecast_cache initial_world).
Proof.
  apply (proj2 (proj2 (proj2
           (forecast_failure_not_cached demo_py demo_countries_get demo_date_of
              newest_first demo_geo_lookup_limited demo_forecast_api initial_world
              (Some (lit "Tallinn,EE")))))).
  vm_compute. discriminate.
Defined.

Lemma forecast_client_error_witness :
  snd (fst (get_forecast demo_py demo_countries_get demo_date_of newest_first
              demo_geo_lookup demo_forecast_api initial_world
              (Some (lit "Tallinn,ee"))))
  = initial_world
  /\ snd (get_forecast demo_py demo_countries_get demo_date_of newest_first
            demo_geo_lookup demo_forecast_api initial_world
            (Some (lit "Tallinn,ee")))
     = [].
Proof.
  apply (proj2 (forecast_client_error demo_py demo_countries_get demo_date_of
                  newest_first demo_geo_lookup demo_forecast_api initial_world
                  (Some (lit "Tallinn,ee")))).
  vm_compute. reflexivity.
Defined.
